(** * Population dashboards: a shallow embedding of the reactive core

    The repository holds three Shiny-for-Python dashboards:
    - [age_app.py]        (age pyramid and median age, matplotlib),
    - [age_app_shiny.py]  (the same dashboard drawn with plotly),
    - [pva/app_2.py]      (population growth of the US states).

    The handlers are embedded function by function.  Python exceptions are
    values of [result]; pandas frames are row lists; the frames that the
    handlers create or assign to live in an object store addressed by
    references, so that aliasing and in-place column assignment are visible;
    the values remembered by the two [@reactive.calc] objects are references
    into that store.
    Floating point numbers are read as exact rationals ([Q]) with a separate
    [NaN]; rounding error of binary64 arithmetic is outside the model. *)

From Stdlib Require Import ZArith QArith Qabs String Ascii List DecimalString.
From Stdlib Require Import Permutation Sorted Lia.
From stdpp Require Import gmap strings list sorting.

Local Open Scope Z_scope.
Local Open Scope string_scope.

(* ===================================================================== *)
(** ** Python builtins used by the handlers *)
(* ===================================================================== *)

Module Py.

Inductive exn : Type :=
| KeyError (key : string)
| IndexError
| ValueError
| TypeError
| NameError.

Inductive result (A : Type) : Type :=
| Ok (a : A)
| Raise (e : exn).
Arguments Ok {A} a.
Arguments Raise {A} e.

#[export] Instance result_ret : MRet result := fun _ a => Ok a.
#[export] Instance result_bind : MBind result := fun _ _ f m =>
  match m with
  | Ok a => f a
  | Raise e => Raise e
  end.
#[export] Instance result_fmap : FMap result := fun _ _ f m =>
  match m with
  | Ok a => Ok (f a)
  | Raise e => Raise e
  end.

(** [[f(x) for x in l]]: the comprehension stops at the first exception. *)
Fixpoint traverse {A B : Type} (f : A → result B) (l : list A)
  : result (list B) :=
  match l with
  | [] => Ok []
  | x :: t => y ← f x; ys ← traverse f t; Ok (y :: ys)
  end.

(** [s.split(sep)] for a one-character separator. *)
Fixpoint split (sep : ascii) (s : string) : list string :=
  match s with
  | EmptyString => [EmptyString]
  | String c s' =>
      if Ascii.eqb c sep then EmptyString :: split sep s'
      else match split sep s' with
           | [] => [String c EmptyString]
           | w :: ws => String c w :: ws
           end
  end.

(** [l[i]] on a Python list. *)
Definition getitem {A : Type} (l : list A) (i : nat) : result A :=
  match l !! i with
  | Some x => Ok x
  | None => Raise IndexError
  end.

Definition is_space (c : ascii) : bool :=
  let n := nat_of_ascii c in
  (Nat.eqb n 32 || (Nat.leb 9 n && Nat.leb n 13))%bool.

Fixpoint lstrip (s : string) : string :=
  match s with
  | String c s' => if is_space c then lstrip s' else s
  | EmptyString => EmptyString
  end.

Definition digit_of (c : ascii) : option Z :=
  let n := nat_of_ascii c in
  if (Nat.leb 48 n && Nat.leb n 57)%bool then Some (Z.of_nat n - 48)
  else None.

(** Digits up to the end of the literal; trailing blanks are allowed. *)
Fixpoint digits (s : string) (acc : Z) : option Z :=
  match s with
  | EmptyString => Some acc
  | String c s' =>
      match digit_of c with
      | Some d => digits s' (10 * acc + d)
      | None => if (lstrip s =? EmptyString)%string then Some acc else None
      end
  end.

Definition unsigned_literal (s : string) : result Z :=
  match s with
  | String c _ =>
      match digit_of c, digits s 0 with
      | Some _, Some n => Ok n
      | _, _ => Raise ValueError
      end
  | EmptyString => Raise ValueError
  end.

(** [int(s)] for a string of ASCII characters: surrounding blanks, an
    optional sign, then decimal digits.  (Digit-group underscores cannot
    occur here: every argument is a piece of a split on ['_'].) *)
Definition int_of_str (s : string) : result Z :=
  match lstrip s with
  | String "-" s' => Z.opp <$> unsigned_literal s'
  | String "+" s' => unsigned_literal s'
  | s' => unsigned_literal s'
  end.

(** [int(x)] for a float: truncation toward zero. *)
Definition int_of_float (x : Q) : Z := Z.quot (Qnum x) (Z.pos (Qden x)).

(** [str(n)] for an int. *)
Definition str (n : Z) : string := NilZero.string_of_int (Z.to_int n).

(** [max(l)] of a list of ints. *)
Definition max (l : list Z) : result Z :=
  match l with
  | [] => Raise ValueError
  | x :: t => Ok (fold_left Z.max t x)
  end.

(** A stable sort: [x] is put in front of the first element it may
    stand before, so that elements that compare equal keep their order. *)
Fixpoint insert_sorted {A : Type} (before : A → A → bool) (x : A)
         (l : list A) : list A :=
  match l with
  | [] => [x]
  | y :: t =>
      if before x y then x :: l else y :: insert_sorted before x t
  end.

Definition stable_sort {A : Type} (before : A → A → bool) (l : list A)
  : list A :=
  fold_right (insert_sorted before) [] l.

(** [sorted(l, key=key)]: the keys are computed first, in list order, and
    the sort is stable. *)
Definition sorted {A : Type} (key : A → result Z) (l : list A)
  : result (list A) :=
  ks ← traverse key l;
  Ok (stable_sort (λ a b : Z * A, (a.1 <=? b.1)%Z) (zip ks l)).*2.

(** Round to the nearest integer, ties to even. *)
Definition round_half_even (x : Q) : Z :=
  let d := Z.pos (Qden x) in
  let fl := Qnum x / d in
  let r := Qnum x mod d in
  match (2 * r ?= d)%Z with
  | Lt => fl
  | Gt => fl + 1
  | Eq => if Z.even fl then fl else fl + 1
  end.

(** [f"{x:.1f}"] for a finite float. *)
Definition format_1f (x : Q) : string :=
  let n := round_half_even (Qabs x * 10)%Q in
  (if (Qnum x <? 0)%Z then "-" else EmptyString)
    +:+ str (n / 10) +:+ "." +:+ str (n mod 10).

End Py.
Export Py.


(* ===================================================================== *)
(** ** The part of pandas and numpy the handlers call *)
(* ===================================================================== *)

Module Pandas.

(** A cell: text, a number, or the missing value. *)
Inductive value : Type :=
| VStr (s : string)
| VNum (q : Q)
| NaN.

Definition Series : Type := list value.

(** A frame: the column labels in order, and the rows in index order.
    A row maps a column label to its cell.  Index labels are not kept:
    the handlers select rows by mask and by position only. *)
Record DataFrame : Type := mkDataFrame {
  columns : list string;
  rows : list (gmap string value);
}.

Definition cell (r : gmap string value) (col : string) : value :=
  default NaN (r !! col).

(** Scalar [==]: never true on a missing value. *)
Definition value_eqb (a b : value) : bool :=
  match a, b with
  | VStr s, VStr t => bool_decide (s = t)
  | VNum p, VNum q => Qeq_bool p q
  | _, _ => false
  end.

Definition is_nan (v : value) : bool :=
  match v with NaN => true | _ => false end.

Definition is_str (v : value) : bool :=
  match v with VStr _ => true | _ => false end.

(** [df[col]] *)
Definition getitem_col (df : DataFrame) (col : string) : result Series :=
  if bool_decide (col ∈ columns df)
  then Ok ((fun r => cell r col) <$> rows df)
  else Raise (KeyError col).

(** [s == v] *)
Definition series_eq (s : Series) (v : value) : list bool :=
  (fun x => value_eqb x v) <$> s.

(** [s.isin(names)] for a list of strings *)
Definition isin (s : Series) (names : list string) : list bool :=
  (fun x => match x with
            | VStr n => bool_decide (n ∈ names)
            | _ => false
            end) <$> s.

(** [a & b] *)
Definition mask_and (a b : list bool) : list bool := zip_with andb a b.

(** [s.notna()] *)
Definition notna (s : Series) : list bool := (fun x => negb (is_nan x)) <$> s.

(** [np.where(c, a, b)] on arrays of one length *)
Fixpoint np_where (c : list bool) (a b : list value) : list value :=
  match c, a, b with
  | ci :: c', ai :: a', bi :: b' =>
      (if ci then ai else bi) :: np_where c' a' b'
  | _, _, _ => []
  end.

Fixpoint select {A : Type} (mask : list bool) (l : list A) : list A :=
  match mask, l with
  | m :: mask', x :: l' =>
      if m then x :: select mask' l' else select mask' l'
  | _, _ => []
  end.

(** [df[mask]]: a new frame with the rows where the mask holds. *)
Definition getitem_mask (df : DataFrame) (mask : list bool)
  : result DataFrame :=
  if bool_decide (length mask = length (rows df))
  then Ok (mkDataFrame (columns df) (select mask (rows df)))
  else Raise ValueError.

(** [df[col] = data] for an array: the column is replaced where it
    stands, or appended as the last column. *)
Definition setitem (df : DataFrame) (col : string) (data : list value)
  : result DataFrame :=
  if bool_decide (length data = length (rows df))
  then Ok (mkDataFrame
             (if bool_decide (col ∈ columns df) then columns df
              else columns df ++ [col])
             (zip_with (fun r v => <[col := v]> r) (rows df) data))
  else Raise ValueError.

(** [df.empty]: some axis has length zero. *)
Definition empty (df : DataFrame) : bool :=
  match columns df, rows df with
  | [], _ | _, [] => true
  | _, _ => false
  end.

(** [s.iloc[0]] *)
Definition iloc0 (s : Series) : result value :=
  match s with
  | v :: _ => Ok v
  | [] => Raise IndexError
  end.

(** [x / 1_000_000] and [-x] on a cell *)
Definition div_scalar (v : value) (d : Q) : result value :=
  match v with
  | VNum q => Ok (VNum (q / d)%Q)
  | NaN => Ok NaN
  | VStr _ => Raise TypeError
  end.

Definition neg (v : value) : result value :=
  match v with
  | VNum q => Ok (VNum (- q)%Q)
  | NaN => Ok NaN
  | VStr _ => Raise TypeError
  end.

(** The numbers of a series, missing values skipped. *)
Fixpoint numbers (s : Series) : result (list Q) :=
  match s with
  | [] => Ok []
  | VNum q :: t => qs ← numbers t; Ok (q :: qs)
  | NaN :: t => numbers t
  | VStr _ :: _ => Raise TypeError
  end.

Definition Qsum (l : list Q) : Q := fold_right Qplus 0%Q l.

(** [s.mean()]: missing values are skipped; nothing left gives NaN.
    The sum and the quotient are exact here and rounded to binary64 in
    the code, so the digits of a mean are not part of any statement
    below: only whether it is a number or NaN. *)
Definition mean (s : Series) : result value :=
  qs ← numbers s;
  match qs with
  | [] => Ok NaN
  | _ => Ok (VNum (Qsum qs / inject_Z (Z.of_nat (length qs)))%Q)
  end.

(** [s.max()]: the largest number, missing values skipped; nothing left
    gives NaN. *)
Definition max (s : Series) : result value :=
  qs ← numbers s;
  match qs with
  | [] => Ok NaN
  | q :: t => Ok (VNum (fold_left (λ a b, if Qle_bool a b then b else a)
                                  t q))
  end.

(** [x * d] on a cell *)
Definition mul_scalar (v : value) (d : Q) : result value :=
  match v with
  | VNum q => Ok (VNum (q * d)%Q)
  | NaN => Ok NaN
  | VStr _ => Raise TypeError
  end.

(** [f"{v:.1f}"] on a cell *)
Definition format_1f (v : value) : result string :=
  match v with
  | VNum q => Ok (Py.format_1f q)
  | NaN => Ok "nan"
  | VStr _ => Raise ValueError
  end.

(** [int(v)] on a cell *)
Definition int (v : value) : result Z :=
  match v with
  | VNum q => Ok (Py.int_of_float q)
  | NaN => Raise ValueError
  | VStr s => Py.int_of_str s
  end.

(** Descending order of the numbers, anything else last. *)
Definition sort_key (v : value) : option Q :=
  match v with
  | VNum q => Some q
  | _ => None
  end.

Definition ranks_before (a b : value) : bool :=
  match sort_key a, sort_key b with
  | Some p, Some q => Qle_bool q p
  | _, None => true
  | None, Some _ => false
  end.

(** [df.nlargest(n, col)]: the first [n] rows in descending order of
    [col], earlier rows first among equals, missing values last.  A text
    column is refused; the type of a column is read off its cells.
    (When [n] reaches the frame length pandas leaves the order among
    equal values to its sort routine; the model orders them the same way
    in both cases.) *)
Definition nlargest (df : DataFrame) (n : Z) (col : string)
  : result DataFrame :=
  s ← getitem_col df col;
  if existsb is_str s then Raise TypeError
  else Ok (mkDataFrame
             (columns df)
             (take (Z.to_nat n)
                   (Py.stable_sort
                      (λ r r', ranks_before (cell r col) (cell r' col))
                      (rows df)))).

End Pandas.
Export Pandas.

(* ===================================================================== *)
(** ** Frames as objects: the store, and the frame operations on references *)
(* ===================================================================== *)

Module DF.

Definition ref : Type := nat.

(** A computation reads and updates the store of frame objects and ends
    with a value or an exception; the store survives an exception. *)
Definition M (A : Type) : Type :=
  gmap nat DataFrame → result A * gmap nat DataFrame.

#[export] Instance M_ret : MRet M := fun _ a h => (Ok a, h).
#[export] Instance M_bind : MBind M := fun _ _ f m h =>
  match m h with
  | (Ok a, h') => f a h'
  | (Raise e, h') => (Raise e, h')
  end.

Definition lift {A : Type} (r : result A) : M A := fun h => (r, h).

(** Reading a name bound to a frame. *)
Definition load (p : ref) : M DataFrame := fun h =>
  match h !! p with
  | Some df => (Ok df, h)
  | None => (Raise NameError, h)
  end.

(** A new object gets a reference no live object has. *)
Definition alloc (df : DataFrame) : M ref := fun h =>
  let p := fresh (dom h) in (Ok p, <[p := df]> h).

Definition write (p : ref) (df : DataFrame) : M unit := fun h =>
  (Ok tt, <[p := df]> h).

(** [p[col]] *)
Definition getitem_col (p : ref) (col : string) : M Series :=
  df ← load p; lift (Pandas.getitem_col df col).

(** [p[mask]] builds a new frame object. *)
Definition getitem_mask (p : ref) (mask : list bool) : M ref :=
  df ← load p; df' ← lift (Pandas.getitem_mask df mask); alloc df'.

(** [p.copy()] *)
Definition copy (p : ref) : M ref :=
  df ← load p; alloc df.

(** [p[col] = data] changes the object [p] refers to. *)
Definition setitem (p : ref) (col : string) (data : list value) : M unit :=
  df ← load p; df' ← lift (Pandas.setitem df col data); write p df'.

(** [p.empty] *)
Definition empty (p : ref) : M bool :=
  df ← load p; mret (Pandas.empty df).

End DF.
Export DF.

(* ===================================================================== *)
(** ** age_app.py *)
(* ===================================================================== *)

Module AgeApp.

(** The module-level names bound when the application is loaded. *)
Record Globals : Type := mkGlobals {
  male_popl_by_age_df : ref;
  female_popl_by_age_df : ref;
  median_df : ref;
  male_age_groups : list string;
  available_years : list Z;
}.

(** The current values of the input controls. *)
Record Input : Type := mkInput {
  entity : string;
  year : Z;
  median_year : Z;
}.

(** The reactive state of a session: the inputs, the two reactive
    values, and the labels of the two play buttons. *)
Record Session : Type := mkSession {
  input : Input;
  animating_age_distribution : bool;
  animating_median_age : bool;
  play_age_distribution_label : string;
  play_median_age_label : string;
}.

Definition median_regions : list string :=
  ["Asia (UN)"; "Europe (UN)"; "United States"; "Africa (UN)"].

(** [colors["regions"].get(entity, "#cccccc")] *)
Definition region_color (entity : value) : string :=
  match entity with
  | VStr "Africa (UN)" => "#1f77b4"
  | VStr "Asia (UN)" => "#ff7f0e"
  | VStr "Europe (UN)" => "#2ca02c"
  | VStr "United States" => "#d62728"
  | _ => "#cccccc"
  end.

(** What a plot handler hands to the renderer.  Sizes, colours of the
    two pyramid series, grid, legend and axis limits are left out. *)
Inductive Figure : Type :=
| TextFigure (text : string)
| BarhFigure (yticklabels : list string) (male female : list value)
             (title : string) (xticklabels : list string)
| BarFigure (x height : list value) (color : list string) (alpha : Q)
            (texts : list string) (title : string).

(* ------------------------------------------------------------------- *)
(** *** Reactive calculations *)

Definition get_population_data (g : Globals) (i : Input) : M (ref * ref) :=
  m_ent ← getitem_col (male_popl_by_age_df g) "entities";
  m_yr ← getitem_col (male_popl_by_age_df g) "years";
  male_data ← getitem_mask (male_popl_by_age_df g)
    (mask_and (series_eq m_ent (VStr (entity i)))
              (series_eq m_yr (VNum (inject_Z (year i)))));
  f_ent ← getitem_col (female_popl_by_age_df g) "entities";
  f_yr ← getitem_col (female_popl_by_age_df g) "years";
  female_data ← getitem_mask (female_popl_by_age_df g)
    (mask_and (series_eq f_ent (VStr (entity i)))
              (series_eq f_yr (VNum (inject_Z (year i)))));
  mret (male_data, female_data).

Definition estimates_column : string :=
  "median_age__sex_all__age_all__variant_estimates".
Definition medium_column : string :=
  "median_age__sex_all__age_all__variant_medium".

(** The frame [filtered_df] as it stands after the column assignment. *)
Definition median_filtered_df (g : Globals) : M ref :=
  ents ← getitem_col (median_df g) "entities";
  selected ← getitem_mask (median_df g) (isin ents median_regions);
  filtered_df ← copy selected;
  est_na ← getitem_col filtered_df estimates_column;
  est ← getitem_col filtered_df estimates_column;
  med ← getitem_col filtered_df medium_column;
  setitem filtered_df "median_age_combined"
          (np_where (notna est_na) est med);;
  mret filtered_df.

Definition get_median_data (g : Globals) (i : Input) : M (ref * bool) :=
  filtered_df ← median_filtered_df g;
  yrs ← getitem_col filtered_df "years";
  year_data ← getitem_mask filtered_df
    (series_eq yrs (VNum (inject_Z (median_year i))));
  mret (year_data, bool_decide (median_year i > 2023)).

(* ------------------------------------------------------------------- *)
(** *** The age pyramid *)

(** The sort key [int(x.split('_')[0]) if x != '100plus' else 100]. *)
Definition age_group_key (x : string) : result Z :=
  if bool_decide (x ≠ "100plus")
  then lower ← Py.getitem (Py.split "_" x) 0; Py.int_of_str lower
  else Ok 100.

Definition age_label (age_group : string) : result string :=
  if bool_decide (age_group = "100plus") then Ok "100+"
  else
    let age_range := Py.split "_" age_group in
    lower ← Py.getitem age_range 0;
    upper ← Py.getitem age_range 1;
    Ok (lower +:+ "-" +:+ upper).

Definition col_male (age_group : string) : string :=
  "population__sex_male__age_" +:+ age_group +:+ "__variant_estimates".
Definition col_female (age_group : string) : string :=
  "population__sex_female__age_" +:+ age_group +:+ "__variant_estimates".

(** One round of the loop over the age groups: the label, the male bar
    and the female bar. *)
Definition pyramid_bar (male_data female_data : DataFrame)
           (age_group : string) : result (string * value * value) :=
  age_label ← age_label age_group;
  male_col ← Pandas.getitem_col male_data (col_male age_group);
  male_first ← iloc0 male_col;
  male_pop ← div_scalar male_first 1000000;
  female_col ← Pandas.getitem_col female_data (col_female age_group);
  female_first ← iloc0 female_col;
  female_pop ← div_scalar female_first 1000000;
  male_bar ← neg male_pop;
  Ok (age_label, male_bar, female_pop).

(** [str(abs(int(x)))] *)
Definition xticklabel (x : Q) : string := Py.str (Z.abs (Py.int_of_float x)).

Definition no_population_data : string :=
  "Keine Daten verfügbar für die ausgewählte Kombination".
Definition no_median_data : string :=
  "Keine Daten verfügbar für das ausgewählte Jahr".

Section Plots.

(** The tick positions matplotlib chooses for the drawn bars. *)
Variable get_xticks : list value → list value → list Q.

(** The figure drawn from the two selected frames, from the sort of
    the age groups on. *)
Definition pyramid_figure (male_data female_data : DataFrame)
           (age_groups : list string) (i : Input) : result Figure :=
  sorted_age_groups ← Py.sorted age_group_key age_groups;
  bars ← Py.traverse (pyramid_bar male_data female_data)
                     sorted_age_groups;
  let age_labels_display := bars.*1.*1 in
  let male_populations := bars.*1.*2 in
  let female_populations := bars.*2 in
  let title := "Altersverteilung - " +:+ entity i
                 +:+ " (" +:+ Py.str (year i) +:+ ")" in
  let xticks := get_xticks male_populations female_populations in
  Ok (BarhFigure age_labels_display male_populations
                 female_populations title (xticklabel <$> xticks)).

(** The handler, from the value of the calculation on. *)
Definition age_distribution_plot_body (data : ref * ref) (g : Globals)
           (i : Input) : M Figure :=
  let '(male_data, female_data) := data in
  male_empty ← DF.empty male_data;
  (if male_empty : bool then mret true else DF.empty female_data)
    ≫= λ no_data : bool,
  if no_data then mret (TextFigure no_population_data)
  else
    male ← load male_data;
    female ← load female_data;
    lift (pyramid_figure male female (male_age_groups g) i).

(** The handler when its call of [get_population_data()] runs the
    calculation; a call that finds a cached value is in [Reactive]. *)
Definition age_distribution_plot (g : Globals) (i : Input) : M Figure :=
  data ← get_population_data g i;
  age_distribution_plot_body data g i.

End Plots.

(* ------------------------------------------------------------------- *)
(** *** The median age chart *)

Definition projection_info (i : Input) : string :=
  if bool_decide (median_year i > 2023)
  then "<span class='projection-note'>Projektion</span>"
  else "<span>Historische Daten</span>".

Definition bar_text (is_projection : bool) (yval : value) : result string :=
  text_label ← Pandas.format_1f yval;
  Ok (if is_projection then text_label +:+ String "010" "(Proj.)"
      else text_label).

(** [ax.set_ylim(bottom, top)]: matplotlib refuses a limit that is not a
    number. *)
Definition set_ylim (bottom : Q) (top : value) : result unit :=
  match top with
  | VNum _ => Ok tt
  | NaN => Raise ValueError
  | VStr _ => Raise TypeError
  end.

Definition median_age_plot_body (data : ref * bool) (i : Input) : M Figure :=
  let '(year_data, is_projection) := data in
  DF.empty year_data ≫= λ no_data : bool,
  if no_data then mret (TextFigure no_median_data)
  else
    ents ← getitem_col year_data "entities";
    let bar_colors := region_color <$> ents in
    x ← getitem_col year_data "entities";
    height ← getitem_col year_data "median_age_combined";
    let alpha := if is_projection : bool then (7 # 10)%Q else 1%Q in
    let title := "Medianes Alter nach Region ("
                   +:+ Py.str (median_year i) +:+ ")" in
    combined ← getitem_col year_data "median_age_combined";
    top ← lift (highest ← Pandas.max combined;
                mul_scalar highest (12 # 10));
    lift (set_ylim 0 top);;
    texts ← lift (Py.traverse (bar_text is_projection) height);
    mret (BarFigure x height bar_colors alpha texts title).

Definition median_age_plot (g : Globals) (i : Input) : M Figure :=
  data ← get_median_data g i;
  median_age_plot_body data i.

(* ------------------------------------------------------------------- *)
(** *** Reactive effects

    [ui.update_slider], [ui.update_select] and [ui.update_action_button]
    are read as assignments to the control: the session a handler returns
    is the session once the page has answered.  Until then [input.year()]
    and [input.median_year()] keep their value; [Page] keeps the values on
    their way apart.  An effect also reports the delay passed to
    [reactive.invalidate_later], if it asked for one. *)

Definition set_year (y : Z) (s : Session) : Session :=
  mkSession (mkInput (entity (input s)) y (median_year (input s)))
            (animating_age_distribution s) (animating_median_age s)
            (play_age_distribution_label s) (play_median_age_label s).

Definition set_median_year (y : Z) (s : Session) : Session :=
  mkSession (mkInput (entity (input s)) (year (input s)) y)
            (animating_age_distribution s) (animating_median_age s)
            (play_age_distribution_label s) (play_median_age_label s).

Definition set_entity (e : string) (s : Session) : Session :=
  mkSession (mkInput e (year (input s)) (median_year (input s)))
            (animating_age_distribution s) (animating_median_age s)
            (play_age_distribution_label s) (play_median_age_label s).

Definition set_animating_age_distribution (b : bool) (s : Session)
  : Session :=
  mkSession (input s) b (animating_median_age s)
            (play_age_distribution_label s) (play_median_age_label s).

Definition set_animating_median_age (b : bool) (s : Session) : Session :=
  mkSession (input s) (animating_age_distribution s) b
            (play_age_distribution_label s) (play_median_age_label s).

Definition set_play_age_distribution_label (l : string) (s : Session)
  : Session :=
  mkSession (input s) (animating_age_distribution s)
            (animating_median_age s) l (play_median_age_label s).

Definition set_play_median_age_label (l : string) (s : Session) : Session :=
  mkSession (input s) (animating_age_distribution s)
            (animating_median_age s) (play_age_distribution_label s) l.

(** The handler of [input.reset]. *)
Definition reset (s : Session) : Session :=
  let s := set_year 1950 s in
  let s := set_median_year 1950 s in
  let s := set_entity "World" s in
  let s := set_animating_age_distribution false s in
  let s := set_play_age_distribution_label "Play" s in
  let s := set_animating_median_age false s in
  set_play_median_age_label "Play" s.

(** The handler of [input.play_age_distribution]. *)
Definition toggle_age_distribution (s : Session) : Session :=
  let current_state := animating_age_distribution s in
  let s := set_animating_age_distribution (negb current_state) s in
  if negb current_state then set_play_age_distribution_label "Pause" s
  else set_play_age_distribution_label "Play" s.

Definition _animate_age_distribution (g : Globals) (s : Session)
  : result (Session * option Q) :=
  if animating_age_distribution s then
    let current_year := year (input s) in
    max_year ← Py.max (available_years g);
    if bool_decide (current_year < max_year) then
      let next_year := current_year + 1 in
      Ok (set_year next_year s, Some (5 # 100)%Q)
    else
      Ok (set_play_age_distribution_label "Play"
            (set_animating_age_distribution false s), None)
  else Ok (s, None).

(** The handler of [input.play_median_age]. *)
Definition toggle_median_age (s : Session) : Session :=
  let current_state := animating_median_age s in
  let s := set_animating_median_age (negb current_state) s in
  if negb current_state then set_play_median_age_label "Pause" s
  else set_play_median_age_label "Play" s.

Definition _animate_median_age (s : Session) : Session * option Q :=
  if animating_median_age s then
    let current_median_year := median_year (input s) in
    let max_median_year := 2100 in
    if bool_decide (current_median_year < max_median_year) then
      let next_median_year := current_median_year + 1 in
      (set_median_year next_median_year s, Some (25 # 100)%Q)
    else
      (set_play_median_age_label "Play"
         (set_animating_median_age false s), None)
  else (s, None).

End AgeApp.

(* ===================================================================== *)
(** ** age_app_shiny.py *)
(* ===================================================================== *)

Module AgeAppShiny.

Import AgeApp.

(** What a widget handler hands to plotly; layout options are left out.
    [ticktext] is the list passed to [update_xaxes]: the handler sets no
    [tickvals] with it, so it is an attribute of the layout and not the
    labels the axis shows. *)
Inductive Figure : Type :=
| AnnotationFigure (text : string)
| PyramidFigure (age : list string) (male female : list value)
                (title : string) (ticktext : list string)
| PxBarFigure (x y text : list value) (title : string) (opacity : Q).

(** The two reactive calculations have the text of age_app.py. *)
Definition get_population_data : Globals → Input → M (ref * ref) :=
  AgeApp.get_population_data.
Definition get_median_data : Globals → Input → M (ref * bool) :=
  AgeApp.get_median_data.

(** One round of the loop over [male_age_groups]: a record of
    [age_data]. *)
Definition age_record (male_data female_data : DataFrame)
           (age_group : string) : result (string * value * value) :=
  age_label ← age_label age_group;
  male_col ← Pandas.getitem_col male_data (col_male age_group);
  male_first ← iloc0 male_col;
  male_neg ← neg male_first;
  male_pop ← div_scalar male_neg 1000000;
  female_col ← Pandas.getitem_col female_data (col_female age_group);
  female_first ← iloc0 female_col;
  female_pop ← div_scalar female_first 1000000;
  Ok (age_label, male_pop, female_pop).

(** [str(abs(int(x)))] for an element of the male trace. *)
Definition ticktext_of (x : value) : result string :=
  n ← Pandas.int x; Ok (Py.str (Z.abs n)).

(** The figure drawn from the two selected frames, from the loop over
    [male_age_groups] on.  A frame built from no records has no column
    ['Age'].  The frame [df_plot] is read back column by column and is
    local to the handler; it is not entered in the store, so the store
    after this render is not part of any statement below. *)
Definition pyramid_figure (male_data female_data : DataFrame)
           (age_groups : list string) (i : Input) : result Figure :=
  age_data ← Py.traverse (age_record male_data female_data) age_groups;
  (if bool_decide (age_data = []) then Raise (KeyError "Age")
   else Ok tt);;
  let age := age_data.*1.*1 in
  let male_x := age_data.*1.*2 in
  let female_x := age_data.*2 in
  let title := "Altersverteilung - " +:+ entity i
                 +:+ " (" +:+ Py.str (year i) +:+ ")" in
  ticktext ← Py.traverse ticktext_of male_x;
  Ok (PyramidFigure age male_x female_x title ticktext).

(** The handler, from the value of the calculation on. *)
Definition age_distribution_render_body (data : ref * ref) (g : Globals)
           (i : Input) : M Figure :=
  let '(male_data, female_data) := data in
  male_empty ← DF.empty male_data;
  (if male_empty : bool then mret true else DF.empty female_data)
    ≫= λ no_data : bool,
  if no_data then mret (AnnotationFigure no_population_data)
  else
    male ← load male_data;
    female ← load female_data;
    lift (pyramid_figure male female (male_age_groups g) i).

Definition age_distribution_render (g : Globals) (i : Input) : M Figure :=
  data ← get_population_data g i;
  age_distribution_render_body data g i.

Definition projection_info (i : Input) : string :=
  if bool_decide (median_year i > 2023)
  then "<span class='projection-note'>Projektion</span>"
  else "<span>Historische Daten</span>".

(** The text of one bar, computed row by row. *)
Definition custom_text (is_projection : bool) (row : gmap string value)
  : result value :=
  match row !! "median_age_combined" with
  | None => Raise (KeyError "median_age_combined")
  | Some v =>
      t ← Pandas.format_1f v;
      Ok (VStr (if is_projection
                then t +:+ "<br><span style='color:#edeaa8;font-size:12px'>Projected</span>"
                else t))
  end.

(** The handler, from the value of the calculation on.  The column
    [custom_text] is assigned to the frame the calculation returned. *)
Definition median_age_render_body (data : ref * bool) (i : Input)
  : M Figure :=
  let '(year_data, is_projection) := data in
  DF.empty year_data ≫= λ no_data : bool,
  if no_data then mret (AnnotationFigure no_median_data)
  else
    frame ← load year_data;
    texts ← lift (Py.traverse (custom_text is_projection) (rows frame));
    setitem year_data "custom_text" texts;;
    x ← getitem_col year_data "entities";
    y ← getitem_col year_data "median_age_combined";
    text ← getitem_col year_data "custom_text";
    let title := "Medianes Alter nach Region ("
                   +:+ Py.str (median_year i) +:+ ")" in
    mret (PxBarFigure x y text title
                      (if is_projection : bool then (7 # 10)%Q else 1%Q)).

Definition median_age_render (g : Globals) (i : Input) : M Figure :=
  data ← get_median_data g i;
  median_age_render_body data i.

(** The handler of [input.reset]. *)
Definition reset (i : Input) : Input := mkInput "World" 2023 2023.

End AgeAppShiny.

(* ===================================================================== *)
(** ** pva/app_2.py *)
(* ===================================================================== *)

Module App2.

(** The handlers read the frame [df_states] built at load time and the
    two controls [regions] and [top_n]. *)
Section Handlers.

Variable df_states : DataFrame.

(** [df_states[df_states['REGION_NAME'].isin(input.regions())]] *)
Definition filtered_df (regions : list string) : result DataFrame :=
  names ← Pandas.getitem_col df_states "REGION_NAME";
  Pandas.getitem_mask df_states (isin names regions).

(** The frame [plot_df] the bar chart is drawn from. *)
Definition population_widget (regions : list string) (top_n : Z)
  : result DataFrame :=
  filtered_df ← filtered_df regions;
  nlargest filtered_df top_n "change_2010_2019".

Definition avg_growth (regions : list string) : result string :=
  filtered_df ← filtered_df regions;
  growth ← Pandas.getitem_col filtered_df "change_2010_2019";
  avg ← mean growth;
  text ← Pandas.format_1f avg;
  Ok (text +:+ "%").

End Handlers.

End App2.

(* ===================================================================== *)
(** ** Row-wise readings of the vectorised expressions *)
(* ===================================================================== *)

Module Rowwise.

Import AgeApp.

(** [df["entities"].isin(median_regions)] at one row *)
Definition in_median_regions (r : gmap string value) : bool :=
  match cell r "entities" with
  | VStr n => bool_decide (n ∈ median_regions)
  | _ => false
  end.

(** [np.where(est.notna(), est, med)] at one row *)
Definition combined (r : gmap string value) : value :=
  if negb (is_nan (cell r estimates_column)) then cell r estimates_column
  else cell r medium_column.

Definition with_combined (r : gmap string value) : gmap string value :=
  <["median_age_combined" := combined r]> r.

(** [df["years"] == y] at one row *)
Definition in_year (y : Z) (r : gmap string value) : bool :=
  value_eqb (cell r "years") (VNum (inject_Z y)).

(** [(df['entities'] == e) & (df['years'] == y)] at one row *)
Definition selected (e : string) (y : Z) (r : gmap string value) : bool :=
  value_eqb (cell r "entities") (VStr e) && in_year y r.

(** The frame [df[(df['entities'] == entity) & (df['years'] == year)]]. *)
Definition selection (i : Input) (df : DataFrame) : DataFrame :=
  mkDataFrame (columns df)
              (List.filter (selected (entity i) (year i)) (rows df)).

(** The frame [median_df[...isin(median_regions)]]. *)
Definition regions_frame (df : DataFrame) : DataFrame :=
  mkDataFrame (columns df) (List.filter in_median_regions (rows df)).

(** The same rows with the column [median_age_combined] assigned. *)
Definition combined_frame (df : DataFrame) : DataFrame :=
  mkDataFrame
    (if bool_decide ("median_age_combined" ∈ columns df) then columns df
     else columns df ++ ["median_age_combined"])
    (with_combined <$> List.filter in_median_regions (rows df)).

Definition year_frame (y : Z) (df : DataFrame) : DataFrame :=
  mkDataFrame (columns (combined_frame df))
              (List.filter (in_year y) (rows (combined_frame df))).

(** [x / 1_000_000], [-(x / 1_000_000)] and [-x / 1_000_000] on a cell
    that is not text *)
Definition millions (v : value) : value :=
  match v with
  | VNum q => VNum (q / 1000000)%Q
  | _ => NaN
  end.

Definition negated_millions (v : value) : value :=
  match v with
  | VNum q => VNum (- (q / 1000000))%Q
  | _ => NaN
  end.

Definition millions_of_negated (v : value) : value :=
  match v with
  | VNum q => VNum (- q / 1000000)%Q
  | _ => NaN
  end.

(** The character [c] does not occur in [s]. *)
Fixpoint free_of (c : ascii) (s : string) : bool :=
  match s with
  | EmptyString => true
  | String d s' => negb (Ascii.eqb d c) && free_of c s'
  end.

(** [df_states['REGION_NAME'].isin(regions)] at one row (pva/app_2.py) *)
Definition in_regions (regions : list string) (r : gmap string value)
  : bool :=
  match cell r "REGION_NAME" with
  | VStr n => bool_decide (n ∈ regions)
  | _ => false
  end.

End Rowwise.

(* ===================================================================== *)
(** ** Consecutive runs of the animation effects *)
(* ===================================================================== *)

Module Animation.

Import AgeApp.

(** [n] runs of [_animate_age_distribution], each reading the year the
    run before passed to [update_slider]: the runs of a page that has
    answered every update before the next run (see [Page]). *)
Fixpoint age_distribution_ticks (g : Globals) (n : nat) (s : Session)
  : result Session :=
  match n with
  | O => Ok s
  | S n' =>
      '(s', _) ← _animate_age_distribution g s;
      age_distribution_ticks g n' s'
  end.

(** [n] runs of [_animate_median_age], read in the same way. *)
Fixpoint median_age_ticks (n : nat) (s : Session) : Session :=
  match n with
  | O => s
  | S n' => median_age_ticks n' (_animate_median_age s).1
  end.

(** The state a loop started at 1950 with bound 2023 comes to rest in. *)
Definition stopped_at_2023 (s : Session) : Session :=
  set_play_age_distribution_label "Play"
    (set_animating_age_distribution false (set_year 2023 s)).

End Animation.


(* ===================================================================== *)
(** ** Recomputations of a session, and what they may touch *)
(* ===================================================================== *)

Module Reactive.

Import AgeApp.

(** A computation is safe for the set [G] of references when, run in any
    store where [G] is live, it leaves the objects of [G] as they are;
    [Q] holds of the value it returns. *)
Definition safe {A : Type} (G : gset nat) (m : M A) (Q : A → Prop) : Prop :=
  ∀ h : gmap nat DataFrame,
    G ⊆ dom h →
    (∀ p, p ∈ G → (m h).2 !! p = h !! p)
    ∧ (∀ a, (m h).1 = Ok a → Q a).

(** What the two [@reactive.calc] objects remember: the value of their
    last run, until an input they read changes. *)
Record Cache : Type := mkCache {
  population_data : option (ref * ref);
  median_data : option (ref * bool);
}.

Definition no_cache : Cache := mkCache None None.

(** No remembered frame is one of [G]. *)
Definition outside (G : gset nat) (c : Cache) : Prop :=
  (∀ d, population_data c = Some d → (fst d ∉ G) ∧ (snd d ∉ G))
  ∧ (∀ d, median_data c = Some d → fst d ∉ G).

(** Calling a calculation: its remembered value, or a run. *)
Definition read {A : Type} (slot : option A) (calc : M A) : M A :=
  match slot with
  | Some a => mret a
  | None => calc
  end.

(** One step of the reactive graph: an input changes and a calculation
    forgets its value, or a calculation or a render of either dashboard is
    run for the inputs of the moment. *)
Inductive Recompute : Type :=
| InvalidatePopulationData
| InvalidateMedianData
| PopulationData (i : Input)
| MedianData (i : Input)
| AgeDistributionPlot (i : Input)
| MedianAgePlot (i : Input)
| AgeDistributionRender (i : Input)
| MedianAgeRender (i : Input).

Section Session.

Variable get_xticks : list value → list value → list Q.
Variable g : Globals.

(** A step over a calculation: the calculation is called, its value is
    remembered, and the rest of the handler runs on it. *)
Definition over {A F : Type} (slot : option A) (calc : M A)
           (body : A → M F) (h : gmap nat DataFrame)
  : gmap nat DataFrame * option A :=
  let '(r, h1) := read slot calc h in
  match r with
  | Ok a => ((body a h1).2, Some a)
  | Raise _ => (h1, slot)
  end.

Definition over_population {F : Type} (body : ref * ref → M F) (i : Input)
           (st : gmap nat DataFrame * Cache) : gmap nat DataFrame * Cache :=
  let '(h', v) := over (population_data st.2) (get_population_data g i)
                       body st.1 in
  (h', mkCache v (median_data st.2)).

Definition over_median {F : Type} (body : ref * bool → M F) (i : Input)
           (st : gmap nat DataFrame * Cache) : gmap nat DataFrame * Cache :=
  let '(h', v) := over (median_data st.2) (get_median_data g i)
                       body st.1 in
  (h', mkCache (population_data st.2) v).

(** The store and the cache a step leaves behind. *)
Definition recompute (st : gmap nat DataFrame * Cache) (e : Recompute)
  : gmap nat DataFrame * Cache :=
  match e with
  | InvalidatePopulationData => (st.1, mkCache None (median_data st.2))
  | InvalidateMedianData => (st.1, mkCache (population_data st.2) None)
  | PopulationData i => over_population (λ _, mret tt) i st
  | MedianData i => over_median (λ _, mret tt) i st
  | AgeDistributionPlot i =>
      over_population
        (λ data, age_distribution_plot_body get_xticks data g i) i st
  | MedianAgePlot i => over_median (λ data, median_age_plot_body data i) i st
  | AgeDistributionRender i =>
      over_population
        (λ data, AgeAppShiny.age_distribution_render_body data g i) i st
  | MedianAgeRender i =>
      over_median (λ data, AgeAppShiny.median_age_render_body data i) i st
  end.

Definition recompute_all (es : list Recompute)
           (st : gmap nat DataFrame * Cache) : gmap nat DataFrame * Cache :=
  fold_left recompute es st.

End Session.

End Reactive.

(* ===================================================================== *)
(** ** Small tables for running the handlers *)
(* ===================================================================== *)

Module Sample.

Import AgeApp.

Definition median_row (e : string) (y : Z) (est med : value)
  : gmap string value :=
  list_to_map [("entities", VStr e); ("years", VNum (inject_Z y));
               (estimates_column, est); (medium_column, med)].

Definition median_table : DataFrame :=
  mkDataFrame
    ["entities"; "years"; estimates_column; medium_column]
    [median_row "Asia (UN)" 2023 (VNum (315 # 10)) NaN;
     median_row "World" 2024 NaN (VNum (309 # 10));
     median_row "Asia (UN)" 2024 NaN (VNum (321 # 10));
     median_row "Europe (UN)" 2024 (VNum (424 # 10)) (VNum (425 # 10));
     median_row "Africa (UN)" 2023 (VNum 19) NaN].

Definition population_row (sex e : string) (y : Z) (a b c : Q)
  : gmap string value :=
  list_to_map
    [("entities", VStr e); ("years", VNum (inject_Z y));
     ("population__sex_" +:+ sex +:+ "__age_0_4__variant_estimates", VNum a);
     ("population__sex_" +:+ sex +:+ "__age_5_9__variant_estimates", VNum b);
     ("population__sex_" +:+ sex +:+ "__age_100plus__variant_estimates",
      VNum c)].

Definition population_columns (sex : string) : list string :=
  ["entities"; "years";
   "population__sex_" +:+ sex +:+ "__age_100plus__variant_estimates";
   "population__sex_" +:+ sex +:+ "__age_0_4__variant_estimates";
   "population__sex_" +:+ sex +:+ "__age_5_9__variant_estimates"].

Definition male_table : DataFrame :=
  mkDataFrame (population_columns "male")
    [population_row "male" "World" 1950 172500000 140000000 2000;
     population_row "male" "World" 1951 175000000 141500000 2100;
     population_row "male" "Malta" 1950 17500 16000 0].

Definition female_table : DataFrame :=
  mkDataFrame (population_columns "female")
    [population_row "female" "World" 1950 165000000 135000000 9000;
     population_row "female" "World" 1951 167000000 136500000 9500;
     population_row "female" "Malta" 1950 16500 15500 1].

(** The store after loading, and the names bound to it. *)
Definition store : gmap nat DataFrame :=
  <[2%nat := median_table]>
    (<[1%nat := female_table]> (<[0%nat := male_table]> ∅)).

Definition globals : Globals :=
  mkGlobals 0%nat 1%nat 2%nat ["100plus"; "0_4"; "5_9"] [1950; 1951].

(** A session that is playing both animations from 1950, and the names
    of an application whose population data runs from 1950 to 2023. *)
Definition session : Session :=
  mkSession (mkInput "World" 1950 1950) true true "Pause" "Pause".

Definition years_1950_2023 : list Z :=
  (λ k : nat, 1950 + Z.of_nat k) <$> seq 0 74.

Definition globals_2023 : Globals :=
  mkGlobals 0%nat 1%nat 2%nat ["100plus"; "0_4"; "5_9"] years_1950_2023.

Definition states_row (name region : string) (change : value)
  : gmap string value :=
  list_to_map [("NAME", VStr name); ("REGION_NAME", VStr region);
               ("change_2010_2019", change)].

Definition states_table : DataFrame :=
  mkDataFrame ["NAME"; "REGION_NAME"; "change_2010_2019"]
    [states_row "Maine" "Northeast" (VNum (12 # 10));
     states_row "Texas" "South" (VNum (153 # 10));
     states_row "Utah" "West" (VNum (160 # 10));
     states_row "Ohio" "Midwest" (VNum (13 # 10));
     states_row "Florida" "South" (VNum (142 # 10));
     states_row "Illinois" "Midwest" (VNum (- 12 # 10))].

End Sample.

(* ===================================================================== *)
(** ** The events of a session of age_app.py *)
(* ===================================================================== *)

Module Ui.

Import AgeApp.

(** The session as the page first shows it: entity World, both sliders
    at 1950, both reactive values False, both buttons labelled Play. *)
Definition initial : Session :=
  mkSession (mkInput "World" 1950 1950) false false "Play" "Play".

(** What can happen: the user picks an entity or moves a slider, clicks
    one of the three buttons, or an animation effect is run. *)
Inductive Event : Type :=
| SelectEntity (e : string)
| SlideYear (y : Z)
| SlideMedianYear (y : Z)
| ClickReset
| ClickPlayAgeDistribution
| ClickPlayMedianAge
| RunAnimateAgeDistribution
| RunAnimateMedianAge.

Definition handle (g : Globals) (s : Session) (e : Event) : result Session :=
  match e with
  | SelectEntity e => Ok (set_entity e s)
  | SlideYear y => Ok (set_year y s)
  | SlideMedianYear y => Ok (set_median_year y s)
  | ClickReset => Ok (reset s)
  | ClickPlayAgeDistribution => Ok (toggle_age_distribution s)
  | ClickPlayMedianAge => Ok (toggle_median_age s)
  | RunAnimateAgeDistribution =>
      '(s', _) ← _animate_age_distribution g s; Ok s'
  | RunAnimateMedianAge => Ok (_animate_median_age s).1
  end.

Fixpoint handle_all (g : Globals) (es : list Event) (s : Session)
  : result Session :=
  match es with
  | [] => Ok s
  | e :: es' => s' ← handle g s e; handle_all g es' s'
  end.

Definition is_animation_run (e : Event) : Prop :=
  e = RunAnimateAgeDistribution ∨ e = RunAnimateMedianAge.

(** Each button reads Pause while its loop is playing and Play while it
    is not. *)
Definition labels_match (s : Session) : Prop :=
  play_age_distribution_label s
  = (if animating_age_distribution s then "Pause" else "Play")
  ∧ play_median_age_label s
    = (if animating_median_age s then "Pause" else "Play").

(** The state the age loop comes to rest in at position [y]. *)
Definition stopped_at (y : Z) (s : Session) : Session :=
  set_play_age_distribution_label "Play"
    (set_animating_age_distribution false (set_year y s)).

Definition median_stopped_at (y : Z) (s : Session) : Session :=
  set_play_median_age_label "Play"
    (set_animating_median_age false (set_median_year y s)).

End Ui.

(* ===================================================================== *)
(** ** The sliders between the server and the page *)
(* ===================================================================== *)

Module Page.

Import AgeApp.

(** [ui.update_slider] sends a value to the page, and [input.year()] and
    [input.median_year()] keep their value until the page answers.  A
    state holds the session as the server sees it and, for each of the two
    sliders, the values sent and not yet answered, oldest first. *)
Record State : Type := mkState {
  server : Session;
  year_sent : list Z;
  median_year_sent : list Z;
}.

(** What can happen next: an effect runs (its timer fired or an input
    it read changed), or the page answers the oldest update of a
    slider. *)
Inductive Step : Type :=
| RunAge
| AnswerYear
| RunMedian
| AnswerMedianYear.

(** A run of [_animate_age_distribution] on the server's view.  The value
    it passes to [update_slider] is queued; what it assigns to the
    reactive value and to the button takes effect at once. *)
Definition run_age (g : Globals) (p : State) : result State :=
  let s := server p in
  '(s', _) ← _animate_age_distribution g s;
  Ok (mkState (set_year (year (input s)) s')
              (if bool_decide (year (input s') = year (input s))
               then year_sent p
               else year_sent p ++ [year (input s')])
              (median_year_sent p)).

Definition answer_year (p : State) : State :=
  match year_sent p with
  | [] => p
  | y :: rest => mkState (set_year y (server p)) rest (median_year_sent p)
  end.

Definition run_median (p : State) : State :=
  let s := server p in
  let s' := (_animate_median_age s).1 in
  mkState (set_median_year (median_year (input s)) s')
          (year_sent p)
          (if bool_decide (median_year (input s') = median_year (input s))
           then median_year_sent p
           else median_year_sent p ++ [median_year (input s')]).

Definition answer_median_year (p : State) : State :=
  match median_year_sent p with
  | [] => p
  | y :: rest => mkState (set_median_year y (server p)) (year_sent p) rest
  end.

Definition step (g : Globals) (st : Step) (p : State) : result State :=
  match st with
  | RunAge => run_age g p
  | AnswerYear => Ok (answer_year p)
  | RunMedian => Ok (run_median p)
  | AnswerMedianYear => Ok (answer_median_year p)
  end.

Fixpoint steps (g : Globals) (l : list Step) (p : State) : result State :=
  match l with
  | [] => Ok p
  | st :: l' => p' ← step g st p; steps g l' p'
  end.

(** The number of runs of each effect in a list of steps. *)
Fixpoint age_runs (l : list Step) : nat :=
  match l with
  | [] => O
  | RunAge :: l' => S (age_runs l')
  | _ :: l' => age_runs l'
  end.

Fixpoint median_runs (l : list Step) : nat :=
  match l with
  | [] => O
  | RunMedian :: l' => S (median_runs l')
  | _ :: l' => median_runs l'
  end.

(** [n] runs of an effect with a page that answers every update before
    the next run. *)
Fixpoint prompt_age (n : nat) : list Step :=
  match n with
  | O => []
  | S n' => RunAge :: AnswerYear :: prompt_age n'
  end.

Fixpoint prompt_median (n : nat) : list Step :=
  match n with
  | O => []
  | S n' => RunMedian :: AnswerMedianYear :: prompt_median n'
  end.

(** A session with nothing on its way to the page. *)
Definition start (s : Session) : State := mkState s [] [].

End Page.

(* ===================================================================== *)
(** ** Computations that only read the store *)
(* ===================================================================== *)

Module Effects.

(** Whatever it returns, the computation hands the store back as it got
    it: nothing allocated, nothing assigned. *)
Definition reads_only {A : Type} (m : M A) : Prop :=
  ∀ h : gmap nat DataFrame, (m h).2 = h.

End Effects.

(* ===================================================================== *)
(** ** The age groups read off the column labels at load time *)
(* ===================================================================== *)

Module PyStr.

(** [s.startswith(sub)] *)
Fixpoint startswith (sub s : string) : bool :=
  match sub, s with
  | EmptyString, _ => true
  | String _ _, EmptyString => false
  | String a sub', String b s' => Ascii.eqb a b && startswith sub' s'
  end.

(** [sub in s] *)
Fixpoint contains (sub s : string) : bool :=
  startswith sub s
  || match s with
     | EmptyString => false
     | String _ s' => contains sub s'
     end.

(** [s.split(sep)] for a separator that is not empty: the pieces between
    the occurrences of [sep], which are found from the left and do not
    overlap.  [skip] counts the characters of a found separator that are
    still to be passed over. *)
Fixpoint split_skip (sep : string) (skip : nat) (s : string)
  : list string :=
  match s with
  | EmptyString => [EmptyString]
  | String c s' =>
      match skip with
      | S k => split_skip sep k s'
      | O =>
          if startswith sep s
          then EmptyString :: split_skip sep (String.length sep - 1) s'
          else match split_skip sep 0 s' with
               | [] => [String c EmptyString]
               | w :: ws => String c w :: ws
               end
      end
  end.

Definition split_str (sep s : string) : list string := split_skip sep 0 s.

End PyStr.

Module AgeAppLoad.

Import PyStr.

(** [col.split('__age_')[1].split('__variant')[0]] *)
Definition age_group_of (col : string) : result string :=
  after ← Py.getitem (split_str "__age_" col) 1;
  Py.getitem (split_str "__variant" after) 0.

Definition extract_age_groups (df : DataFrame) (sex : string)
  : result (list string) :=
  let age_columns :=
    List.filter (contains ("__sex_" +:+ sex +:+ "__age_")) (columns df) in
  Py.traverse age_group_of age_columns.

End AgeAppLoad.

(* ===================================================================== *)
(** * Properties *)
(* ===================================================================== *)

Import AgeApp.

Local Open Scope Z_scope.

(** ** Masks and row selection *)

Section MaskLemmas.

Context {A : Type}.
Implicit Types (l : list A) (P R : A → bool).

Lemma select_fmap P l : select (P <$> l) l = List.filter P l.
Proof.
  induction l as [|x l IH]; csimpl; [done|].
  rewrite IH. by destruct (P x).
Qed.

Lemma mask_and_fmap P R l :
  mask_and (P <$> l) (R <$> l) = (λ x, P x && R x) <$> l.
Proof.
  unfold mask_and. induction l as [|x l IH]; csimpl; [done|]. by rewrite IH.
Qed.

End MaskLemmas.

Lemma np_where_fmap {A : Type} (c : A → bool) (a b : A → value) (l : list A) :
  np_where (c <$> l) (a <$> l) (b <$> l)
  = (λ x, if c x then a x else b x) <$> l.
Proof. induction l as [|x l IH]; csimpl; [done|]. by rewrite IH. Qed.

Lemma zip_with_fmap_r {A B C : Type} (f : A → B → C) (g : A → B) (l : list A) :
  zip_with f l (g <$> l) = (λ x, f x (g x)) <$> l.
Proof. induction l as [|x l IH]; csimpl; [done|]. by rewrite IH. Qed.

(** The rows a mask built from a row predicate keeps. *)
Lemma getitem_mask_fmap (df : DataFrame) (P : gmap string value → bool) :
  Pandas.getitem_mask df (P <$> rows df)
  = Ok (mkDataFrame (columns df) (List.filter P (rows df))).
Proof.
  unfold Pandas.getitem_mask. rewrite length_fmap, bool_decide_eq_true_2 by done.
  by rewrite select_fmap.
Qed.

Lemma getitem_col_ok (df : DataFrame) (col : string) :
  col ∈ columns df →
  Pandas.getitem_col df col = Ok ((λ r, cell r col) <$> rows df).
Proof. intros H. unfold Pandas.getitem_col. by rewrite bool_decide_eq_true_2. Qed.

Lemma getitem_col_missing (df : DataFrame) (col : string) :
  col ∉ columns df → Pandas.getitem_col df col = Raise (KeyError col).
Proof. intros H. unfold Pandas.getitem_col. by rewrite bool_decide_eq_false_2. Qed.

(** ** Running store computations *)

Lemma bind_run {A B : Type} (m : M A) (f : A → M B) h a h1 :
  m h = (Ok a, h1) → (m ≫= f) h = f a h1.
Proof. intros H. unfold mbind, M_bind. by rewrite H. Qed.

Lemma load_run h p df : h !! p = Some df → load p h = (Ok df, h).
Proof. intros H. unfold load. by rewrite H. Qed.

Lemma getitem_col_run h p df col :
  h !! p = Some df → col ∈ columns df →
  DF.getitem_col p col h = (Ok ((λ r, cell r col) <$> rows df), h).
Proof.
  intros Hp Hc. unfold DF.getitem_col.
  rewrite (bind_run _ _ _ _ _ (load_run _ _ _ Hp)).
  unfold lift. by rewrite getitem_col_ok.
Qed.

Lemma getitem_mask_run h p df (P : gmap string value → bool) :
  h !! p = Some df →
  DF.getitem_mask p (P <$> rows df) h
  = (Ok (fresh (dom h)),
     <[fresh (dom h) := mkDataFrame (columns df) (List.filter P (rows df))]> h).
Proof.
  intros Hp. unfold DF.getitem_mask.
  rewrite (bind_run _ _ _ _ _ (load_run _ _ _ Hp)).
  erewrite bind_run; [|unfold lift; by rewrite getitem_mask_fmap].
  done.
Qed.

Lemma copy_run h p df :
  h !! p = Some df →
  DF.copy p h = (Ok (fresh (dom h)), <[fresh (dom h) := df]> h).
Proof.
  intros Hp. unfold DF.copy.
  by rewrite (bind_run _ _ _ _ _ (load_run _ _ _ Hp)).
Qed.

Lemma setitem_run h p df col (f : gmap string value → value) :
  h !! p = Some df →
  DF.setitem p col (f <$> rows df) h
  = (Ok tt,
     <[p := mkDataFrame
              (if bool_decide (col ∈ columns df) then columns df
               else columns df ++ [col])
              ((λ r, <[col := f r]> r) <$> rows df)]> h).
Proof.
  intros Hp. unfold DF.setitem.
  rewrite (bind_run _ _ _ _ _ (load_run _ _ _ Hp)).
  erewrite bind_run; [done|].
  unfold lift, Pandas.setitem.
  by rewrite length_fmap, bool_decide_eq_true_2, zip_with_fmap_r.
Qed.

Lemma empty_run h p df :
  h !! p = Some df → DF.empty p h = (Ok (Pandas.empty df), h).
Proof.
  intros Hp. unfold DF.empty.
  by rewrite (bind_run _ _ _ _ _ (load_run _ _ _ Hp)).
Qed.

(** ** The median-age calculation, step by step *)

Import Rowwise.

Lemma isin_cells (l : list (gmap string value)) col names :
  isin ((λ r, cell r col) <$> l) names
  = (λ r, match cell r col with
          | VStr n => bool_decide (n ∈ names)
          | _ => false
          end) <$> l.
Proof. unfold isin. by rewrite <- list_fmap_compose. Qed.

Lemma series_eq_cells (l : list (gmap string value)) col v :
  series_eq ((λ r, cell r col) <$> l) v
  = (λ r, value_eqb (cell r col) v) <$> l.
Proof. unfold series_eq. by rewrite <- list_fmap_compose. Qed.

Lemma notna_cells (l : list (gmap string value)) col :
  notna ((λ r, cell r col) <$> l)
  = (λ r, negb (is_nan (cell r col))) <$> l.
Proof. unfold notna. by rewrite <- list_fmap_compose. Qed.

Section MedianRun.

Variables (g : Globals) (h : gmap nat DataFrame) (df : DataFrame).
Hypothesis Hdf : h !! median_df g = Some df.
Hypothesis Hent : "entities" ∈ columns df.
Hypothesis Hest : estimates_column ∈ columns df.
Hypothesis Hmed : medium_column ∈ columns df.

Let p1 : ref := fresh (dom h).
Let h1 : gmap nat DataFrame := <[p1 := regions_frame df]> h.
Let p2 : ref := fresh (dom h1).

Lemma median_filtered_df_run :
  median_filtered_df g h
  = (Ok p2, <[p2 := combined_frame df]> h1).
Proof.
  unfold median_filtered_df.
  rewrite (bind_run _ _ _ _ _ (getitem_col_run _ _ _ _ Hdf Hent)).
  rewrite isin_cells.
  rewrite (bind_run _ _ _ _ _ (getitem_mask_run _ _ _ _ Hdf)).
  fold p1. change (mkDataFrame _ _) with (regions_frame df). fold h1.
  assert (H1 : h1 !! p1 = Some (regions_frame df))
    by apply lookup_insert_eq.
  rewrite (bind_run _ _ _ _ _ (copy_run _ _ _ H1)). fold p2.
  set (h2 := <[p2 := regions_frame df]> h1).
  assert (H2 : h2 !! p2 = Some (regions_frame df))
    by apply lookup_insert_eq.
  rewrite (bind_run _ _ _ _ _ (getitem_col_run _ _ _ _ H2 Hest)).
  rewrite (bind_run _ _ _ _ _ (getitem_col_run _ _ _ _ H2 Hest)).
  rewrite (bind_run _ _ _ _ _ (getitem_col_run _ _ _ _ H2 Hmed)).
  rewrite notna_cells, np_where_fmap.
  erewrite bind_run; [|by apply setitem_run].
  unfold h2. rewrite insert_insert_eq. reflexivity.
Qed.

Hypothesis Hyr : "years" ∈ columns df.

Let h3 : gmap nat DataFrame := <[p2 := combined_frame df]> h1.
Let p3 : ref := fresh (dom h3).

Lemma years_in_combined_frame : "years" ∈ columns (combined_frame df).
Proof.
  unfold combined_frame; simpl. case_bool_decide; [done|].
  apply elem_of_app; by left.
Qed.

Lemma get_median_data_run (i : Input) :
  get_median_data g i h
  = (Ok (p3, bool_decide (median_year i > 2023)),
     <[p3 := year_frame (median_year i) df]> h3).
Proof.
  unfold get_median_data.
  rewrite (bind_run _ _ _ _ _ median_filtered_df_run). fold h3.
  assert (H3 : h3 !! p2 = Some (combined_frame df))
    by apply lookup_insert_eq.
  rewrite (bind_run _ _ _ _ _
             (getitem_col_run _ _ _ _ H3 years_in_combined_frame)).
  rewrite series_eq_cells.
  rewrite (bind_run _ _ _ _ _ (getitem_mask_run _ _ _ _ H3)).
  reflexivity.
Qed.

End MedianRun.

(** ** The combined median-age column *)

Lemma cell_with_combined_other r col :
  col ≠ "median_age_combined" → cell (with_combined r) col = cell r col.
Proof.
  intros Hne. unfold cell, with_combined. by rewrite lookup_insert_ne.
Qed.

Lemma cell_with_combined r :
  cell (with_combined r) "median_age_combined" = combined r.
Proof. unfold cell, with_combined. by rewrite lookup_insert_eq. Qed.

Lemma combined_first_non_missing r :
  combined r = match cell r estimates_column with
               | NaN => cell r medium_column
               | v => v
               end.
Proof. unfold combined. by destruct (cell r estimates_column). Qed.

(** C1.  On a median table that has the four columns the calculation
    reads, [get_median_data] returns a frame whose rows are the rows of the
    table for the four regions and the selected year, each with the column
    [median_age_combined] set to the estimates value when that is not NaN
    and to the medium-variant value otherwise.  The new cell is a function
    of those two cells of the row alone. *)
Theorem median_age_combined_prefers_estimate
        (g : Globals) (i : Input) (h : gmap nat DataFrame) (df : DataFrame) :
  h !! median_df g = Some df →
  "entities" ∈ columns df →
  estimates_column ∈ columns df →
  medium_column ∈ columns df →
  "years" ∈ columns df →
  ∃ year_data flag h' yd,
    get_median_data g i h = (Ok (year_data, flag), h')
    ∧ h' !! year_data = Some yd
    ∧ rows yd
      = List.filter (in_year (median_year i))
          (with_combined <$> List.filter in_median_regions (rows df))
    ∧ (∀ r, r ∈ rows yd →
         cell r "median_age_combined"
         = match cell r estimates_column with
           | NaN => cell r medium_column
           | v => v
           end)
    ∧ (∀ r r' : gmap string value,
         cell r estimates_column = cell r' estimates_column →
         cell r medium_column = cell r' medium_column →
         cell (with_combined r) "median_age_combined"
         = cell (with_combined r') "median_age_combined").
Proof.
  intros Hdf Hent Hest Hmed Hyr.
  eexists _, _, _, _. split; [by apply get_median_data_run|].
  split; [apply lookup_insert_eq|]. split; [reflexivity|]. split.
  - intros r Hr. simpl in Hr.
    apply list_elem_of_In, filter_In in Hr as [Hr _].
    apply list_elem_of_In, list_elem_of_fmap in Hr as (r0 & -> & _).
    rewrite cell_with_combined, !cell_with_combined_other by done.
    apply combined_first_non_missing.
  - intros r r' He Hm. rewrite !cell_with_combined.
    unfold combined. by rewrite He, Hm.
Qed.

Lemma median_age_combined_prefers_estimate_witness :
  ∃ year_data flag h' yd,
    get_median_data Sample.globals (mkInput "World" 1950 2024) Sample.store
    = (Ok (year_data, flag), h')
    ∧ h' !! year_data = Some yd
    ∧ (λ r, cell r "median_age_combined") <$> rows yd
      = [VNum (321 # 10); VNum (424 # 10)].
Proof.
  destruct (median_age_combined_prefers_estimate
              Sample.globals (mkInput "World" 1950 2024)
              Sample.store Sample.median_table)
    as (p & flag & h' & yd & Hrun & Hyd & Hrows & _);
    [reflexivity | set_solver | set_solver | set_solver | set_solver |].
  exists p, flag, h', yd. split; [exact Hrun|]. split; [exact Hyd|].
  rewrite Hrows. vm_compute. reflexivity.
Defined.

(** ** The population filter and the empty pyramid *)

Lemma fresh_ne (h : gmap nat DataFrame) (p : ref) df :
  h !! p = Some df → fresh (dom h) ≠ p.
Proof.
  intros Hp Heq. subst p. apply (is_fresh (dom h)).
  apply elem_of_dom. eauto.
Qed.

Lemma lookup_insert_fresh (h : gmap nat DataFrame) (p : ref) df new :
  h !! p = Some df → <[fresh (dom h) := new]> h !! p = Some df.
Proof.
  intros Hp. rewrite lookup_insert_ne; [done|]. by eapply fresh_ne.
Qed.

Lemma selected_cells e y (r : gmap string value) :
  selected e y r = true
  ↔ cell r "entities" = VStr e
    ∧ ∃ q, cell r "years" = VNum q ∧ (q == inject_Z y)%Q.
Proof.
  unfold selected, in_year, value_eqb. rewrite andb_true_iff. split.
  - intros [He Hy]. split.
    + destruct (cell r "entities"); try done.
      apply bool_decide_eq_true in He. by subst.
    + destruct (cell r "years") as [|q|]; try done.
      exists q. split; [done|]. by apply Qeq_bool_iff.
  - intros [-> (q & -> & Hq)]. split; [by apply bool_decide_eq_true|].
    by apply Qeq_bool_iff.
Qed.

Lemma filter_none {A : Type} (P : A → bool) (l : list A) :
  (∀ x, x ∈ l → P x = false) → List.filter P l = [].
Proof.
  induction l as [|x l IH]; intros H; simpl; [done|].
  rewrite (H x) by apply list_elem_of_here.
  apply IH. intros y Hy. apply H. by apply list_elem_of_further.
Qed.

Section PopulationRun.

Variables (g : Globals) (i : Input) (h : gmap nat DataFrame).
Variables (male female : DataFrame).
Hypothesis Hmale : h !! male_popl_by_age_df g = Some male.
Hypothesis Hfemale : h !! female_popl_by_age_df g = Some female.
Hypothesis Hment : "entities" ∈ columns male.
Hypothesis Hmyr : "years" ∈ columns male.
Hypothesis Hfent : "entities" ∈ columns female.
Hypothesis Hfyr : "years" ∈ columns female.

Let pm : ref := fresh (dom h).
Let h1 : gmap nat DataFrame := <[pm := selection i male]> h.
Let pf : ref := fresh (dom h1).
Let h2 : gmap nat DataFrame := <[pf := selection i female]> h1.

Lemma get_population_data_run :
  get_population_data g i h = (Ok (pm, pf), h2).
Proof.
  unfold get_population_data.
  rewrite (bind_run _ _ _ _ _ (getitem_col_run _ _ _ _ Hmale Hment)).
  rewrite (bind_run _ _ _ _ _ (getitem_col_run _ _ _ _ Hmale Hmyr)).
  rewrite !series_eq_cells, mask_and_fmap.
  rewrite (bind_run _ _ _ _ _ (getitem_mask_run _ _ _ _ Hmale)).
  fold pm. change (mkDataFrame _ _) with (selection i male). fold h1.
  assert (Hf1 : h1 !! female_popl_by_age_df g = Some female)
    by (by apply lookup_insert_fresh).
  rewrite (bind_run _ _ _ _ _ (getitem_col_run _ _ _ _ Hf1 Hfent)).
  rewrite (bind_run _ _ _ _ _ (getitem_col_run _ _ _ _ Hf1 Hfyr)).
  rewrite !series_eq_cells, mask_and_fmap.
  rewrite (bind_run _ _ _ _ _ (getitem_mask_run _ _ _ _ Hf1)).
  reflexivity.
Qed.

Lemma male_data_stored : h2 !! pm = Some (selection i male).
Proof.
  unfold h2, pf. apply lookup_insert_fresh. apply lookup_insert_eq.
Qed.

Lemma female_data_stored : h2 !! pf = Some (selection i female).
Proof. apply lookup_insert_eq. Qed.

Lemma selection_empty (df : DataFrame) :
  "entities" ∈ columns df →
  Pandas.empty (selection i df)
  = bool_decide (rows (selection i df) = []).
Proof.
  intros Hc. unfold Pandas.empty. simpl.
  destruct (columns df) as [|c cs]; [by apply elem_of_nil in Hc|].
  by destruct (List.filter _ _).
Qed.

Variable get_xticks : list value → list value → list Q.

Lemma age_distribution_plot_no_data :
  rows (selection i male) = [] ∨ rows (selection i female) = [] →
  age_distribution_plot get_xticks g i h
  = (Ok (TextFigure no_population_data), h2).
Proof.
  intros Hnone. unfold age_distribution_plot.
  rewrite (bind_run _ _ _ _ _ get_population_data_run).
  unfold age_distribution_plot_body.
  rewrite (bind_run _ _ _ _ _ (empty_run _ _ _ male_data_stored)).
  rewrite (selection_empty _ Hment).
  case_bool_decide as Hm; [done|].
  destruct Hnone as [?|Hf]; [done|].
  rewrite (bind_run _ _ _ _ _ (empty_run _ _ _ female_data_stored)).
  by rewrite (selection_empty _ Hfent), bool_decide_eq_true_2.
Qed.

Lemma age_distribution_render_no_data :
  rows (selection i male) = [] ∨ rows (selection i female) = [] →
  AgeAppShiny.age_distribution_render g i h
  = (Ok (AgeAppShiny.AnnotationFigure no_population_data), h2).
Proof.
  intros Hnone. unfold AgeAppShiny.age_distribution_render.
  unfold AgeAppShiny.get_population_data.
  rewrite (bind_run _ _ _ _ _ get_population_data_run).
  unfold AgeAppShiny.age_distribution_render_body.
  rewrite (bind_run _ _ _ _ _ (empty_run _ _ _ male_data_stored)).
  rewrite (selection_empty _ Hment).
  case_bool_decide as Hm; [done|].
  destruct Hnone as [?|Hf]; [done|].
  rewrite (bind_run _ _ _ _ _ (empty_run _ _ _ female_data_stored)).
  by rewrite (selection_empty _ Hfent), bool_decide_eq_true_2.
Qed.

Lemma age_distribution_plot_data :
  rows (selection i male) ≠ [] → rows (selection i female) ≠ [] →
  age_distribution_plot get_xticks g i h
  = (pyramid_figure get_xticks (selection i male) (selection i female)
                    (male_age_groups g) i, h2).
Proof.
  intros Hm Hf. unfold age_distribution_plot.
  rewrite (bind_run _ _ _ _ _ get_population_data_run).
  unfold age_distribution_plot_body.
  rewrite (bind_run _ _ _ _ _ (empty_run _ _ _ male_data_stored)).
  rewrite (selection_empty _ Hment), bool_decide_eq_false_2 by done.
  rewrite (bind_run _ _ _ _ _ (empty_run _ _ _ female_data_stored)).
  rewrite (selection_empty _ Hfent), bool_decide_eq_false_2 by done.
  rewrite (bind_run _ _ _ _ _ (load_run _ _ _ male_data_stored)).
  by rewrite (bind_run _ _ _ _ _ (load_run _ _ _ female_data_stored)).
Qed.

Lemma age_distribution_render_data :
  rows (selection i male) ≠ [] → rows (selection i female) ≠ [] →
  AgeAppShiny.age_distribution_render g i h
  = (AgeAppShiny.pyramid_figure (selection i male) (selection i female)
                                (male_age_groups g) i, h2).
Proof.
  intros Hm Hf. unfold AgeAppShiny.age_distribution_render.
  unfold AgeAppShiny.get_population_data.
  rewrite (bind_run _ _ _ _ _ get_population_data_run).
  unfold AgeAppShiny.age_distribution_render_body.
  rewrite (bind_run _ _ _ _ _ (empty_run _ _ _ male_data_stored)).
  rewrite (selection_empty _ Hment), bool_decide_eq_false_2 by done.
  rewrite (bind_run _ _ _ _ _ (empty_run _ _ _ female_data_stored)).
  rewrite (selection_empty _ Hfent), bool_decide_eq_false_2 by done.
  rewrite (bind_run _ _ _ _ _ (load_run _ _ _ male_data_stored)).
  by rewrite (bind_run _ _ _ _ _ (load_run _ _ _ female_data_stored)).
Qed.

(** A render that returns bars was given two non-empty selections. *)
Lemma age_distribution_plot_bars labels m f title xtl h' :
  age_distribution_plot get_xticks g i h
  = (Ok (BarhFigure labels m f title xtl), h') →
  ∃ r_m r_f,
    head (rows (selection i male)) = Some r_m
    ∧ head (rows (selection i female)) = Some r_f
    ∧ pyramid_figure get_xticks (selection i male) (selection i female)
                     (male_age_groups g) i
      = Ok (BarhFigure labels m f title xtl).
Proof.
  intros Hrun.
  destruct (rows (selection i male)) as [|r_m rs_m] eqn:Hm.
  { rewrite age_distribution_plot_no_data in Hrun by auto. done. }
  destruct (rows (selection i female)) as [|r_f rs_f] eqn:Hf.
  { rewrite age_distribution_plot_no_data in Hrun by auto. done. }
  rewrite age_distribution_plot_data in Hrun by (by rewrite ?Hm, ?Hf).
  exists r_m, r_f. repeat split. congruence.
Qed.

Lemma age_distribution_render_bars age m f title ticktext h' :
  AgeAppShiny.age_distribution_render g i h
  = (Ok (AgeAppShiny.PyramidFigure age m f title ticktext), h') →
  ∃ r_m r_f,
    head (rows (selection i male)) = Some r_m
    ∧ head (rows (selection i female)) = Some r_f
    ∧ AgeAppShiny.pyramid_figure (selection i male) (selection i female)
                                 (male_age_groups g) i
      = Ok (AgeAppShiny.PyramidFigure age m f title ticktext).
Proof.
  intros Hrun.
  destruct (rows (selection i male)) as [|r_m rs_m] eqn:Hm.
  { rewrite age_distribution_render_no_data in Hrun by auto. done. }
  destruct (rows (selection i female)) as [|r_f rs_f] eqn:Hf.
  { rewrite age_distribution_render_no_data in Hrun by auto. done. }
  rewrite age_distribution_render_data in Hrun by (by rewrite ?Hm, ?Hf).
  exists r_m, r_f. repeat split. congruence.
Qed.

End PopulationRun.

Lemma elem_of_filter_bool {A : Type} (P : A → bool) (l : list A) x :
  x ∈ List.filter P l ↔ x ∈ l ∧ P x = true.
Proof. rewrite !list_elem_of_In. apply filter_In. Qed.

Lemma filter_sublist {A : Type} (f : A → bool) (l : list A) :
  List.filter f l `sublist_of` l.
Proof.
  induction l as [|x l IH]; simpl; [constructor|].
  destruct (f x); by constructor.
Qed.

Lemma filter_split_perm {A : Type} (f : A → bool) (l : list A) :
  List.filter f l ++ List.filter (λ x, negb (f x)) l ≡ₚ l.
Proof.
  induction l as [|x l IH]; simpl; [done|].
  destruct (f x); simpl.
  - by rewrite IH.
  - rewrite <- Permutation_middle. by rewrite IH.
Qed.

(** The selection of a table, read without the mask: it keeps the order
    of the table, every row it holds has the selected entity and year,
    and every row it leaves out has another entity or year. *)
Lemma selection_exact (i : Input) (df : DataFrame) :
  let matches := λ r : gmap string value,
    cell r "entities" = VStr (entity i)
    ∧ ∃ q, cell r "years" = VNum q ∧ (q == inject_Z (year i))%Q in
  rows (selection i df) `sublist_of` rows df
  ∧ (∀ r, r ∈ rows (selection i df) → matches r)
  ∧ ∃ rest, rows (selection i df) ++ rest ≡ₚ rows df
            ∧ ∀ r, r ∈ rest → ¬ matches r.
Proof.
  intros matches. unfold selection. cbn [rows].
  split; [apply filter_sublist|]. split.
  - intros r [_ Hr]%elem_of_filter_bool. by apply selected_cells.
  - exists (List.filter (λ r, negb (selected (entity i) (year i) r))
                        (rows df)).
    split; [apply filter_split_perm|].
    intros r [_ Hr]%elem_of_filter_bool Hm.
    apply selected_cells in Hm. by rewrite Hm in Hr.
Qed.

(** C2.  When both population tables have the columns [entities] and
    [years], [get_population_data] returns two new frames holding exactly
    the rows of the male and of the female table whose entity is the
    selected entity and whose year is a number equal to the selected
    year: the frame keeps the order of the table, every row in it matches,
    and every row of the table left out does not.  A selection that
    matches no row of a table gives an empty frame, and then both
    renderers return their "no data" figure without raising. *)
Theorem population_filter_exact_and_empty_is_placeholder
        (get_xticks : list value → list value → list Q)
        (g : Globals) (i : Input) (h : gmap nat DataFrame)
        (male female : DataFrame) :
  h !! male_popl_by_age_df g = Some male →
  h !! female_popl_by_age_df g = Some female →
  "entities" ∈ columns male → "years" ∈ columns male →
  "entities" ∈ columns female → "years" ∈ columns female →
  let matches := λ r : gmap string value,
    cell r "entities" = VStr (entity i)
    ∧ ∃ q, cell r "years" = VNum q ∧ (q == inject_Z (year i))%Q in
  ∃ male_data female_data h' md fd,
    get_population_data g i h = (Ok (male_data, female_data), h')
    ∧ h' !! male_data = Some md ∧ h' !! female_data = Some fd
    ∧ (rows md `sublist_of` rows male
       ∧ (∀ r, r ∈ rows md → matches r)
       ∧ ∃ rest, rows md ++ rest ≡ₚ rows male
                 ∧ ∀ r, r ∈ rest → ¬ matches r)
    ∧ (rows fd `sublist_of` rows female
       ∧ (∀ r, r ∈ rows fd → matches r)
       ∧ ∃ rest, rows fd ++ rest ≡ₚ rows female
                 ∧ ∀ r, r ∈ rest → ¬ matches r)
    ∧ ((∀ r, r ∈ rows male → ¬ matches r) → rows md = [])
    ∧ ((∀ r, r ∈ rows female → ¬ matches r) → rows fd = [])
    ∧ (rows md = [] ∨ rows fd = [] →
       age_distribution_plot get_xticks g i h
       = (Ok (TextFigure no_population_data), h')
       ∧ AgeAppShiny.age_distribution_render g i h
         = (Ok (AgeAppShiny.AnnotationFigure no_population_data), h')).
Proof.
  intros Hm Hf Hme Hmy Hfe Hfy matches.
  assert (Hnone : ∀ df, (∀ r, r ∈ rows df → ¬ matches r) →
                        rows (selection i df) = []).
  { intros df Hno. apply filter_none. intros r Hr.
    destruct (selected (entity i) (year i) r) eqn:Hsel; [|done].
    apply selected_cells in Hsel. by destruct (Hno r Hr). }
  exists (fresh (dom h)),
         (fresh (dom (<[fresh (dom h) := selection i male]> h))).
  eexists _, (selection i male), (selection i female).
  split; [by apply get_population_data_run|].
  split; [by eapply male_data_stored|].
  split; [by eapply female_data_stored|].
  split; [apply selection_exact|]. split; [apply selection_exact|].
  split; [apply Hnone|]. split; [apply Hnone|].
  intros Hempty. split.
  - by apply age_distribution_plot_no_data.
  - by apply age_distribution_render_no_data.
Qed.

Lemma population_filter_exact_and_empty_is_placeholder_witness :
  (∃ male_data female_data h' md,
      get_population_data Sample.globals (mkInput "World" 1950 1950)
                          Sample.store
      = (Ok (male_data, female_data), h')
      ∧ h' !! male_data = Some md
      ∧ Sample.population_row "male" "World" 1950 172500000 140000000 2000
        ∈ rows md
      ∧ ∀ r, r ∈ rows md →
             cell r "entities" = VStr "World"
             ∧ ∃ q, cell r "years" = VNum q ∧ (q == 1950)%Q)
  ∧ ∃ h',
      age_distribution_plot (λ _ _, []) Sample.globals
                            (mkInput "Atlantis" 1950 1950) Sample.store
      = (Ok (TextFigure no_population_data), h')
      ∧ AgeAppShiny.age_distribution_render
          Sample.globals (mkInput "Atlantis" 1950 1950) Sample.store
        = (Ok (AgeAppShiny.AnnotationFigure no_population_data), h').
Proof.
  assert (H1 : Sample.store !! male_popl_by_age_df Sample.globals
               = Some Sample.male_table) by reflexivity.
  assert (H2 : Sample.store !! female_popl_by_age_df Sample.globals
               = Some Sample.female_table) by reflexivity.
  assert (H3 : "entities" ∈ columns Sample.male_table)
    by apply list_elem_of_here.
  assert (H4 : "years" ∈ columns Sample.male_table)
    by apply list_elem_of_further, list_elem_of_here.
  assert (H5 : "entities" ∈ columns Sample.female_table)
    by apply list_elem_of_here.
  assert (H6 : "years" ∈ columns Sample.female_table)
    by apply list_elem_of_further, list_elem_of_here.
  split.
  - pose proof (population_filter_exact_and_empty_is_placeholder
                  (λ _ _, []) Sample.globals (mkInput "World" 1950 1950)
                  Sample.store Sample.male_table Sample.female_table
                  H1 H2 H3 H4 H5 H6) as Hworld.
    cbv zeta in Hworld.
    destruct Hworld
      as (pm & pf & h' & md & fd & Hrun & Hmd & _
          & (_ & Hin & rest & Hperm & Hout) & _).
    exists pm, pf, h', md. split; [exact Hrun|]. split; [exact Hmd|].
    split; [|exact Hin].
    assert (Hrow : Sample.population_row
                     "male" "World" 1950 172500000 140000000 2000
                   ∈ (rows md ++ rest)%list).
    { rewrite Hperm. apply list_elem_of_here. }
    apply elem_of_app in Hrow as [Hrow|Hrow]; [exact Hrow|].
    destruct (Hout _ Hrow). split; [reflexivity|].
    exists (inject_Z 1950). split; reflexivity.
  - pose proof (population_filter_exact_and_empty_is_placeholder
                  (λ _ _, []) Sample.globals (mkInput "Atlantis" 1950 1950)
                  Sample.store Sample.male_table Sample.female_table
                  H1 H2 H3 H4 H5 H6) as Hnowhere.
    cbv zeta in Hnowhere.
    destruct Hnowhere
      as (pm & pf & h' & md & fd & _ & _ & _ & _ & _ & Hmd & _ & Hnone).
    exists h'. apply Hnone. left. apply Hmd.
    intros r Hr [Hent _]. unfold Sample.male_table in Hr. cbn [rows] in Hr.
    repeat (apply elem_of_cons in Hr as [->|Hr]; [by vm_compute in Hent|]).
    by apply elem_of_nil in Hr.
Defined.

(** ** The projection flag *)

Lemma gt_2023_flags :
  bool_decide (1950 > 2023) = false ∧ bool_decide (2023 > 2023) = false
  ∧ bool_decide (2024 > 2023) = true ∧ bool_decide (2100 > 2023) = true.
Proof. by repeat split. Qed.

(** C3.  On a median table that has the columns the calculation reads,
    [get_median_data] returns, for every selected median year [y], the
    flag [y > 2023], whatever the table holds; [projection_info] writes
    the note "Projektion" under the same condition.  For the years 1950,
    2023, 2024 and 2100 the flag is false, false, true, true. *)
Theorem is_projection_iff_year_after_2023
        (g : Globals) (h : gmap nat DataFrame) (df : DataFrame) :
  h !! median_df g = Some df →
  "entities" ∈ columns df →
  estimates_column ∈ columns df →
  medium_column ∈ columns df →
  "years" ∈ columns df →
  (∀ i, ∃ year_data flag h',
      get_median_data g i h = (Ok (year_data, flag), h')
      ∧ (flag = true ↔ median_year i > 2023)
      ∧ (projection_info i
         = "<span class='projection-note'>Projektion</span>"
         ↔ median_year i > 2023)
      ∧ (AgeAppShiny.projection_info i
         = "<span class='projection-note'>Projektion</span>"
         ↔ median_year i > 2023))
  ∧ (∀ e y, ∃ year_data h',
        get_median_data g (mkInput e y 1950) h = (Ok (year_data, false), h'))
  ∧ (∀ e y, ∃ year_data h',
        get_median_data g (mkInput e y 2023) h = (Ok (year_data, false), h'))
  ∧ (∀ e y, ∃ year_data h',
        get_median_data g (mkInput e y 2024) h = (Ok (year_data, true), h'))
  ∧ (∀ e y, ∃ year_data h',
        get_median_data g (mkInput e y 2100) h = (Ok (year_data, true), h')).
Proof.
  intros Hdf Hent Hest Hmed Hyr.
  split; [|repeat split; intros e y; eexists _, _;
           by rewrite (get_median_data_run g h df Hdf Hent Hest Hmed Hyr)].
  intros i. eexists _, _, _.
  split; [by apply get_median_data_run|].
  split; [apply bool_decide_eq_true|].
  unfold projection_info, AgeAppShiny.projection_info.
  split; (case_bool_decide; split; [done | done | done | lia]).
Qed.

Lemma is_projection_iff_year_after_2023_witness :
  (∃ year_data h',
      get_median_data Sample.globals (mkInput "World" 1950 2023) Sample.store
      = (Ok (year_data, false), h'))
  ∧ (∃ year_data h',
        get_median_data Sample.globals (mkInput "World" 1950 2024)
                        Sample.store
        = (Ok (year_data, true), h')).
Proof.
  destruct (is_projection_iff_year_after_2023
              Sample.globals Sample.store Sample.median_table)
    as (_ & _ & H2023 & H2024 & _);
    [reflexivity | set_solver | set_solver | set_solver | set_solver |].
  split; [apply H2023 | apply H2024].
Defined.

(** ** The animation loops *)

Import Animation.

Lemma animate_age_distribution_advance g s B :
  Py.max (available_years g) = Ok B →
  animating_age_distribution s = true →
  year (input s) < B →
  _animate_age_distribution g s
  = Ok (set_year (year (input s) + 1) s, Some (5 # 100)%Q).
Proof.
  intros HB Hplay Hlt. unfold _animate_age_distribution.
  rewrite Hplay, HB. simpl. by rewrite bool_decide_eq_true_2.
Qed.

Lemma animate_age_distribution_stop g s B :
  Py.max (available_years g) = Ok B →
  animating_age_distribution s = true →
  B ≤ year (input s) →
  _animate_age_distribution g s
  = Ok (set_play_age_distribution_label "Play"
          (set_animating_age_distribution false s), None).
Proof.
  intros HB Hplay Hge. unfold _animate_age_distribution.
  rewrite Hplay, HB. simpl. rewrite bool_decide_eq_false_2; [done | lia].
Qed.

Lemma animate_age_distribution_idle g s :
  animating_age_distribution s = false →
  _animate_age_distribution g s = Ok (s, None).
Proof. intros Hidle. unfold _animate_age_distribution. by rewrite Hidle. Qed.

Lemma animate_median_age_advance s :
  animating_median_age s = true →
  median_year (input s) < 2100 →
  _animate_median_age s
  = (set_median_year (median_year (input s) + 1) s, Some (25 # 100)%Q).
Proof.
  intros Hplay Hlt. unfold _animate_median_age.
  by rewrite Hplay, bool_decide_eq_true_2.
Qed.

Lemma animate_median_age_stop s :
  animating_median_age s = true →
  2100 ≤ median_year (input s) →
  _animate_median_age s
  = (set_play_median_age_label "Play" (set_animating_median_age false s),
     None).
Proof.
  intros Hplay Hge. unfold _animate_median_age.
  rewrite Hplay, bool_decide_eq_false_2; [done | lia].
Qed.

(** The year never passes the bound, whatever the state of the loop. *)
Lemma age_distribution_ticks_bounded g B n : ∀ s s',
  Py.max (available_years g) = Ok B →
  year (input s) ≤ B →
  age_distribution_ticks g n s = Ok s' →
  year (input s') ≤ B.
Proof.
  induction n as [|n IH]; intros s s' HB Hle Hrun; simpl in Hrun.
  - by inversion Hrun; subst.
  - destruct (animating_age_distribution s) eqn:Hplay.
    + destruct (decide (year (input s) < B)) as [Hlt|Hge].
      * rewrite (animate_age_distribution_advance g s B) in Hrun by done.
        simpl in Hrun. eapply IH; [done | | exact Hrun]. simpl. lia.
      * rewrite (animate_age_distribution_stop g s B) in Hrun by (done || lia).
        simpl in Hrun. eapply IH; [done | | exact Hrun]. simpl. lia.
    + rewrite animate_age_distribution_idle in Hrun by done.
      simpl in Hrun. eapply IH; [done | | exact Hrun]. done.
Qed.

Lemma median_age_ticks_bounded n : ∀ s,
  median_year (input s) ≤ 2100 →
  median_year (input (median_age_ticks n s)) ≤ 2100.
Proof.
  induction n as [|n IH]; intros s Hle; simpl; [done|].
  apply IH. unfold _animate_median_age.
  destruct (animating_median_age s); [|done].
  case_bool_decide; simpl; lia.
Qed.

(** C4.  One run of an animation effect while playing, at position [P]
    with upper bound [B] (the largest available year for the age chart,
    2100 for the median chart): below the bound the position becomes
    [P + 1], the loop stays playing and asks to be run again after its
    delay (0.05 s, 0.25 s); at or above the bound the loop stops, the
    button is labelled "Play", the position is left alone and no further
    run is asked for.  A position that starts at or below the bound stays
    there over any number of runs. *)
Theorem animation_tick_advances_or_stops
        (g : Globals) (s : Session) (B : Z) :
  Py.max (available_years g) = Ok B →
  (animating_age_distribution s = true →
     (year (input s) < B →
        ∃ s', _animate_age_distribution g s = Ok (s', Some (5 # 100)%Q)
              ∧ year (input s') = year (input s) + 1
              ∧ animating_age_distribution s' = true
              ∧ s' = set_year (year (input s) + 1) s)
     ∧ (B ≤ year (input s) →
        ∃ s', _animate_age_distribution g s = Ok (s', None)
              ∧ year (input s') = year (input s)
              ∧ animating_age_distribution s' = false
              ∧ play_age_distribution_label s' = "Play"))
  ∧ (animating_median_age s = true →
     (median_year (input s) < 2100 →
        ∃ s', _animate_median_age s = (s', Some (25 # 100)%Q)
              ∧ median_year (input s') = median_year (input s) + 1
              ∧ animating_median_age s' = true
              ∧ s' = set_median_year (median_year (input s) + 1) s)
     ∧ (2100 ≤ median_year (input s) →
        ∃ s', _animate_median_age s = (s', None)
              ∧ median_year (input s') = median_year (input s)
              ∧ animating_median_age s' = false
              ∧ play_median_age_label s' = "Play"))
  ∧ (year (input s) ≤ B →
     ∀ n s', age_distribution_ticks g n s = Ok s' → year (input s') ≤ B)
  ∧ (median_year (input s) ≤ 2100 →
     ∀ n, median_year (input (median_age_ticks n s)) ≤ 2100).
Proof.
  intros HB. repeat split.
  - intros Hlt. eexists. split; [by eapply animate_age_distribution_advance|].
    by repeat split.
  - intros Hge. eexists. split; [by eapply animate_age_distribution_stop|].
    by repeat split.
  - intros Hlt. eexists. split; [by eapply animate_median_age_advance|].
    by repeat split.
  - intros Hge. eexists. split; [by eapply animate_median_age_stop|].
    by repeat split.
  - intros Hle n s' Hrun. by eapply age_distribution_ticks_bounded.
  - intros Hle n. by apply median_age_ticks_bounded.
Qed.

Lemma animation_tick_advances_or_stops_witness :
  (∃ s', _animate_age_distribution Sample.globals Sample.session
         = Ok (s', Some (5 # 100)%Q)
         ∧ year (input s') = 1951
         ∧ animating_age_distribution s' = true)
  ∧ (∃ s', _animate_age_distribution Sample.globals
             (set_year 1951 Sample.session)
           = Ok (s', None)
           ∧ year (input s') = 1951
           ∧ animating_age_distribution s' = false
           ∧ play_age_distribution_label s' = "Play").
Proof.
  split.
  - destruct (animation_tick_advances_or_stops
                Sample.globals Sample.session 1951 eq_refl)
      as ((Hadv & _) & _); [reflexivity|].
    destruct Hadv as (s' & Hrun & Hyear & Hplay & _); [simpl; lia|].
    exists s'. by repeat split.
  - destruct (animation_tick_advances_or_stops
                Sample.globals (set_year 1951 Sample.session) 1951 eq_refl)
      as ((_ & Hstop) & _); [reflexivity|].
    destruct Hstop as (s' & Hrun & Hyear & Hplay & Hlabel); [simpl; lia|].
    exists s'. by repeat split.
Defined.

(** *** Seventy-three years of animation *)

Lemma set_year_set_year y y' s : set_year y (set_year y' s) = set_year y s.
Proof. reflexivity. Qed.

Lemma age_distribution_ticks_advance g B n : ∀ s,
  Py.max (available_years g) = Ok B →
  animating_age_distribution s = true →
  year (input s) + Z.of_nat n ≤ B →
  age_distribution_ticks g n s
  = Ok (set_year (year (input s) + Z.of_nat n) s).
Proof.
  induction n as [|n IH]; intros s HB Hplay Hle.
  - simpl. rewrite Z.add_0_r. by destruct s as [[] ? ? ? ?].
  - cbn [age_distribution_ticks].
    rewrite (animate_age_distribution_advance g s B) by (done || lia).
    cbn [mbind result_bind].
    rewrite IH by (done || simpl; lia).
    rewrite set_year_set_year. simpl. do 2 f_equal. lia.
Qed.

Lemma age_distribution_ticks_idle g n : ∀ s,
  animating_age_distribution s = false →
  age_distribution_ticks g n s = Ok s.
Proof.
  induction n as [|n IH]; intros s Hidle; [done|].
  cbn [age_distribution_ticks].
  rewrite animate_age_distribution_idle by done.
  cbn [mbind result_bind]. by apply IH.
Qed.

Lemma age_distribution_ticks_app g n m s :
  age_distribution_ticks g (n + m) s
  = age_distribution_ticks g n s ≫= age_distribution_ticks g m.
Proof.
  revert s. induction n as [|n IH]; intros s; [done|].
  cbn [Nat.add age_distribution_ticks].
  destruct (_animate_age_distribution g s) as [[s' d]|e]; [|done].
  cbn [mbind result_bind]. apply IH.
Qed.

(** *** Runs and answers in any order *)

Lemma set_year_same s : set_year (year (input s)) s = s.
Proof. by destruct s as [[] ? ? ? ?]. Qed.

Lemma set_median_year_same s :
  set_median_year (median_year (input s)) s = s.
Proof. by destruct s as [[] ? ? ? ?]. Qed.

Lemma steps_app g l1 l2 p :
  Page.steps g (l1 ++ l2) p = Page.steps g l1 p ≫= Page.steps g l2.
Proof.
  revert p. induction l1 as [|st l1 IH]; intros p; [done|].
  cbn [app Page.steps]. destruct (Page.step g st p) as [p'|e]; [|done].
  cbn [mbind result_bind]. apply IH.
Qed.

(** A run of the age effect on the server's view, branch by branch. *)
Lemma run_age_run g B p :
  Py.max (available_years g) = Ok B →
  Page.run_age g p
  = Ok (if animating_age_distribution (Page.server p)
        then if bool_decide (year (input (Page.server p)) < B)
             then Page.mkState
                    (Page.server p)
                    (Page.year_sent p ++ [year (input (Page.server p)) + 1])
                    (Page.median_year_sent p)
             else Page.mkState
                    (set_play_age_distribution_label "Play"
                       (set_animating_age_distribution
                          false (Page.server p)))
                    (Page.year_sent p) (Page.median_year_sent p)
        else p).
Proof.
  intros HB. destruct p as [[[e y m] a b l1 l2] ys ms].
  unfold Page.run_age, _animate_age_distribution. simpl.
  destruct a; simpl.
  - rewrite HB. simpl. case_bool_decide as Hlt; simpl.
    + rewrite bool_decide_eq_false_2 by lia. done.
    + rewrite bool_decide_eq_true_2 by done. done.
  - rewrite bool_decide_eq_true_2 by done. done.
Qed.

(** A run of the median effect leaves the age loop alone. *)
Lemma run_median_keeps_age p :
  year (input (Page.server (Page.run_median p)))
  = year (input (Page.server p))
  ∧ animating_age_distribution (Page.server (Page.run_median p))
    = animating_age_distribution (Page.server p)
  ∧ play_age_distribution_label (Page.server (Page.run_median p))
    = play_age_distribution_label (Page.server p)
  ∧ Page.year_sent (Page.run_median p) = Page.year_sent p.
Proof.
  destruct p as [[[e y m] a b l1 l2] ys ms].
  unfold Page.run_median, _animate_median_age. simpl.
  destruct b; [case_bool_decide|]; done.
Qed.

Lemma answer_median_year_keeps_age p :
  year (input (Page.server (Page.answer_median_year p)))
  = year (input (Page.server p))
  ∧ animating_age_distribution (Page.server (Page.answer_median_year p))
    = animating_age_distribution (Page.server p)
  ∧ play_age_distribution_label (Page.server (Page.answer_median_year p))
    = play_age_distribution_label (Page.server p)
  ∧ Page.year_sent (Page.answer_median_year p) = Page.year_sent p.
Proof.
  destruct p as [[[e y m] a b l1 l2] ys [|v ms]]; done.
Qed.

Section AgeLoop.

Variables (g : Globals) (B P : Z).
Hypothesis HB : Py.max (available_years g) = Ok B.

(** What [r] runs can have done to a loop started at [P]: the year on
    the server and every year on its way are at most [B] and at most
    [P + r], and the loop has stopped only if [r] exceeds [B - P]. *)
#[local] Abbreviation age_inv r p :=
  (year (input (Page.server p)) ≤ B
   ∧ year (input (Page.server p)) ≤ P + Z.of_nat r
   ∧ Forall (λ v, v ≤ B ∧ v ≤ P + Z.of_nat r) (Page.year_sent p)
   ∧ (animating_age_distribution (Page.server p) = false →
      B - P < Z.of_nat r)) (only parsing).

Lemma age_step_inv st p r :
  age_inv r p →
  ∃ p', Page.step g st p = Ok p' ∧ age_inv (r + Page.age_runs [st])%nat p'.
Proof.
  intros (HyB & Hyr & Hsent & Hidle). destruct st; cbn [Page.step].
  - rewrite (run_age_run g B) by done. eexists. split; [done|].
    cbn [Page.age_runs].
    destruct (animating_age_distribution (Page.server p)) eqn:Ha;
      [case_bool_decide as Hlt|]; cbn [Page.server Page.year_sent].
    + rewrite Ha. split; [done|]. split; [lia|]. split; [|done].
      apply Forall_app. split.
      * eapply Forall_impl; [exact Hsent|]. intros v [? ?]. split; lia.
      * apply Forall_singleton. lia.
    + destruct (Page.server p) as [[e y m] a b l1 l2]. simpl in *.
      split; [done|]. split; [lia|]. split; [|lia].
      eapply Forall_impl; [exact Hsent|]. intros v [? ?]. split; lia.
    + rewrite Ha. split; [done|]. split; [lia|]. split.
      * eapply Forall_impl; [exact Hsent|]. intros v [? ?]. split; lia.
      * intros _. specialize (Hidle eq_refl). lia.
  - eexists. split; [done|]. cbn [Page.age_runs]. rewrite Nat.add_0_r.
    unfold Page.answer_year. destruct (Page.year_sent p) as [|v ys] eqn:Hys.
    + rewrite Hys. done.
    + apply Forall_cons in Hsent as [[HvB Hvr] Hrest].
      destruct (Page.server p) as [[e y m] a b l1 l2]. simpl in *. done.
  - eexists. split; [done|]. cbn [Page.age_runs]. rewrite Nat.add_0_r.
    destruct (run_median_keeps_age p) as (-> & -> & _ & ->). done.
  - eexists. split; [done|]. cbn [Page.age_runs]. rewrite Nat.add_0_r.
    destruct (answer_median_year_keeps_age p) as (-> & -> & _ & ->). done.
Qed.

Lemma age_steps_inv l : ∀ p r,
  age_inv r p →
  ∃ p', Page.steps g l p = Ok p' ∧ age_inv (r + Page.age_runs l)%nat p'.
Proof.
  induction l as [|st l IH]; intros p r Hinv.
  - exists p. split; [done|]. cbn [Page.age_runs]. by rewrite Nat.add_0_r.
  - cbn [Page.steps].
    destruct (age_step_inv st p r Hinv) as (p1 & -> & H1).
    cbn [mbind result_bind].
    destruct (IH p1 _ H1) as (p' & -> & H').
    exists p'. split; [done|].
    replace (r + Page.age_runs (st :: l))%nat
      with (r + Page.age_runs [st] + Page.age_runs l)%nat
      by (destruct st; simpl; lia).
    done.
Qed.

(** From a playing loop at [P] with nothing on its way: whatever the
    order of runs and answers, nothing is raised, the year stays within
    the bound, and the loop still plays as long as at most [B - P] runs
    have taken place. *)
Lemma age_steps_from_start l s :
  animating_age_distribution s = true →
  year (input s) = P → P ≤ B →
  ∃ p, Page.steps g l (Page.start s) = Ok p
       ∧ year (input (Page.server p)) ≤ B
       ∧ year (input (Page.server p)) ≤ P + Z.of_nat (Page.age_runs l)
       ∧ (Z.of_nat (Page.age_runs l) ≤ B - P →
          animating_age_distribution (Page.server p) = true).
Proof.
  intros Hplay Hy HP.
  destruct (age_steps_inv l (Page.start s) 0) as (p & Hrun & HyB & Hyr & _ & Hidle).
  { cbn [Page.start Page.server Page.year_sent]. rewrite Hy, Hplay.
    split; [done|]. split; [lia|]. split; [constructor|done]. }
  exists p. split; [done|]. split; [done|]. split; [done|].
  intros Hruns.
  destruct (animating_age_distribution (Page.server p)); [done|].
  specialize (Hidle eq_refl). simpl in Hidle. lia.
Qed.

(** With a page that answers every update before the next run, [n] runs
    advance a playing loop by [n] years, up to the bound. *)
Lemma prompt_age_advance n : ∀ s ms,
  animating_age_distribution s = true →
  year (input s) + Z.of_nat n ≤ B →
  Page.steps g (Page.prompt_age n) (Page.mkState s [] ms)
  = Ok (Page.mkState (set_year (year (input s) + Z.of_nat n) s) [] ms).
Proof.
  induction n as [|n IH]; intros s ms Hplay Hle.
  - cbn [Page.prompt_age Page.steps]. by rewrite Z.add_0_r, set_year_same.
  - cbn [Page.prompt_age Page.steps Page.step].
    rewrite (run_age_run g B) by done.
    cbn [Page.server Page.year_sent Page.median_year_sent].
    rewrite Hplay, bool_decide_eq_true_2 by lia.
    cbn [mbind result_bind app]. unfold Page.answer_year.
    cbn [Page.server Page.year_sent Page.median_year_sent].
    rewrite IH by (done || simpl; lia).
    rewrite set_year_set_year. simpl. do 3 f_equal. lia.
Qed.

(** The run that reads the bound stops the loop and sends nothing. *)
Lemma run_age_stop s ms :
  animating_age_distribution s = true →
  B ≤ year (input s) →
  Page.run_age g (Page.mkState s [] ms)
  = Ok (Page.mkState
          (set_play_age_distribution_label "Play"
             (set_animating_age_distribution false s)) [] ms).
Proof.
  intros Hplay Hge. rewrite (run_age_run g B) by done.
  cbn [Page.server Page.year_sent Page.median_year_sent].
  by rewrite Hplay, bool_decide_eq_false_2 by lia.
Qed.

End AgeLoop.

(** Once the loop is idle with nothing on its way, no run and no answer
    moves the year, restarts the loop or changes its button. *)
Lemma age_steps_idle g l : ∀ p,
  animating_age_distribution (Page.server p) = false →
  Page.year_sent p = [] →
  ∃ p', Page.steps g l p = Ok p'
        ∧ animating_age_distribution (Page.server p') = false
        ∧ year (input (Page.server p')) = year (input (Page.server p))
        ∧ play_age_distribution_label (Page.server p')
          = play_age_distribution_label (Page.server p)
        ∧ Page.year_sent p' = [].
Proof.
  induction l as [|st l IH]; intros p Hidle Hsent; [by exists p|].
  cbn [Page.steps].
  assert (Hstep : ∃ p1,
             Page.step g st p = Ok p1
             ∧ animating_age_distribution (Page.server p1) = false
             ∧ year (input (Page.server p1)) = year (input (Page.server p))
             ∧ play_age_distribution_label (Page.server p1)
               = play_age_distribution_label (Page.server p)
             ∧ Page.year_sent p1 = []).
  { destruct st; cbn [Page.step].
    - exists p. split; [|done]. unfold Page.run_age.
      rewrite animate_age_distribution_idle by done.
      cbn [mbind result_bind]. rewrite set_year_same.
      rewrite bool_decide_eq_true_2 by done. by destruct p.
    - exists p. split; [|done]. unfold Page.answer_year. by rewrite Hsent.
    - eexists. split; [done|].
      destruct (run_median_keeps_age p) as (-> & -> & -> & ->). done.
    - eexists. split; [done|].
      destruct (answer_median_year_keeps_age p) as (-> & -> & -> & ->).
      done. }
  destruct Hstep as (p1 & -> & Hidle1 & Hy1 & Hl1 & Hsent1).
  cbn [mbind result_bind].
  destruct (IH p1 Hidle1 Hsent1) as (p' & -> & ? & Hy' & Hl' & ?).
  exists p'. rewrite Hy', Hl', Hy1, Hl1. done.
Qed.

(** C5, as the code has it.  Started playing at 1950 with bound 2023, the
    age animation is still playing after 73 runs of the effect, in
    whatever order the page has answered the slider updates in between,
    and the year has not passed 2023.  With a page that answers every
    update before the next run, the position is 2023 after exactly 73
    runs and the loop still plays; run 74 stops the loop (idle, label
    "Play") without advancing; no later run or answer changes that. *)
Theorem age_animation_reaches_2023_then_stops (g : Globals) (s : Session) :
  Py.max (available_years g) = Ok 2023 →
  year (input s) = 1950 →
  animating_age_distribution s = true →
  (∀ l, (Page.age_runs l ≤ 73)%nat →
     ∃ p, Page.steps g l (Page.start s) = Ok p
          ∧ animating_age_distribution (Page.server p) = true
          ∧ year (input (Page.server p)) ≤ 2023)
  ∧ Page.steps g (Page.prompt_age 73) (Page.start s)
    = Ok (Page.start (set_year 2023 s))
  ∧ animating_age_distribution (set_year 2023 s) = true
  ∧ _animate_age_distribution g (set_year 2023 s)
    = Ok (stopped_at_2023 s, None)
  ∧ Page.steps g (Page.prompt_age 73 ++ [Page.RunAge]) (Page.start s)
    = Ok (Page.start (stopped_at_2023 s))
  ∧ animating_age_distribution (stopped_at_2023 s) = false
  ∧ year (input (stopped_at_2023 s)) = 2023
  ∧ play_age_distribution_label (stopped_at_2023 s) = "Play"
  ∧ (∀ l, ∃ p,
       Page.steps g (Page.prompt_age 73 ++ Page.RunAge :: l) (Page.start s)
       = Ok p
       ∧ animating_age_distribution (Page.server p) = false
       ∧ year (input (Page.server p)) = 2023
       ∧ play_age_distribution_label (Page.server p) = "Play").
Proof.
  intros HB Hy Hplay.
  assert (H73 : Page.steps g (Page.prompt_age 73) (Page.start s)
                = Ok (Page.start (set_year 2023 s))).
  { unfold Page.start.
    rewrite (prompt_age_advance g 2023 HB 73) by (done || lia).
    by rewrite Hy. }
  assert (Hstop : _animate_age_distribution g (set_year 2023 s)
                  = Ok (stopped_at_2023 s, None)).
  { by rewrite (animate_age_distribution_stop g _ 2023). }
  assert (H74 : Page.steps g (Page.prompt_age 73 ++ [Page.RunAge])
                           (Page.start s)
                = Ok (Page.start (stopped_at_2023 s))).
  { rewrite steps_app, H73. cbn [mbind result_bind Page.steps Page.step].
    unfold Page.start.
    by rewrite (run_age_stop g 2023 HB (set_year 2023 s)). }
  split.
  { intros l Hl.
    destruct (age_steps_from_start g 2023 1950 HB l s)
      as (p & Hrun & HyB & _ & Hstill); [done | done | lia |].
    exists p. split; [done|]. split; [apply Hstill; lia|done]. }
  split; [exact H73|]. split; [done|]. split; [exact Hstop|].
  split; [exact H74|]. split; [done|]. split; [done|]. split; [done|].
  intros l.
  rewrite (cons_middle Page.RunAge), app_assoc, steps_app, H74.
  cbn [mbind result_bind].
  destruct (age_steps_idle g l (Page.start (stopped_at_2023 s)))
    as (p & Hrun & Hidle & Hyear & Hlabel & _); [done | done |].
  exists p. split; [done|]. split; [done|]. by rewrite Hyear, Hlabel.
Qed.

Lemma age_animation_reaches_2023_then_stops_witness :
  Page.steps Sample.globals_2023 (Page.prompt_age 73)
             (Page.start Sample.session)
  = Ok (Page.start (set_year 2023 Sample.session))
  ∧ Page.steps Sample.globals_2023 (Page.prompt_age 73 ++ [Page.RunAge])
               (Page.start Sample.session)
    = Ok (Page.start (stopped_at_2023 Sample.session))
  ∧ ∃ p, Page.steps Sample.globals_2023 (repeat Page.RunAge 73)
                    (Page.start Sample.session) = Ok p
         ∧ animating_age_distribution (Page.server p) = true.
Proof.
  destruct (age_animation_reaches_2023_then_stops
              Sample.globals_2023 Sample.session)
    as (Hany & H73 & _ & _ & H74 & _);
    [reflexivity | reflexivity | reflexivity |].
  split; [exact H73|]. split; [exact H74|].
  destruct (Hany (repeat Page.RunAge 73)) as (p & Hrun & Hplay & _);
    [simpl; lia|].
  exists p. exact (conj Hrun Hplay).
Defined.

(** C5 with "idle after exactly 73 ticks" fails: after 73 runs of the
    effect from 1950 the position is 2023 but the loop is still playing. *)
Lemma age_animation_not_idle_after_73_ticks :
  ¬ ∃ s', age_distribution_ticks Sample.globals_2023 73 Sample.session = Ok s'
          ∧ animating_age_distribution s' = false
          ∧ year (input s') = 2023.
Proof.
  intros (s' & Hrun & Hidle & _).
  vm_compute in Hrun. inversion Hrun; subst. discriminate Hidle.
Qed.

(** ** The stable sort *)

Section StableSort.

Context {A : Type} (before : A → A → bool).

Lemma insert_sorted_perm x l : Py.insert_sorted before x l ≡ₚ x :: l.
Proof.
  induction l as [|y l IH]; simpl; [done|].
  destruct (before x y); [done|]. rewrite IH. apply Permutation_swap.
Qed.

Lemma stable_sort_perm l : Py.stable_sort before l ≡ₚ l.
Proof.
  induction l as [|x l IH]; simpl; [done|].
  rewrite insert_sorted_perm. by rewrite IH.
Qed.

Hypothesis before_total : ∀ a b, before a b = false → before b a = true.
Hypothesis before_trans :
  ∀ a b c, before a b = true → before b c = true → before a c = true.

Lemma insert_sorted_sorted x l :
  StronglySorted (λ a b, before a b = true) l →
  StronglySorted (λ a b, before a b = true) (Py.insert_sorted before x l).
Proof.
  induction 1 as [|y l Hl IH Hy]; simpl.
  - repeat constructor.
  - destruct (before x y) eqn:Hxy.
    + constructor; [by constructor|].
      constructor; [done|].
      eapply Forall_impl; [exact Hy|]. intros z Hz. by eapply before_trans.
    + constructor; [done|].
      rewrite insert_sorted_perm. constructor; [|done].
      by apply before_total.
Qed.

Lemma stable_sort_sorted l :
  StronglySorted (λ a b, before a b = true) (Py.stable_sort before l).
Proof.
  induction l as [|x l IH]; simpl; [constructor|].
  by apply insert_sorted_sorted.
Qed.

End StableSort.

Lemma ranks_before_total a b :
  ranks_before a b = false → ranks_before b a = true.
Proof.
  unfold ranks_before.
  destruct (sort_key a) as [p|], (sort_key b) as [q|]; try done.
  intros Hqp. apply Qle_bool_iff.
  destruct (Qlt_le_dec p q) as [Hlt|Hle]; [by apply Qlt_le_weak|].
  apply Qle_bool_iff in Hle. congruence.
Qed.

Lemma ranks_before_trans a b c :
  ranks_before a b = true → ranks_before b c = true →
  ranks_before a c = true.
Proof.
  unfold ranks_before.
  destruct (sort_key a) as [p|], (sort_key b) as [q|],
           (sort_key c) as [r|]; try done.
  rewrite !Qle_bool_iff. intros Hqp Hrq. by eapply Qle_trans.
Qed.

(** What the order says about two cells. *)
Lemma ranks_before_cells a b :
  ranks_before a b = true →
  (∀ x y, a = VNum x → b = VNum y → (y <= x)%Q)
  ∧ (a = NaN → is_str b = false → b = NaN).
Proof.
  intros H. split.
  - intros x y -> ->. by apply Qle_bool_iff.
  - intros -> Hb. by destruct b.
Qed.

(** ** pva/app_2.py: the mean over no rows *)

Lemma filtered_df_ok df regions :
  "REGION_NAME" ∈ columns df →
  App2.filtered_df df regions
  = Ok (mkDataFrame (columns df) (List.filter (in_regions regions) (rows df))).
Proof.
  intros Hc. unfold App2.filtered_df.
  rewrite getitem_col_ok by done. cbn [mbind result_bind].
  rewrite isin_cells. apply getitem_mask_fmap.
Qed.

Lemma avg_growth_of_empty_selection df regions :
  "REGION_NAME" ∈ columns df →
  "change_2010_2019" ∈ columns df →
  (∀ r, r ∈ rows df → in_regions regions r = false) →
  App2.avg_growth df regions = Ok "nan%".
Proof.
  intros Hreg Hch Hnone. unfold App2.avg_growth.
  rewrite filtered_df_ok by done. cbn [mbind result_bind].
  rewrite getitem_col_ok by done. cbn [mbind result_bind rows].
  by rewrite filter_none.
Qed.

(** C6.  With every region unticked no state is selected, the mean of
    the growth column is NaN, and the value box of [avg_growth] shows the
    text "nan%". *)
Lemma avg_growth_no_region_is_nan_percent :
  App2.avg_growth Sample.states_table [] = Ok "nan%".
Proof. reflexivity. Qed.

(** ** pva/app_2.py: the states with the largest growth *)

Lemma existsb_none {A : Type} (f : A → bool) (l : list A) :
  (∀ x, x ∈ l → f x = false) → existsb f l = false.
Proof.
  induction l as [|x l IH]; intros H; simpl; [done|].
  rewrite (H x) by apply list_elem_of_here.
  apply IH. intros y Hy. apply H. by apply list_elem_of_further.
Qed.

(** C10.  For a state table whose growth column holds no text, every
    region selection and every slider value [top_n]: the frame handed to
    the bar chart holds only states of the selected regions; it has
    [top_n] rows, or all matching states when there are fewer; together
    with the matching states left out it is a rearrangement of the
    matching states; and every plotted state has a growth at least that
    of every matching state left out (a missing growth ranks last). *)
Theorem population_widget_plots_largest_growth
        (df_states : DataFrame) (regions : list string) (top_n : Z) :
  "REGION_NAME" ∈ columns df_states →
  "change_2010_2019" ∈ columns df_states →
  (∀ r, r ∈ rows df_states → is_str (cell r "change_2010_2019") = false) →
  ∃ plot_df rest,
    App2.population_widget df_states regions top_n = Ok plot_df
    ∧ rows plot_df ++ rest
      ≡ₚ List.filter (in_regions regions) (rows df_states)
    ∧ (∀ r, r ∈ rows plot_df →
         r ∈ rows df_states
         ∧ ∃ n, cell r "REGION_NAME" = VStr n ∧ n ∈ regions)
    ∧ length (rows plot_df)
      = Nat.min (Z.to_nat top_n)
                (length (List.filter (in_regions regions) (rows df_states)))
    ∧ (0 ≤ top_n → Z.of_nat (length (rows plot_df)) ≤ top_n)
    ∧ (∀ p q, p ∈ rows plot_df → q ∈ rest →
         (∀ x y, cell p "change_2010_2019" = VNum x →
                 cell q "change_2010_2019" = VNum y → (y <= x)%Q)
         ∧ (cell p "change_2010_2019" = NaN →
            cell q "change_2010_2019" = NaN)).
Proof.
  intros Hreg Hch Hnum.
  set (matching := List.filter (in_regions regions) (rows df_states)).
  set (before := λ r r' : gmap string value,
         ranks_before (cell r "change_2010_2019")
                      (cell r' "change_2010_2019")).
  set (ordered := Py.stable_sort before matching).
  assert (Hperm : ordered ≡ₚ matching) by apply stable_sort_perm.
  assert (Hsorted : StronglySorted (λ a b, before a b = true) ordered).
  { apply stable_sort_sorted.
    - intros a b. apply ranks_before_total.
    - intros a b c. apply ranks_before_trans. }
  assert (Hin : ∀ r, r ∈ ordered → r ∈ rows df_states ∧ in_regions regions r = true).
  { intros r Hr. rewrite Hperm in Hr. by apply elem_of_filter_bool in Hr. }
  exists (mkDataFrame (columns df_states) (take (Z.to_nat top_n) ordered)),
         (drop (Z.to_nat top_n) ordered).
  split.
  { unfold App2.population_widget. rewrite filtered_df_ok by done.
    cbn [mbind result_bind]. unfold nlargest.
    rewrite getitem_col_ok by done. cbn [mbind result_bind rows columns].
    rewrite existsb_none; [done|].
    intros v Hv. apply list_elem_of_fmap in Hv as (r & -> & Hr).
    apply elem_of_filter_bool in Hr as [Hr _]. by apply Hnum. }
  cbn [rows]. split; [by rewrite take_drop|].
  split.
  { intros r Hr. apply subseteq_take in Hr.
    destruct (Hin r Hr) as [Hrow Hsel]. split; [done|].
    unfold in_regions in Hsel.
    destruct (cell r "REGION_NAME") as [n| |]; try done.
    exists n. split; [done|]. by apply bool_decide_eq_true in Hsel. }
  split; [by rewrite length_take, Hperm|].
  split; [rewrite length_take; lia|].
  intros p q Hp Hq.
  assert (Hpq : before p q = true).
  { rewrite <- (take_drop (Z.to_nat top_n) ordered) in Hsorted.
    exact (StronglySorted_app_1_elem_of _ _ _ _ _ Hsorted Hp Hq). }
  apply ranks_before_cells in Hpq as [Hnumeric Hmissing].
  split; [done|]. intros Hnan. apply Hmissing; [done|].
  apply Hnum. apply (Hin q). by eapply subseteq_drop.
Qed.

Lemma population_widget_plots_largest_growth_witness :
  ∃ plot_df,
    App2.population_widget Sample.states_table ["South"; "Midwest"] 2
    = Ok plot_df
    ∧ (λ r, cell r "NAME") <$> rows plot_df = [VStr "Texas"; VStr "Florida"].
Proof.
  destruct (population_widget_plots_largest_growth
              Sample.states_table ["South"; "Midwest"] 2)
    as (plot_df & rest & Hrun & _); [set_solver | set_solver | |].
  - intros r Hr. unfold Sample.states_table in Hr. cbn [rows] in Hr.
    repeat (apply elem_of_cons in Hr as [->|Hr]; [by vm_compute|]).
    by apply elem_of_nil in Hr.
  - exists plot_df. split; [exact Hrun|].
    vm_compute in Hrun. inversion Hrun; subst. reflexivity.
Defined.

(** ** List comprehensions and [sorted] *)

Lemma traverse_ok {A B : Type} (f : A → result B) (l : list A) (ys : list B) :
  Py.traverse f l = Ok ys → Forall2 (λ x y, f x = Ok y) l ys.
Proof.
  revert ys. induction l as [|x l IH]; intros ys H; simpl in H.
  - inversion H. constructor.
  - destruct (f x) as [y|] eqn:Hx; [|done]. cbn in H.
    destruct (Py.traverse f l) as [ys'|] eqn:Hl; [|done]. cbn in H.
    inversion H; subst. constructor; [done|]. by apply IH.
Qed.

Lemma Forall2_fmap_eq {A B C : Type} (P : A → B → Prop)
      (g : B → C) (k : A → C) (l : list A) (ys : list B) :
  (∀ x y, P x y → g y = k x) → Forall2 P l ys → g <$> ys = k <$> l.
Proof.
  intros Hgk. induction 1 as [|x y l ys Hxy _ IH]; csimpl; [done|].
  by rewrite (Hgk x y Hxy), IH.
Qed.

Lemma Forall2_zip_keys {A : Type} (P : A → Z → Prop) (l : list A) (ks : list Z) :
  Forall2 P l ks → Forall (λ p : Z * A, P p.2 p.1) (zip ks l).
Proof. induction 1; simpl; constructor; done. Qed.

Lemma Forall_pairs_Forall2 {A : Type} (P : A → Z → Prop) (z : list (Z * A)) :
  Forall (λ p : Z * A, P p.2 p.1) z → Forall2 P z.*2 z.*1.
Proof. induction 1; csimpl; constructor; done. Qed.

(** [sorted] rearranges its argument, and the keys of the result ascend. *)
Lemma sorted_ok {A : Type} (key : A → result Z) (l s : list A) :
  Py.sorted key l = Ok s →
  s ≡ₚ l
  ∧ ∃ ks, Forall2 (λ x k, key x = Ok k) s ks ∧ StronglySorted Z.le ks.
Proof.
  unfold Py.sorted. intros H.
  destruct (Py.traverse key l) as [ks0|] eqn:Hks; [|done]. cbn in H.
  apply traverse_ok in Hks.
  set (before := λ a b : Z * A, (a.1 <=? b.1)%Z) in H.
  inversion H as [Hs]. clear H.
  pose proof (stable_sort_perm before (zip ks0 l)) as Hperm.
  split.
  - rewrite Hperm. rewrite snd_zip; [done|].
    apply Forall2_length in Hks. lia.
  - exists (Py.stable_sort before (zip ks0 l)).*1. split.
    + apply Forall_pairs_Forall2. rewrite Hperm.
      by apply (Forall2_zip_keys (λ x k, key x = Ok k)).
    + eapply StronglySorted_fmap; [|apply (stable_sort_sorted before)].
      * intros a b Hab. by apply Z.leb_le.
      * intros a b Hab. unfold before in *. lia.
      * intros a b c Hab Hbc. unfold before in *. lia.
Qed.

(** ** Age-group labels and sort keys *)

Lemma split_free c s : free_of c s = true → Py.split c s = [s].
Proof.
  induction s as [|d s IH]; simpl; [done|].
  intros [Hd Hs]%andb_true_iff. apply negb_true_iff in Hd.
  by rewrite Hd, IH.
Qed.

Lemma split_at c l u :
  free_of c l = true →
  Py.split c (l +:+ String c u) = l :: Py.split c u.
Proof.
  induction l as [|d l IH]; simpl.
  - intros _. by rewrite Ascii.eqb_refl.
  - intros [Hd Hl]%andb_true_iff. apply negb_true_iff in Hd.
    by rewrite Hd, IH.
Qed.

Lemma free_of_app c l u :
  free_of c (l +:+ String c u) = false.
Proof.
  induction l as [|d l IH]; simpl.
  - by rewrite Ascii.eqb_refl.
  - rewrite IH. apply andb_false_r.
Qed.

Lemma range_is_not_100plus l u : l +:+ String "_" u ≠ "100plus".
Proof.
  intros Heq. pose proof (free_of_app "_" l u) as Hfree.
  rewrite Heq in Hfree. discriminate Hfree.
Qed.

Lemma age_label_100plus : age_label "100plus" = Ok "100+".
Proof. reflexivity. Qed.

Lemma age_label_range lower upper :
  free_of "_" lower = true → free_of "_" upper = true →
  age_label (lower +:+ "_" +:+ upper) = Ok (lower +:+ "-" +:+ upper).
Proof.
  intros Hl Hu. unfold age_label.
  change ("_" +:+ upper) with (String "_" upper).
  rewrite bool_decide_eq_false_2 by apply range_is_not_100plus.
  rewrite split_at, split_free by done. reflexivity.
Qed.

Lemma age_group_key_100plus : age_group_key "100plus" = Ok 100.
Proof. reflexivity. Qed.

Lemma age_group_key_range lower upper :
  free_of "_" lower = true →
  age_group_key (lower +:+ "_" +:+ upper) = Py.int_of_str lower.
Proof.
  intros Hl. unfold age_group_key.
  change ("_" +:+ upper) with (String "_" upper).
  rewrite bool_decide_eq_true_2 by apply range_is_not_100plus.
  by rewrite split_at.
Qed.

(** In age_app.py the age groups are displayed in ascending order of the
    sort key, each under its label; the three groups of the specification
    come out as 0_4, 5_9, 100plus from every order of the columns. *)
Lemma sorted_age_groups_ascend (groups s : list string) :
  Py.sorted age_group_key groups = Ok s →
  s ≡ₚ groups
  ∧ ∃ ks, Forall2 (λ x k, age_group_key x = Ok k) s ks
          ∧ StronglySorted Z.le ks.
Proof. apply sorted_ok. Qed.

Lemma sorted_three_age_groups :
  Forall (λ groups, Py.sorted age_group_key groups
                    = Ok ["0_4"; "5_9"; "100plus"])
         [["0_4"; "5_9"; "100plus"]; ["0_4"; "100plus"; "5_9"];
          ["5_9"; "0_4"; "100plus"]; ["5_9"; "100plus"; "0_4"];
          ["100plus"; "0_4"; "5_9"]; ["100plus"; "5_9"; "0_4"]].
Proof. repeat constructor. Qed.

(** ** The bars of the age pyramid *)

Lemma head_rows_cells (df : DataFrame) (r : gmap string value) col :
  head (rows df) = Some r →
  iloc0 ((λ r, cell r col) <$> rows df) = Ok (cell r col).
Proof.
  destruct (rows df) as [|r0 rs]; [done|]. by intros [= ->].
Qed.

(** One step of a computation in [result]: reduce the binds in [H] and
    close the goal when [H] equates an exception with a value. *)
Ltac result_step H :=
  cbn [mbind result_bind mret result_ret div_scalar neg] in H;
  try discriminate H.

(** Decide the proposition [P] whose [bool_decide] stands in [H]. *)
Ltac decide_in H P :=
  let Hd := fresh "Hd" in
  destruct (decide P) as [Hd|Hd];
  [ rewrite (bool_decide_eq_true_2 P Hd) in H
  | rewrite (bool_decide_eq_false_2 P Hd) in H ];
  result_step H.

Lemma pyramid_bar_inv md fd r_m r_f a lbl m f :
  head (rows md) = Some r_m → head (rows fd) = Some r_f →
  pyramid_bar md fd a = Ok (lbl, m, f) →
  age_label a = Ok lbl
  ∧ col_male a ∈ columns md ∧ col_female a ∈ columns fd
  ∧ m = negated_millions (cell r_m (col_male a))
  ∧ f = millions (cell r_f (col_female a)).
Proof.
  intros Hm Hf H. unfold pyramid_bar in H.
  destruct (age_label a) as [l|]; result_step H.
  unfold Pandas.getitem_col in H.
  decide_in H (col_male a ∈ columns md).
  rewrite (head_rows_cells _ _ _ Hm) in H. result_step H.
  destruct (cell r_m (col_male a)) as [s|q|]; result_step H;
    decide_in H (col_female a ∈ columns fd);
    rewrite (head_rows_cells _ _ _ Hf) in H; result_step H;
    (destruct (cell r_f (col_female a)) as [s'|q'|]; result_step H);
    by injection H as <- <- <-.
Qed.

Lemma age_record_inv md fd r_m r_f a lbl m f :
  head (rows md) = Some r_m → head (rows fd) = Some r_f →
  AgeAppShiny.age_record md fd a = Ok (lbl, m, f) →
  age_label a = Ok lbl
  ∧ col_male a ∈ columns md ∧ col_female a ∈ columns fd
  ∧ m = millions_of_negated (cell r_m (col_male a))
  ∧ f = millions (cell r_f (col_female a)).
Proof.
  intros Hm Hf H. unfold AgeAppShiny.age_record in H.
  destruct (age_label a) as [l|]; result_step H.
  unfold Pandas.getitem_col in H.
  decide_in H (col_male a ∈ columns md).
  rewrite (head_rows_cells _ _ _ Hm) in H. result_step H.
  destruct (cell r_m (col_male a)) as [s|q|]; result_step H;
    decide_in H (col_female a ∈ columns fd);
    rewrite (head_rows_cells _ _ _ Hf) in H; result_step H;
    (destruct (cell r_f (col_female a)) as [s'|q'|]; result_step H);
    by injection H as <- <- <-.
Qed.

Section PyramidFigure.

Variables (md fd : DataFrame) (r_m r_f : gmap string value).
Hypothesis Hm : head (rows md) = Some r_m.
Hypothesis Hf : head (rows fd) = Some r_f.

Lemma pyramid_figure_inv get_xticks groups i labels m f title xtl :
  pyramid_figure get_xticks md fd groups i
  = Ok (BarhFigure labels m f title xtl) →
  ∃ sorted_age_groups,
    Py.sorted age_group_key groups = Ok sorted_age_groups
    ∧ Forall2 (λ a l, age_label a = Ok l) sorted_age_groups labels
    ∧ m = (λ a, negated_millions (cell r_m (col_male a)))
            <$> sorted_age_groups
    ∧ f = (λ a, millions (cell r_f (col_female a))) <$> sorted_age_groups
    ∧ xtl = xticklabel <$> get_xticks m f.
Proof.
  unfold pyramid_figure. intros H.
  destruct (Py.sorted age_group_key groups) as [s|]; [|done].
  cbn [mbind result_bind] in H.
  destruct (Py.traverse (pyramid_bar md fd) s) as [bars|] eqn:Hbars;
    [|done].
  cbn [mbind result_bind] in H. apply traverse_ok in Hbars.
  injection H as <- <- <- _ <-.
  exists s. split; [done|].
  assert (Hinv : ∀ a y, pyramid_bar md fd a = Ok y →
            age_label a = Ok y.1.1
            ∧ y.1.2 = negated_millions (cell r_m (col_male a))
            ∧ y.2 = millions (cell r_f (col_female a))).
  { intros a [[l m0] f0] Hy.
    by destruct (pyramid_bar_inv _ _ _ _ _ _ _ _ Hm Hf Hy)
      as (? & _ & _ & ? & ?). }
  split; [|split; [|split; [|done]]].
  - rewrite <- list_fmap_compose. apply Forall2_fmap_r.
    eapply Forall2_impl; [exact Hbars|]. intros a y Hy. by apply Hinv.
  - rewrite <- list_fmap_compose.
    eapply Forall2_fmap_eq; [|exact Hbars].
    intros a y Hy. by apply Hinv.
  - eapply Forall2_fmap_eq; [|exact Hbars].
    intros a y Hy. by apply Hinv.
Qed.

Lemma shiny_pyramid_figure_inv groups i age m f title ticktext :
  AgeAppShiny.pyramid_figure md fd groups i
  = Ok (AgeAppShiny.PyramidFigure age m f title ticktext) →
  Forall2 (λ a l, age_label a = Ok l) groups age
  ∧ m = (λ a, millions_of_negated (cell r_m (col_male a))) <$> groups
  ∧ f = (λ a, millions (cell r_f (col_female a))) <$> groups
  ∧ Forall2 (λ v t, ∃ x, v = VNum x
                         ∧ t = Py.str (Z.abs (Py.int_of_float x)))
            m ticktext.
Proof.
  unfold AgeAppShiny.pyramid_figure. intros H.
  destruct (Py.traverse (AgeAppShiny.age_record md fd) groups)
    as [age_data|] eqn:Hdata; [|done].
  cbn [mbind result_bind] in H. apply traverse_ok in Hdata.
  case_bool_decide; [done|]. cbn [mbind result_bind] in H.
  destruct (Py.traverse AgeAppShiny.ticktext_of age_data.*1.*2)
    as [tt|] eqn:Htt; [|done].
  cbn [mbind result_bind] in H. apply traverse_ok in Htt.
  injection H as <- <- <- _ <-.
  assert (Hinv : ∀ a y, AgeAppShiny.age_record md fd a = Ok y →
            age_label a = Ok y.1.1
            ∧ y.1.2 = millions_of_negated (cell r_m (col_male a))
            ∧ y.2 = millions (cell r_f (col_female a))).
  { intros a [[l m0] f0] Hy.
    by destruct (age_record_inv _ _ _ _ _ _ _ _ Hm Hf Hy)
      as (? & _ & _ & ? & ?). }
  assert (Hmale : age_data.*1.*2
            = (λ a, millions_of_negated (cell r_m (col_male a)))
                <$> groups).
  { rewrite <- list_fmap_compose.
    eapply Forall2_fmap_eq; [|exact Hdata].
    intros a y Hy. by apply Hinv. }
  split; [|split; [done|split]].
  - rewrite <- list_fmap_compose. apply Forall2_fmap_r.
    eapply Forall2_impl; [exact Hdata|]. intros a y Hy. by apply Hinv.
  - eapply Forall2_fmap_eq; [|exact Hdata].
    intros a y Hy. by apply Hinv.
  - rewrite Hmale in Htt |- *.
    apply Forall2_fmap_l. apply Forall2_fmap_l in Htt.
    eapply Forall2_impl; [exact Htt|]. intros a t Ht. cbn in Ht |- *.
    unfold millions_of_negated in *.
    destruct (cell r_m (col_male a)) as [s|q|]; [done| |done].
    exists (- q / 1000000)%Q. split; [done|].
    cbn in Ht. by injection Ht as <-.
Qed.

End PyramidFigure.

(** ** Truncated tick labels *)

Lemma int_of_float_opp (x : Q) :
  Py.int_of_float (- x) = - Py.int_of_float x.
Proof.
  unfold Py.int_of_float. destruct x as [n d]. simpl.
  by rewrite Z.quot_opp_l.
Qed.

Lemma abs_int_of_float (x : Q) :
  Z.abs (Py.int_of_float x) = Z.abs (Qnum x) / Z.pos (Qden x).
Proof.
  unfold Py.int_of_float.
  rewrite <- Z.quot_abs by done. simpl Z.abs at 2.
  apply Z.quot_div_nonneg; lia.
Qed.

Lemma abs_int_of_float_bounds (x : Q) :
  (inject_Z (Z.abs (Py.int_of_float x)) <= Qabs x)%Q
  ∧ (Qabs x < inject_Z (Z.abs (Py.int_of_float x)) + 1)%Q.
Proof.
  rewrite abs_int_of_float. destruct x as [n d].
  unfold Qle, Qlt. simpl. rewrite !Z.mul_1_r.
  pose proof (Z.mul_div_le (Z.abs n) (Z.pos d) eq_refl).
  pose proof (Z.mul_succ_div_gt (Z.abs n) (Z.pos d) eq_refl).
  split; lia.
Qed.

Lemma abs_int_of_float_integer (k : Z) :
  Z.abs (Py.int_of_float (inject_Z k)) = Z.abs k.
Proof. unfold Py.int_of_float. simpl. by rewrite Z.quot_1_r. Qed.

(** The two pyramids of the sample tables for World, 1950. *)
Lemma sample_render_shiny :
  match (AgeAppShiny.age_distribution_render
           Sample.globals (mkInput "World" 1950 1950) Sample.store).1 with
  | Ok (AgeAppShiny.PyramidFigure age m f title ticktext) =>
      age = ["100+"; "0-4"; "5-9"]
      ∧ m = [VNum (-2000 # 1000000); VNum (-172500000 # 1000000);
             VNum (-140000000 # 1000000)]
      ∧ ticktext = ["0"; "172"; "140"]
  | _ => False
  end.
Proof. vm_compute. by repeat split. Qed.

Lemma sample_render_matplotlib (xticks : list Q) :
  match (age_distribution_plot
           (λ _ _, xticks) Sample.globals (mkInput "World" 1950 1950)
           Sample.store).1 with
  | Ok (BarhFigure labels m f title xtl) =>
      labels = ["0-4"; "5-9"; "100+"]
      ∧ m = [VNum (-(172500000 # 1000000)); VNum (-(140000000 # 1000000));
             VNum (-(2000 # 1000000))]
      ∧ xtl = xticklabel <$> xticks
  | _ => False
  end.
Proof. vm_compute. by repeat split. Qed.

Lemma sample_plot_run (xticks : list Q) :
  ∃ m f title h',
    age_distribution_plot
      (λ _ _, xticks) Sample.globals (mkInput "World" 1950 1950) Sample.store
    = (Ok (BarhFigure ["0-4"; "5-9"; "100+"] m f title
                      (xticklabel <$> xticks)), h').
Proof.
  pose proof (sample_render_matplotlib xticks) as H.
  destruct (age_distribution_plot _ _ _ _)
    as [[[|labels m f title xtl|]|] h']; try done.
  destruct H as (-> & _ & ->). by eexists _, _, _, _.
Qed.

Lemma sample_render_run :
  ∃ age f title h',
    AgeAppShiny.age_distribution_render
      Sample.globals (mkInput "World" 1950 1950) Sample.store
    = (Ok (AgeAppShiny.PyramidFigure
             age
             [VNum (-2000 # 1000000); VNum (-172500000 # 1000000);
              VNum (-140000000 # 1000000)]
             f title ["0"; "172"; "140"]), h')
    ∧ age = ["100+"; "0-4"; "5-9"].
Proof.
  pose proof sample_render_shiny as H.
  destruct (AgeAppShiny.age_distribution_render _ _ _)
    as [[[|age m f title ticktext|]|] h']; try done.
  destruct H as (-> & -> & ->). by eexists _, _, _, _.
Qed.

(** C7.  The age-group columns of the sample tables stand in the order
    100plus, 0_4, 5_9.  [age_app.py] sorts the groups before drawing and
    shows 0-4, 5-9, 100+; [age_app_shiny.py] draws them as they stand and
    shows 100+, 0-4, 5-9. *)
Lemma shiny_pyramid_keeps_column_order :
  (∃ m f title ticktext h',
      AgeAppShiny.age_distribution_render
        Sample.globals (mkInput "World" 1950 1950) Sample.store
      = (Ok (AgeAppShiny.PyramidFigure ["100+"; "0-4"; "5-9"]
                                       m f title ticktext), h'))
  ∧ (∃ m f title xtl h',
        age_distribution_plot
          (λ _ _, []) Sample.globals (mkInput "World" 1950 1950) Sample.store
        = (Ok (BarhFigure ["0-4"; "5-9"; "100+"] m f title xtl), h')).
Proof.
  split.
  - destruct sample_render_run as (age & f & title & h' & Hrun & ->).
    by eexists _, _, _, _, _.
  - destruct (sample_plot_run []) as (m & f & title & h' & Hrun).
    by eexists _, _, _, _, _.
Qed.

(** C8, as the code has it.  In a render that draws bars, the male value
    of every age group is the negated male population in millions and the
    female value is the female population in millions.  A tick label is
    the decimal text of [abs(int(x))]: the tick value cut to its integer
    part, without its sign.  It is the same for [x] and [-x], lies within
    one below the magnitude of [x], and is the magnitude when [x] is a
    whole number.  The labels are those [age_app.py] sets for the tick
    positions of the axis. *)
Theorem pyramid_bars_mirrored_and_ticks_truncated
        (get_xticks : list value → list value → list Q)
        (g : Globals) (i : Input) (h : gmap nat DataFrame)
        (male female : DataFrame) :
  h !! male_popl_by_age_df g = Some male →
  h !! female_popl_by_age_df g = Some female →
  "entities" ∈ columns male → "years" ∈ columns male →
  "entities" ∈ columns female → "years" ∈ columns female →
  (∀ labels m f title xtl h',
      age_distribution_plot get_xticks g i h
      = (Ok (BarhFigure labels m f title xtl), h') →
      ∃ sorted_age_groups r_m r_f,
        head (rows (selection i male)) = Some r_m
        ∧ head (rows (selection i female)) = Some r_f
        ∧ Py.sorted age_group_key (male_age_groups g) = Ok sorted_age_groups
        ∧ m = (λ a, negated_millions (cell r_m (col_male a)))
                <$> sorted_age_groups
        ∧ f = (λ a, millions (cell r_f (col_female a)))
                <$> sorted_age_groups
        ∧ xtl = (λ x, Py.str (Z.abs (Py.int_of_float x)))
                  <$> get_xticks m f)
  ∧ (∀ age m f title ticktext h',
        AgeAppShiny.age_distribution_render g i h
        = (Ok (AgeAppShiny.PyramidFigure age m f title ticktext), h') →
        ∃ r_m r_f,
          head (rows (selection i male)) = Some r_m
          ∧ head (rows (selection i female)) = Some r_f
          ∧ m = (λ a, millions_of_negated (cell r_m (col_male a)))
                  <$> male_age_groups g
          ∧ f = (λ a, millions (cell r_f (col_female a)))
                  <$> male_age_groups g)
  ∧ (∀ x : Q,
        Z.abs (Py.int_of_float (- x)) = Z.abs (Py.int_of_float x)
        ∧ (inject_Z (Z.abs (Py.int_of_float x)) <= Qabs x)%Q
        ∧ (Qabs x < inject_Z (Z.abs (Py.int_of_float x)) + 1)%Q)
  ∧ (∀ k : Z, Z.abs (Py.int_of_float (inject_Z k)) = Z.abs k).
Proof.
  intros Hm Hf Hme Hmy Hfe Hfy. split; [|split; [|split]].
  - intros labels m f title xtl h' Hrun.
    destruct (age_distribution_plot_bars g i h male female Hm Hf Hme Hmy
                Hfe Hfy get_xticks _ _ _ _ _ _ Hrun)
      as (r_m & r_f & Hrm & Hrf & Hfig).
    destruct (pyramid_figure_inv _ _ _ _ Hrm Hrf _ _ _ _ _ _ _ _ Hfig)
      as (s & Hs & _ & Hmale & Hfemale & Hx).
    by exists s, r_m, r_f.
  - intros age m f title ticktext h' Hrun.
    destruct (age_distribution_render_bars g i h male female Hm Hf Hme Hmy
                Hfe Hfy _ _ _ _ _ _ Hrun)
      as (r_m & r_f & Hrm & Hrf & Hfig).
    destruct (shiny_pyramid_figure_inv _ _ _ _ Hrm Hrf _ _ _ _ _ _ _ Hfig)
      as (_ & Hmale & Hfemale & _).
    by exists r_m, r_f.
  - intros x. split; [by rewrite int_of_float_opp, Z.abs_opp|].
    apply abs_int_of_float_bounds.
  - apply abs_int_of_float_integer.
Qed.

Lemma pyramid_bars_mirrored_and_ticks_truncated_witness :
  ∃ m f title h' r_m r_f,
    age_distribution_plot (λ _ _, [- 5 # 2; 0; 5 # 2]%Q) Sample.globals
                          (mkInput "World" 1950 1950) Sample.store
    = (Ok (BarhFigure ["0-4"; "5-9"; "100+"] m f title ["2"; "0"; "2"]), h')
    ∧ head (rows (selection (mkInput "World" 1950 1950) Sample.male_table))
      = Some r_m
    ∧ head (rows (selection (mkInput "World" 1950 1950) Sample.female_table))
      = Some r_f
    ∧ m = (λ a, negated_millions (cell r_m (col_male a)))
            <$> ["0_4"; "5_9"; "100plus"]
    ∧ f = (λ a, millions (cell r_f (col_female a)))
            <$> ["0_4"; "5_9"; "100plus"].
Proof.
  destruct (pyramid_bars_mirrored_and_ticks_truncated
              (λ _ _, [- 5 # 2; 0; 5 # 2]%Q) Sample.globals
              (mkInput "World" 1950 1950) Sample.store
              Sample.male_table Sample.female_table)
    as (Hplot & _);
    [reflexivity | reflexivity | set_solver | set_solver | set_solver
    | set_solver |].
  destruct (sample_plot_run [- 5 # 2; 0; 5 # 2]%Q)
    as (m & f & title & h' & Hrun).
  destruct (Hplot _ _ _ _ _ _ Hrun)
    as (s & r_m & r_f & Hrm & Hrf & Hs & Hmale & Hfemale & _).
  exists m, f, title, h', r_m, r_f.
  assert (s = ["0_4"; "5_9"; "100plus"]) as ->
    by (vm_compute in Hs; congruence).
  exact (conj Hrun (conj Hrm (conj Hrf (conj Hmale Hfemale)))).
Defined.

(** C8 with "the label is the magnitude of the tick value" fails: in the
    matplotlib pyramid of the sample tables with ticks at -2.5, 0 and 2.5
    the labels are "2", "0" and "2", and 2 is not the magnitude of -2.5. *)
Lemma tick_label_is_not_the_magnitude :
  (∃ m f title h',
      age_distribution_plot (λ _ _, [- 5 # 2; 0; 5 # 2]%Q) Sample.globals
                            (mkInput "World" 1950 1950) Sample.store
      = (Ok (BarhFigure ["0-4"; "5-9"; "100+"] m f title ["2"; "0"; "2"]),
         h'))
  ∧ xticklabel (- 5 # 2) = "2"
  ∧ Py.str 2 = "2"
  ∧ ¬ (inject_Z 2 == Qabs (- 5 # 2))%Q.
Proof.
  split; [|split; [reflexivity|split; [reflexivity|by intros H]]].
  destruct (sample_plot_run [- 5 # 2; 0; 5 # 2]%Q)
    as (m & f & title & h' & Hrun).
  by exists m, f, title, h'.
Qed.

(** ** The loaded tables are never assigned to *)

Import Reactive.

Section Safe.

Variable G : gset nat.

Lemma safe_ret {A : Type} (a : A) (Q : A → Prop) :
  Q a → safe G (mret a) Q.
Proof. intros HQ h _. split; [done|]. by intros ? [= <-]. Qed.

Lemma safe_lift {A : Type} (r : result A) :
  safe G (lift r) (λ a, r = Ok a).
Proof. intros h _. split; [done|]. by intros a Ha. Qed.

Lemma safe_weaken {A : Type} (m : M A) (Q R : A → Prop) :
  safe G m Q → (∀ a, Q a → R a) → safe G m R.
Proof.
  intros Hm HQR h Hsub. destruct (Hm h Hsub) as [Hk HQ]. split; [done|].
  intros a Ha. by apply HQR, HQ.
Qed.

Lemma safe_bind {A B : Type} (m : M A) (f : A → M B)
      (Q : A → Prop) (R : B → Prop) :
  safe G m Q → (∀ a, Q a → safe G (f a) R) → safe G (m ≫= f) R.
Proof.
  intros Hm Hf h Hsub. destruct (Hm h Hsub) as [Hk HQ].
  unfold mbind, M_bind. destruct (m h) as [[a|e] h1]; simpl in *.
  - assert (Hsub1 : G ⊆ dom h1).
    { intros p Hp. apply elem_of_dom. rewrite (Hk p Hp).
      apply elem_of_dom. by apply Hsub. }
    destruct (Hf a (HQ a eq_refl) h1 Hsub1) as [Hk1 HR]. split; [|done].
    intros p Hp. by rewrite (Hk1 p Hp), (Hk p Hp).
  - split; [done|]. by intros.
Qed.

Lemma safe_load (p : ref) : safe G (load p) (λ _, True).
Proof.
  intros h _. unfold load. by destruct (h !! p).
Qed.

Lemma safe_alloc (df : DataFrame) : safe G (alloc df) (λ p, p ∉ G).
Proof.
  intros h Hsub. unfold alloc. simpl. split.
  - intros p Hp. apply lookup_insert_ne. intros Heq. subst p.
    apply (is_fresh (dom h)). by apply Hsub.
  - intros a [= <-] Hin. apply (is_fresh (dom h)). by apply Hsub.
Qed.

Lemma safe_write (p : ref) (df : DataFrame) :
  p ∉ G → safe G (DF.write p df) (λ _, True).
Proof.
  intros Hp h _. unfold DF.write. simpl. split; [|done].
  intros q Hq. apply lookup_insert_ne. by intros ->.
Qed.

Lemma safe_getitem_col (p : ref) col :
  safe G (DF.getitem_col p col) (λ _, True).
Proof.
  eapply safe_bind; [apply safe_load|]. intros df _.
  eapply safe_weaken; [apply safe_lift|]. done.
Qed.

Lemma safe_getitem_mask (p : ref) mask :
  safe G (DF.getitem_mask p mask) (λ q, q ∉ G).
Proof.
  eapply safe_bind; [apply safe_load|]. intros df _.
  eapply safe_bind; [apply safe_lift|]. intros df' _.
  apply safe_alloc.
Qed.

Lemma safe_copy (p : ref) : safe G (DF.copy p) (λ q, q ∉ G).
Proof.
  eapply safe_bind; [apply safe_load|]. intros df _. apply safe_alloc.
Qed.

Lemma safe_setitem (p : ref) col data :
  p ∉ G → safe G (DF.setitem p col data) (λ _, True).
Proof.
  intros Hp. eapply safe_bind; [apply safe_load|]. intros df _.
  eapply safe_bind; [apply safe_lift|]. intros df' _.
  by apply safe_write.
Qed.

Lemma safe_empty (p : ref) : safe G (DF.empty p) (λ _, True).
Proof.
  eapply safe_bind; [apply safe_load|]. intros df _. by apply safe_ret.
Qed.

Lemma safe_lift_any {A : Type} (r : result A) : safe G (lift r) (λ _, True).
Proof. eapply safe_weaken; [apply safe_lift|]. done. Qed.

(** One statement of a handler: run it, name its value. *)
Ltac safe_step :=
  eapply safe_bind;
  [ first [ apply safe_getitem_col | apply safe_getitem_mask
          | apply safe_copy | apply safe_empty | apply safe_load
          | apply safe_lift_any
          | apply safe_setitem; assumption ]
  | intros ? ? ].

Variable g : Globals.

Lemma safe_get_population_data i :
  safe G (get_population_data g i) (λ r, (fst r ∉ G) ∧ (snd r ∉ G)).
Proof.
  unfold get_population_data. do 6 safe_step. by apply safe_ret.
Qed.

Lemma safe_median_filtered_df :
  safe G (median_filtered_df g) (λ p, p ∉ G).
Proof.
  unfold median_filtered_df. do 7 safe_step. by apply safe_ret.
Qed.

Lemma safe_get_median_data i :
  safe G (get_median_data g i) (λ r, r.1 ∉ G).
Proof.
  unfold get_median_data.
  eapply safe_bind; [apply safe_median_filtered_df|]. intros p Hp.
  do 2 safe_step. by apply safe_ret.
Qed.

Lemma safe_age_distribution_plot_body get_xticks data i :
  safe G (age_distribution_plot_body get_xticks data g i) (λ _, True).
Proof.
  unfold age_distribution_plot_body. destruct data as [male_data female_data].
  safe_step.
  eapply safe_bind with (Q := λ _, True).
  { destruct a; [by apply safe_ret | apply safe_empty]. }
  intros [] _; [by apply safe_ret|].
  do 2 safe_step. apply safe_lift_any.
Qed.

Lemma safe_median_age_plot_body data i :
  safe G (median_age_plot_body data i) (λ _, True).
Proof.
  unfold median_age_plot_body. destruct data as [year_data is_projection].
  safe_step. destruct a; [by apply safe_ret|].
  do 7 safe_step. by apply safe_ret.
Qed.

Lemma safe_age_distribution_render_body data i :
  safe G (AgeAppShiny.age_distribution_render_body data g i) (λ _, True).
Proof.
  unfold AgeAppShiny.age_distribution_render_body.
  destruct data as [male_data female_data]. safe_step.
  eapply safe_bind with (Q := λ _, True).
  { destruct a; [by apply safe_ret | apply safe_empty]. }
  intros [] _; [by apply safe_ret|].
  do 2 safe_step. apply safe_lift_any.
Qed.

(** The plotly chart assigns the column [custom_text] to the frame the
    calculation returned; that frame must not be one of [G]. *)
Lemma safe_median_age_render_body data i :
  fst data ∉ G →
  safe G (AgeAppShiny.median_age_render_body data i) (λ _, True).
Proof.
  unfold AgeAppShiny.median_age_render_body.
  destruct data as [year_data is_projection]. simpl. intros Hfresh.
  safe_step. destruct a; [by apply safe_ret|].
  do 6 safe_step. by apply safe_ret.
Qed.

Lemma safe_read {A : Type} (slot : option A) (calc : M A) (Q : A → Prop) :
  (∀ a, slot = Some a → Q a) → safe G calc Q → safe G (read slot calc) Q.
Proof.
  intros Hslot Hcalc. destruct slot as [a|]; simpl; [|done].
  apply safe_ret. by apply Hslot.
Qed.

(** A step over a calculation leaves [G] alone when the calculation and
    the rest of the handler do, and remembers a value the calculation
    could have returned. *)
Lemma over_keeps {A F : Type} (slot : option A) (calc : M A)
      (body : A → M F) (Q : A → Prop) (h : gmap nat DataFrame) :
  G ⊆ dom h →
  (∀ a, slot = Some a → Q a) →
  safe G calc Q →
  (∀ a, Q a → safe G (body a) (λ _, True)) →
  (∀ p, p ∈ G → (over slot calc body h).1 !! p = h !! p)
  ∧ (∀ a, (over slot calc body h).2 = Some a → Q a).
Proof.
  intros Hsub Hslot Hcalc Hbody. unfold over.
  destruct (safe_read slot calc Q Hslot Hcalc h Hsub) as [Hk HQ].
  destruct (read slot calc h) as [[a|e] h1]; simpl in *.
  - assert (Hsub1 : G ⊆ dom h1).
    { intros p Hp. apply elem_of_dom. rewrite (Hk p Hp).
      apply elem_of_dom. by apply Hsub. }
    destruct (Hbody a (HQ a eq_refl) h1 Hsub1) as [Hk1 _]. split.
    + intros p Hp. by rewrite (Hk1 p Hp), (Hk p Hp).
    + intros a' [= <-]. by apply HQ.
  - split; [done|]. intros a Ha. by apply Hslot.
Qed.

Lemma recompute_keeps get_xticks (e : Recompute)
      (st : gmap nat DataFrame * Cache) :
  G ⊆ dom st.1 → outside G st.2 →
  (∀ p, p ∈ G → (recompute get_xticks g st e).1 !! p = st.1 !! p)
  ∧ outside G (recompute get_xticks g st e).2.
Proof.
  intros Hsub [Hpop Hmed].
  assert (Hover_pop : ∀ (F : Type) (body : ref * ref → M F) i,
            (∀ data, safe G (body data) (λ _, True)) →
            (∀ p, p ∈ G → (over_population g body i st).1 !! p = st.1 !! p)
            ∧ outside G (over_population g body i st).2).
  { intros F body i Hbody. unfold over_population.
    destruct (over_keeps (population_data st.2) (get_population_data g i)
                body (λ r, (fst r ∉ G) ∧ (snd r ∉ G)) st.1 Hsub Hpop
                (safe_get_population_data i) (λ a _, Hbody a)) as [Hk Hv].
    destruct (over _ _ _ _) as [h' v]. simpl in *.
    split; [exact Hk|]. split; [exact Hv | exact Hmed]. }
  assert (Hover_med : ∀ (F : Type) (body : ref * bool → M F) i,
            (∀ data, fst data ∉ G → safe G (body data) (λ _, True)) →
            (∀ p, p ∈ G → (over_median g body i st).1 !! p = st.1 !! p)
            ∧ outside G (over_median g body i st).2).
  { intros F body i Hbody. unfold over_median.
    destruct (over_keeps (median_data st.2) (get_median_data g i)
                body (λ r, fst r ∉ G) st.1 Hsub Hmed
                (safe_get_median_data i) Hbody) as [Hk Hv].
    destruct (over _ _ _ _) as [h' v]. simpl in *.
    split; [exact Hk|]. split; [exact Hpop | exact Hv]. }
  destruct e as [| |i|i|i|i|i|i]; simpl.
  - split; [done|]. by split.
  - split; [done|]. by split.
  - apply Hover_pop. intros data. by apply safe_ret.
  - apply Hover_med. intros data _. by apply safe_ret.
  - apply Hover_pop. intros data. apply safe_age_distribution_plot_body.
  - apply Hover_med. intros data _. apply safe_median_age_plot_body.
  - apply Hover_pop. intros data. apply safe_age_distribution_render_body.
  - apply Hover_med. intros data Hd. by apply safe_median_age_render_body.
Qed.

Lemma recompute_all_keeps get_xticks (es : list Recompute) :
  ∀ st : gmap nat DataFrame * Cache,
    G ⊆ dom st.1 → outside G st.2 →
    ∀ p, p ∈ G → (recompute_all get_xticks g es st).1 !! p = st.1 !! p.
Proof.
  induction es as [|e es IH]; intros st Hsub Hc p Hp; simpl; [done|].
  destruct (recompute_keeps get_xticks e st Hsub Hc) as [Hk Hc'].
  rewrite IH; [by apply Hk | | done | done].
  intros q Hq. apply elem_of_dom. rewrite (Hk q Hq).
  apply elem_of_dom. by apply Hsub.
Qed.

End Safe.

(** With nothing cached, a render step is a run of the handler. *)
Lemma recompute_runs_handler
      (get_xticks : list value → list value → list Q) (g : Globals)
      (i : Input) (h : gmap nat DataFrame) :
  (recompute get_xticks g (h, no_cache) (AgeDistributionPlot i)).1
  = (age_distribution_plot get_xticks g i h).2
  ∧ (recompute get_xticks g (h, no_cache) (MedianAgePlot i)).1
    = (median_age_plot g i h).2
  ∧ (recompute get_xticks g (h, no_cache) (AgeDistributionRender i)).1
    = (AgeAppShiny.age_distribution_render g i h).2
  ∧ (recompute get_xticks g (h, no_cache) (MedianAgeRender i)).1
    = (AgeAppShiny.median_age_render g i h).2.
Proof.
  unfold recompute, over_population, over_median, over, read.
  unfold age_distribution_plot, median_age_plot.
  unfold AgeAppShiny.age_distribution_render, AgeAppShiny.median_age_render.
  unfold AgeAppShiny.get_population_data, AgeAppShiny.get_median_data.
  unfold mbind, M_bind. simpl.
  destruct (get_population_data g i h) as [[data|e] h1];
    destruct (get_median_data g i h) as [[data'|e'] h2]; done.
Qed.

(** C9.  In a store that holds the three loaded tables, any sequence of
    recomputations (invalidations, the two calculations and the four
    renders, for any inputs, with cached values read where there are any)
    ends in a store where [male_popl_by_age_df], [female_popl_by_age_df]
    and [median_df] are the frames they were, as is every other frame of
    the store the sequence started from.  A run of a calculation alone
    leaves them unchanged, and the column [median_age_combined] is
    assigned to a frame that did not exist before the calculation. *)
Theorem loaded_tables_unchanged
        (get_xticks : list value → list value → list Q) (g : Globals)
        (h : gmap nat DataFrame) (male female median : DataFrame) :
  h !! male_popl_by_age_df g = Some male →
  h !! female_popl_by_age_df g = Some female →
  h !! median_df g = Some median →
  (∀ es : list Recompute,
      (recompute_all get_xticks g es (h, no_cache)).1
        !! male_popl_by_age_df g = Some male
      ∧ (recompute_all get_xticks g es (h, no_cache)).1
          !! female_popl_by_age_df g = Some female
      ∧ (recompute_all get_xticks g es (h, no_cache)).1
          !! median_df g = Some median
      ∧ ∀ p df, h !! p = Some df →
                (recompute_all get_xticks g es (h, no_cache)).1 !! p
                = Some df)
  ∧ (∀ i, (get_population_data g i h).2 !! male_popl_by_age_df g = Some male
          ∧ (get_population_data g i h).2 !! female_popl_by_age_df g
            = Some female)
  ∧ (∀ i, (get_median_data g i h).2 !! median_df g = Some median)
  ∧ (∀ p, (median_filtered_df g h).1 = Ok p → h !! p = None).
Proof.
  intros Hm Hf Hd.
  assert (Hall : ∀ es p df, h !! p = Some df →
            (recompute_all get_xticks g es (h, no_cache)).1 !! p = Some df).
  { intros es p df Hp.
    rewrite (recompute_all_keeps (dom h) g get_xticks es (h, no_cache));
      [done | done | by split | ].
    apply elem_of_dom. eauto. }
  split; [|split; [|split]].
  - intros es. repeat split; auto.
  - intros i.
    destruct (safe_get_population_data (dom h) g i h) as [Hk _]; [done|].
    split; rewrite Hk; try done; apply elem_of_dom; eauto.
  - intros i.
    destruct (safe_get_median_data (dom h) g i h) as [Hk _]; [done|].
    rewrite Hk; [done|]. apply elem_of_dom; eauto.
  - intros p Hp.
    destruct (safe_median_filtered_df (dom h) g h) as [_ Hfresh]; [done|].
    apply not_elem_of_dom. by apply Hfresh.
Qed.

Lemma loaded_tables_unchanged_witness :
  Forall (λ st : gmap nat DataFrame * Cache,
            st.1 !! 0%nat = Some Sample.male_table
            ∧ st.1 !! 1%nat = Some Sample.female_table
            ∧ st.1 !! 2%nat = Some Sample.median_table)
         [recompute_all (λ _ _, []) Sample.globals
            [MedianData (mkInput "World" 1950 2024);
             MedianAgeRender (mkInput "World" 1950 2024);
             AgeDistributionPlot (mkInput "World" 1950 1950)]
            (Sample.store, no_cache)].
Proof.
  destruct (loaded_tables_unchanged
              (λ _ _, []) Sample.globals Sample.store
              Sample.male_table Sample.female_table Sample.median_table)
    as (Hall & _); [reflexivity | reflexivity | reflexivity |].
  destruct (Hall [MedianData (mkInput "World" 1950 2024);
                  MedianAgeRender (mkInput "World" 1950 2024);
                  AgeDistributionPlot (mkInput "World" 1950 1950)])
    as (Hmale & Hfemale & Hmedian & _).
  constructor; [|constructor].
  exact (conj Hmale (conj Hfemale Hmedian)).
Defined.

(** The frame a calculation has cached is another matter: after the
    median calculation and one plotly render of the sample tables, the
    cached frame carries the column [custom_text] the render assigned. *)
Lemma median_age_render_assigns_to_cached_frame :
  match recompute_all (λ _ _, []) Sample.globals
          [MedianData (mkInput "World" 1950 2024);
           MedianAgeRender (mkInput "World" 1950 2024)]
          (Sample.store, no_cache) with
  | (h', c) =>
      match median_data c with
      | Some (year_data, _) =>
          (columns <$> h' !! year_data)
          = Some ["entities"; "years"; estimates_column; medium_column;
                  "median_age_combined"; "custom_text"]
      | None => False
      end
  end.
Proof. vm_compute. reflexivity. Qed.

(** ** The builtins on small inputs *)

Example split_0_4 : Py.split "_" "0_4" = ["0"; "4"].
Proof. reflexivity. Qed.
Example split_100plus : Py.split "_" "100plus" = ["100plus"].
Proof. reflexivity. Qed.
Example int_15 : Py.int_of_str "15" = Ok 15.
Proof. reflexivity. Qed.
Example int_100plus : Py.int_of_str "100plus" = Raise ValueError.
Proof. reflexivity. Qed.
Example int_float : Py.int_of_float (-5 # 2) = -2.
Proof. reflexivity. Qed.
Example fmt_1 : Py.format_1f (-123 # 100) = "-1.2".
Proof. reflexivity. Qed.
Example fmt_2 : Py.format_1f (3 # 4) = "0.8".
Proof. reflexivity. Qed.
Example fmt_3 : Py.format_1f (1 # 4) = "0.2".
Proof. reflexivity. Qed.
Example sorted_1 :
  Py.sorted (fun x : Z => Ok (x / 10)) [31; 12; 35; 5; 11] = Ok [5; 12; 11; 31; 35].
Proof. reflexivity. Qed.

(* ===================================================================== *)
(** * Further properties of the handlers *)
(* ===================================================================== *)

Import Ui.

(** ** Buttons, loops and reset *)

Lemma handle_keeps_labels g s e s' :
  labels_match s → handle g s e = Ok s' → labels_match s'.
Proof.
  destruct s as [i a m la lm]. unfold labels_match. simpl.
  intros [-> ->] He.
  destruct e; simpl in He;
    try (injection He as <-; by destruct a, m).
  - unfold _animate_age_distribution in He. simpl in He.
    destruct a; [|by injection He as <-].
    destruct (Py.max (available_years g)) as [B|]; [|done]. cbn in He.
    case_bool_decide; cbn in He; by injection He as <-.
  - injection He as <-. unfold _animate_median_age. simpl.
    destruct m; [|done]. by case_bool_decide.
Qed.

(** X1.  Whatever the user and the two animation effects do, starting
    from the page as first shown, each play button reads "Pause" exactly
    while its loop is playing and "Play" while it is idle. *)
Theorem play_buttons_show_the_loop_state
        (g : Globals) (es : list Event) (s : Session) :
  handle_all g es initial = Ok s →
  labels_match s
  ∧ (play_age_distribution_label s = "Pause"
     ↔ animating_age_distribution s = true)
  ∧ (play_median_age_label s = "Pause" ↔ animating_median_age s = true).
Proof.
  assert (Hinv : ∀ es s0 s1, labels_match s0 →
            handle_all g es s0 = Ok s1 → labels_match s1).
  { clear. induction es as [|e es IH]; intros s0 s1 H0 Hrun; simpl in Hrun.
    - by injection Hrun as <-.
    - destruct (handle g s0 e) as [s'|] eqn:He; [|done]. cbn in Hrun.
      eapply IH; [|exact Hrun]. by eapply handle_keeps_labels. }
  intros Hrun.
  assert (Hl : labels_match s) by (eapply Hinv; [|exact Hrun]; by split).
  split; [done|]. destruct Hl as [Ha Hm]. rewrite Ha, Hm.
  split; [destruct (animating_age_distribution s)
         |destruct (animating_median_age s)]; by split.
Qed.

Lemma play_buttons_show_the_loop_state_witness :
  ∃ s, handle_all Sample.globals
         [ClickPlayAgeDistribution; RunAnimateAgeDistribution;
          ClickPlayMedianAge; RunAnimateAgeDistribution;
          RunAnimateMedianAge; SlideYear 1950; ClickPlayMedianAge]
         initial = Ok s
       ∧ year (input s) = 1950 ∧ median_year (input s) = 1951
       ∧ animating_age_distribution s = false
       ∧ play_age_distribution_label s = "Play"
       ∧ play_median_age_label s = "Play".
Proof.
  eexists. split; [reflexivity|].
  destruct (play_buttons_show_the_loop_state
              Sample.globals
              [ClickPlayAgeDistribution; RunAnimateAgeDistribution;
               ClickPlayMedianAge; RunAnimateAgeDistribution;
               RunAnimateMedianAge; SlideYear 1950; ClickPlayMedianAge]
              _ eq_refl) as ([Ha Hm] & _).
  split; [reflexivity|]. split; [reflexivity|]. split; [reflexivity|].
  split; [exact Ha | exact Hm].
Defined.

(** ** Consecutive runs of the median effect *)

Lemma median_age_ticks_advance n : ∀ s,
  animating_median_age s = true →
  median_year (input s) + Z.of_nat n ≤ 2100 →
  median_age_ticks n s = set_median_year (median_year (input s) + Z.of_nat n) s.
Proof.
  induction n as [|n IH]; intros s Hplay Hle.
  - simpl. rewrite Z.add_0_r. by destruct s as [[] ? ? ? ?].
  - cbn [median_age_ticks].
    rewrite animate_median_age_advance by (done || lia).
    cbn [fst]. rewrite IH by (done || simpl; lia).
    simpl. unfold set_median_year. simpl. do 2 f_equal. lia.
Qed.

Lemma median_age_ticks_idle n : ∀ s,
  animating_median_age s = false → median_age_ticks n s = s.
Proof.
  induction n as [|n IH]; intros s Hidle; [done|].
  cbn [median_age_ticks]. unfold _animate_median_age. rewrite Hidle.
  by apply IH.
Qed.

Lemma median_age_ticks_app n m s :
  median_age_ticks (n + m) s = median_age_ticks m (median_age_ticks n s).
Proof. revert s. induction n as [|n IH]; intros s; [done|]. apply IH. Qed.

(** ** The position after any number of runs *)

Lemma prompt_age_app n m :
  Page.prompt_age (n + m) = (Page.prompt_age n ++ Page.prompt_age m)%list.
Proof.
  induction n as [|n IH]; [done|].
  cbn [Nat.add Page.prompt_age app]. by rewrite IH.
Qed.

Lemma prompt_median_app n m :
  Page.prompt_median (n + m)
  = (Page.prompt_median n ++ Page.prompt_median m)%list.
Proof.
  induction n as [|n IH]; [done|].
  cbn [Nat.add Page.prompt_median app]. by rewrite IH.
Qed.

Lemma prompt_age_idle g n s ms :
  animating_age_distribution s = false →
  Page.steps g (Page.prompt_age n) (Page.mkState s [] ms)
  = Ok (Page.mkState s [] ms).
Proof.
  intros Hidle. induction n as [|n IH]; [done|].
  cbn [Page.prompt_age Page.steps Page.step]. unfold Page.run_age.
  cbn [Page.server Page.year_sent Page.median_year_sent].
  rewrite animate_age_distribution_idle by done.
  cbn [mbind result_bind]. rewrite set_year_same.
  rewrite bool_decide_eq_true_2 by done. apply IH.
Qed.

(** X2.  The age animation in closed form, for a page that answers every
    slider update before the next run: started playing at position [P]
    with bound [B >= P], after [n] runs of the effect the position is
    [P + n] and the loop still plays as long as [n <= B - P]; after more
    runs the position is [B], the loop is idle and the button reads
    "Play".  In any order of runs and answers nothing is raised, the
    position is at most [B] and at most [P] plus the number of runs, and
    the loop still plays unless more than [B - P] runs have taken
    place. *)
Theorem age_animation_after_n_ticks
        (g : Globals) (s : Session) (B : Z) (n : nat) :
  Py.max (available_years g) = Ok B →
  animating_age_distribution s = true →
  year (input s) ≤ B →
  Page.steps g (Page.prompt_age n) (Page.start s)
  = Ok (Page.start
          (if bool_decide (Z.of_nat n ≤ B - year (input s))
           then set_year (year (input s) + Z.of_nat n) s
           else stopped_at B s))
  ∧ ∀ l, ∃ p,
      Page.steps g l (Page.start s) = Ok p
      ∧ year (input (Page.server p)) ≤ B
      ∧ year (input (Page.server p))
        ≤ year (input s) + Z.of_nat (Page.age_runs l)
      ∧ (Z.of_nat (Page.age_runs l) ≤ B - year (input s) →
         animating_age_distribution (Page.server p) = true).
Proof.
  intros HB Hplay Hle. split.
  - unfold Page.start. case_bool_decide as Hn.
    + apply (prompt_age_advance g B); [done..|lia].
    + set (k := Z.to_nat (B - year (input s))).
      replace n with (k + S (n - k - 1))%nat by lia.
      rewrite prompt_age_app, steps_app.
      rewrite (prompt_age_advance g B) by (done || lia).
      cbn [mbind result_bind Page.prompt_age Page.steps Page.step].
      replace (year (input s) + Z.of_nat k) with B by lia.
      rewrite (run_age_stop g B) by (done || simpl; lia).
      cbn [mbind result_bind]. unfold Page.answer_year.
      cbn [Page.year_sent mbind result_bind].
      by apply prompt_age_idle.
  - intros l. by apply (age_steps_from_start g B (year (input s))).
Qed.

Lemma age_animation_after_n_ticks_witness :
  Page.steps Sample.globals_2023 (Page.prompt_age 10)
             (Page.start Sample.session)
  = Ok (Page.start (set_year 1960 Sample.session))
  ∧ Page.steps Sample.globals_2023 (Page.prompt_age 100)
               (Page.start Sample.session)
    = Ok (Page.start (stopped_at 2023 Sample.session))
  ∧ ∃ p, Page.steps Sample.globals_2023
                    [Page.RunAge; Page.RunAge; Page.RunAge; Page.AnswerYear]
                    (Page.start Sample.session) = Ok p
         ∧ year (input (Page.server p)) ≤ 1950 + 3.
Proof.
  split; [|split].
  - destruct (age_animation_after_n_ticks
                Sample.globals_2023 Sample.session 2023 10)
      as [Hrun _]; [reflexivity | reflexivity | simpl; lia |].
    exact Hrun.
  - destruct (age_animation_after_n_ticks
                Sample.globals_2023 Sample.session 2023 100)
      as [Hrun _]; [reflexivity | reflexivity | simpl; lia |].
    exact Hrun.
  - destruct (age_animation_after_n_ticks
                Sample.globals_2023 Sample.session 2023 0)
      as [_ Hany]; [reflexivity | reflexivity | simpl; lia |].
    destruct (Hany [Page.RunAge; Page.RunAge; Page.RunAge; Page.AnswerYear])
      as (p & Hrun & _ & Hyear & _).
    exists p. exact (conj Hrun Hyear).
Defined.

(** A page that answers late: three runs before the first answer send
    1951 three times, and the year after the first answer is 1951. *)
Example three_runs_one_answer :
  Page.steps Sample.globals_2023
             [Page.RunAge; Page.RunAge; Page.RunAge; Page.AnswerYear]
             (Page.start Sample.session)
  = Ok (Page.mkState (set_year 1951 Sample.session) [1951; 1951] []).
Proof. reflexivity. Qed.

(** A run of the median effect on the server's view, branch by branch. *)
Lemma run_median_run p :
  Page.run_median p
  = if animating_median_age (Page.server p)
    then if bool_decide (median_year (input (Page.server p)) < 2100)
         then Page.mkState
                (Page.server p) (Page.year_sent p)
                (Page.median_year_sent p
                   ++ [median_year (input (Page.server p)) + 1])%list
         else Page.mkState
                (set_play_median_age_label "Play"
                   (set_animating_median_age false (Page.server p)))
                (Page.year_sent p) (Page.median_year_sent p)
    else p.
Proof.
  destruct p as [[[e y m] a b l1 l2] ys ms].
  unfold Page.run_median, _animate_median_age. simpl.
  destruct b; simpl.
  - case_bool_decide as Hlt; simpl.
    + rewrite bool_decide_eq_false_2 by lia. done.
    + rewrite bool_decide_eq_true_2 by done. done.
  - rewrite bool_decide_eq_true_2 by done. done.
Qed.

(** The age effect and the answers to its slider leave the median loop
    alone. *)
Lemma run_age_keeps_median g B p :
  Py.max (available_years g) = Ok B →
  ∃ p', Page.run_age g p = Ok p'
        ∧ median_year (input (Page.server p'))
          = median_year (input (Page.server p))
        ∧ animating_median_age (Page.server p')
          = animating_median_age (Page.server p)
        ∧ play_median_age_label (Page.server p')
          = play_median_age_label (Page.server p)
        ∧ Page.median_year_sent p' = Page.median_year_sent p.
Proof.
  intros HB. rewrite (run_age_run g B) by done. eexists. split; [done|].
  destruct (animating_age_distribution (Page.server p));
    [case_bool_decide|]; try done;
    by destruct (Page.server p) as [[e y m] a b l1 l2].
Qed.

Lemma answer_year_keeps_median p :
  median_year (input (Page.server (Page.answer_year p)))
  = median_year (input (Page.server p))
  ∧ animating_median_age (Page.server (Page.answer_year p))
    = animating_median_age (Page.server p)
  ∧ play_median_age_label (Page.server (Page.answer_year p))
    = play_median_age_label (Page.server p)
  ∧ Page.median_year_sent (Page.answer_year p) = Page.median_year_sent p.
Proof.
  destruct p as [[[e y m] a b l1 l2] [|v ys] ms]; done.
Qed.

Section MedianLoop.

Variables (g : Globals) (B P : Z).
Hypothesis HB : Py.max (available_years g) = Ok B.

#[local] Abbreviation median_inv r p :=
  (median_year (input (Page.server p)) ≤ 2100
   ∧ median_year (input (Page.server p)) ≤ P + Z.of_nat r
   ∧ Forall (λ v, v ≤ 2100 ∧ v ≤ P + Z.of_nat r) (Page.median_year_sent p)
   ∧ (animating_median_age (Page.server p) = false →
      2100 - P < Z.of_nat r)) (only parsing).

Lemma median_step_inv st p r :
  median_inv r p →
  ∃ p', Page.step g st p = Ok p'
        ∧ median_inv (r + Page.median_runs [st])%nat p'.
Proof.
  intros (HyB & Hyr & Hsent & Hidle). destruct st; cbn [Page.step].
  - destruct (run_age_keeps_median g B p HB) as (p' & -> & Hm & Ha & _ & Hs).
    exists p'. split; [done|]. cbn [Page.median_runs].
    rewrite Nat.add_0_r, Hm, Ha, Hs. done.
  - eexists. split; [done|]. cbn [Page.median_runs]. rewrite Nat.add_0_r.
    destruct (answer_year_keeps_median p) as (-> & -> & _ & ->). done.
  - rewrite run_median_run. eexists. split; [done|].
    cbn [Page.median_runs].
    destruct (animating_median_age (Page.server p)) eqn:Ha;
      [case_bool_decide as Hlt|]; cbn [Page.server Page.median_year_sent].
    + rewrite Ha. split; [done|]. split; [lia|]. split; [|done].
      apply Forall_app. split.
      * eapply Forall_impl; [exact Hsent|]. intros v [? ?]. split; lia.
      * apply Forall_singleton. lia.
    + destruct (Page.server p) as [[e y m] a b l1 l2]. simpl in *.
      split; [done|]. split; [lia|]. split; [|lia].
      eapply Forall_impl; [exact Hsent|]. intros v [? ?]. split; lia.
    + rewrite Ha. split; [done|]. split; [lia|]. split.
      * eapply Forall_impl; [exact Hsent|]. intros v [? ?]. split; lia.
      * intros _. specialize (Hidle eq_refl). lia.
  - eexists. split; [done|]. cbn [Page.median_runs]. rewrite Nat.add_0_r.
    unfold Page.answer_median_year.
    destruct (Page.median_year_sent p) as [|v ys] eqn:Hys.
    + rewrite Hys. done.
    + apply Forall_cons in Hsent as [[HvB Hvr] Hrest].
      destruct (Page.server p) as [[e y m] a b l1 l2]. simpl in *. done.
Qed.

Lemma median_steps_inv l : ∀ p r,
  median_inv r p →
  ∃ p', Page.steps g l p = Ok p'
        ∧ median_inv (r + Page.median_runs l)%nat p'.
Proof.
  induction l as [|st l IH]; intros p r Hinv.
  - exists p. split; [done|]. cbn [Page.median_runs].
    by rewrite Nat.add_0_r.
  - cbn [Page.steps].
    destruct (median_step_inv st p r Hinv) as (p1 & -> & H1).
    cbn [mbind result_bind].
    destruct (IH p1 _ H1) as (p' & -> & H').
    exists p'. split; [done|].
    replace (r + Page.median_runs (st :: l))%nat
      with (r + Page.median_runs [st] + Page.median_runs l)%nat
      by (destruct st; simpl; lia).
    done.
Qed.

Lemma median_steps_from_start l s :
  animating_median_age s = true →
  median_year (input s) = P → P ≤ 2100 →
  ∃ p, Page.steps g l (Page.start s) = Ok p
       ∧ median_year (input (Page.server p)) ≤ 2100
       ∧ median_year (input (Page.server p))
         ≤ P + Z.of_nat (Page.median_runs l)
       ∧ (Z.of_nat (Page.median_runs l) ≤ 2100 - P →
          animating_median_age (Page.server p) = true).
Proof.
  intros Hplay Hy HP.
  destruct (median_steps_inv l (Page.start s) 0)
    as (p & Hrun & HyB & Hyr & _ & Hidle).
  { cbn [Page.start Page.server Page.median_year_sent]. rewrite Hy, Hplay.
    split; [done|]. split; [lia|]. split; [constructor|done]. }
  exists p. split; [done|]. split; [done|]. split; [done|].
  intros Hruns.
  destruct (animating_median_age (Page.server p)); [done|].
  specialize (Hidle eq_refl). simpl in Hidle. lia.
Qed.

End MedianLoop.

Lemma prompt_median_advance g n : ∀ s ys,
  animating_median_age s = true →
  median_year (input s) + Z.of_nat n ≤ 2100 →
  Page.steps g (Page.prompt_median n) (Page.mkState s ys [])
  = Ok (Page.mkState
          (set_median_year (median_year (input s) + Z.of_nat n) s) ys []).
Proof.
  induction n as [|n IH]; intros s ys Hplay Hle.
  - cbn [Page.prompt_median Page.steps].
    by rewrite Z.add_0_r, set_median_year_same.
  - cbn [Page.prompt_median Page.steps Page.step]. rewrite run_median_run.
    cbn [Page.server Page.year_sent Page.median_year_sent].
    rewrite Hplay, bool_decide_eq_true_2 by lia.
    cbn [mbind result_bind app]. unfold Page.answer_median_year.
    cbn [Page.server Page.year_sent Page.median_year_sent].
    rewrite IH by (done || simpl; lia).
    change (set_median_year ?y (set_median_year ?y' s))
      with (set_median_year y s).
    simpl. do 3 f_equal. lia.
Qed.

Lemma prompt_median_idle g n s ys :
  animating_median_age s = false →
  Page.steps g (Page.prompt_median n) (Page.mkState s ys [])
  = Ok (Page.mkState s ys []).
Proof.
  intros Hidle. induction n as [|n IH]; [done|].
  cbn [Page.prompt_median Page.steps Page.step]. rewrite run_median_run.
  cbn [Page.server Page.year_sent Page.median_year_sent].
  rewrite Hidle. cbn [mbind result_bind]. apply IH.
Qed.

(** X3.  The median animation in closed form, with its fixed bound 2100,
    for a page that answers every slider update before the next run:
    started playing at [P <= 2100], after [n] runs the position is
    [P + n] and the loop still plays as long as [n <= 2100 - P]; after
    more runs the position is 2100, the loop is idle and the button reads
    "Play".  In any order of runs and answers of both loops the position
    is at most 2100 and at most [P] plus the number of runs, and the loop
    still plays unless more than [2100 - P] runs have taken place. *)
Theorem median_animation_after_n_ticks
        (g : Globals) (B : Z) (s : Session) (n : nat) :
  Py.max (available_years g) = Ok B →
  animating_median_age s = true →
  median_year (input s) ≤ 2100 →
  Page.steps g (Page.prompt_median n) (Page.start s)
  = Ok (Page.start
          (if bool_decide (Z.of_nat n ≤ 2100 - median_year (input s))
           then set_median_year (median_year (input s) + Z.of_nat n) s
           else median_stopped_at 2100 s))
  ∧ ∀ l, ∃ p,
      Page.steps g l (Page.start s) = Ok p
      ∧ median_year (input (Page.server p)) ≤ 2100
      ∧ median_year (input (Page.server p))
        ≤ median_year (input s) + Z.of_nat (Page.median_runs l)
      ∧ (Z.of_nat (Page.median_runs l) ≤ 2100 - median_year (input s) →
         animating_median_age (Page.server p) = true).
Proof.
  intros HB Hplay Hle. split.
  - unfold Page.start. case_bool_decide as Hn.
    + apply prompt_median_advance; [done|lia].
    + set (k := Z.to_nat (2100 - median_year (input s))).
      replace n with (k + S (n - k - 1))%nat by lia.
      rewrite prompt_median_app, steps_app.
      rewrite prompt_median_advance by (done || lia).
      cbn [mbind result_bind Page.prompt_median Page.steps Page.step].
      replace (median_year (input s) + Z.of_nat k) with 2100 by lia.
      rewrite run_median_run.
      cbn [Page.server Page.year_sent Page.median_year_sent].
      change (animating_median_age (set_median_year 2100 s))
        with (animating_median_age s).
      rewrite Hplay, bool_decide_eq_false_2 by (simpl; lia).
      cbn [mbind result_bind]. unfold Page.answer_median_year.
      cbn [Page.median_year_sent mbind result_bind].
      by apply prompt_median_idle.
  - intros l. by apply (median_steps_from_start g B (median_year (input s))).
Qed.

Lemma median_animation_after_n_ticks_witness :
  Page.steps Sample.globals_2023 (Page.prompt_median 150)
             (Page.start Sample.session)
  = Ok (Page.start (set_median_year 2100 Sample.session))
  ∧ Page.steps Sample.globals_2023 (Page.prompt_median 151)
               (Page.start Sample.session)
    = Ok (Page.start (median_stopped_at 2100 Sample.session)).
Proof.
  split.
  - destruct (median_animation_after_n_ticks
                Sample.globals_2023 2023 Sample.session 150)
      as [Hrun _]; [reflexivity | reflexivity | simpl; lia |].
    exact Hrun.
  - destruct (median_animation_after_n_ticks
                Sample.globals_2023 2023 Sample.session 151)
      as [Hrun _]; [reflexivity | reflexivity | simpl; lia |].
    exact Hrun.
Defined.

(** ** Reset, pause and the independence of the two loops *)

(** X4.  The reset button brings any session back to the page as first
    shown (World, both sliders at 1950, both loops idle, both buttons
    "Play"), and the animation effects that run afterwards, in any number
    and order, change nothing: a reset stops both animations for good. *)
Theorem reset_restores_the_initial_page
        (g : Globals) (s : Session) (es : list Event) :
  Forall is_animation_run es →
  handle_all g (ClickReset :: es) s = Ok initial.
Proof.
  intros Hes. cbn [handle_all handle mbind result_bind].
  change (reset s) with initial.
  induction Hes as [|e es [-> | ->] _ IH]; [done|exact IH|exact IH].
Qed.

Lemma reset_restores_the_initial_page_witness :
  handle_all Sample.globals_2023
    [ClickReset; RunAnimateAgeDistribution; RunAnimateMedianAge;
     RunAnimateAgeDistribution]
    (set_year 2001 Sample.session)
  = Ok initial.
Proof.
  apply (reset_restores_the_initial_page
           Sample.globals_2023 (set_year 2001 Sample.session)
           [RunAnimateAgeDistribution; RunAnimateMedianAge;
            RunAnimateAgeDistribution]).
  repeat constructor; by (left + right).
Defined.

Lemma handle_all_app g es1 es2 s :
  handle_all g (es1 ++ es2) s = handle_all g es1 s ≫= handle_all g es2.
Proof.
  revert s. induction es1 as [|e es1 IH]; intros s; [done|].
  cbn [app handle_all]. destruct (handle g s e) as [s'|]; [|done].
  cbn [mbind result_bind]. apply IH.
Qed.

(** X5.  A click on the play button of a playing age animation pauses
    it: the effect runs that follow leave the year where it was.  A second
    click resumes from that year, and, when the button label matched the
    state, two clicks bring back the very session they started from. *)
Theorem pause_keeps_the_year (g : Globals) (s : Session) (n : nat) :
  animating_age_distribution s = true →
  labels_match s →
  handle_all g (ClickPlayAgeDistribution
                  :: replicate n RunAnimateAgeDistribution) s
  = Ok (toggle_age_distribution s)
  ∧ year (input (toggle_age_distribution s)) = year (input s)
  ∧ animating_age_distribution (toggle_age_distribution s) = false
  ∧ play_age_distribution_label (toggle_age_distribution s) = "Play"
  ∧ handle_all g (ClickPlayAgeDistribution
                    :: replicate n RunAnimateAgeDistribution
                    ++ [ClickPlayAgeDistribution]) s
    = Ok s.
Proof.
  intros Hplay [Ha _].
  assert (Hidle : ∀ s0, animating_age_distribution s0 = false →
            handle_all g (replicate n RunAnimateAgeDistribution) s0 = Ok s0).
  { clear. induction n as [|n IH]; intros s0 H0; [done|].
    cbn [replicate handle_all handle].
    rewrite animate_age_distribution_idle by done.
    cbn [mbind result_bind]. by apply IH. }
  assert (Hpaused : animating_age_distribution (toggle_age_distribution s)
                    = false).
  { unfold toggle_age_distribution. by rewrite Hplay. }
  assert (Hrun : handle_all g (ClickPlayAgeDistribution
                                 :: replicate n RunAnimateAgeDistribution) s
                 = Ok (toggle_age_distribution s)).
  { cbn [handle_all handle mbind result_bind]. by apply Hidle. }
  split; [exact Hrun|].
  split; [unfold toggle_age_distribution; by rewrite Hplay|].
  split; [exact Hpaused|].
  split; [unfold toggle_age_distribution; by rewrite Hplay|].
  rewrite app_comm_cons, handle_all_app, Hrun.
  cbn [mbind result_bind handle_all handle]. f_equal.
  destruct s as [i a m la lm]. simpl in *. by subst.
Qed.

Lemma pause_keeps_the_year_witness :
  handle_all Sample.globals_2023
    [ClickPlayAgeDistribution; RunAnimateAgeDistribution;
     RunAnimateAgeDistribution; RunAnimateAgeDistribution]
    Sample.session
  = Ok (toggle_age_distribution Sample.session)
  ∧ year (input (toggle_age_distribution Sample.session)) = 1950.
Proof.
  destruct (pause_keeps_the_year Sample.globals_2023 Sample.session 3)
    as (Hrun & Hyear & _); [reflexivity | by split |].
  split; [exact Hrun | exact Hyear].
Defined.

(** X6.  The two animation loops do not interfere: a run of one effect
    leaves the position, the playing flag and the button of the other loop
    and the selected entity as they are, and runs of the two effects give
    the same session in either order. *)
Theorem animation_loops_are_independent (g : Globals) (s : Session) :
  (∀ s' d, _animate_age_distribution g s = Ok (s', d) →
     entity (input s') = entity (input s)
     ∧ median_year (input s') = median_year (input s)
     ∧ animating_median_age s' = animating_median_age s
     ∧ play_median_age_label s' = play_median_age_label s)
  ∧ (entity (input (_animate_median_age s).1) = entity (input s)
     ∧ year (input (_animate_median_age s).1) = year (input s)
     ∧ animating_age_distribution (_animate_median_age s).1
       = animating_age_distribution s
     ∧ play_age_distribution_label (_animate_median_age s).1
       = play_age_distribution_label s)
  ∧ handle_all g [RunAnimateAgeDistribution; RunAnimateMedianAge] s
    = handle_all g [RunAnimateMedianAge; RunAnimateAgeDistribution] s.
Proof.
  destruct s as [[e y my] a m la lm].
  unfold handle_all, handle, _animate_age_distribution, _animate_median_age.
  simpl. split; [|split].
  - intros s' d H. destruct a; [|by injection H as <- _].
    destruct (Py.max (available_years g)) as [B|]; [|done]. cbn in H.
    case_bool_decide; by injection H as <- _.
  - destruct m; [|done]. by case_bool_decide.
  - destruct (Py.max (available_years g)) as [B|];
      destruct (bool_decide (my < 2100)) eqn:Hmy;
      try destruct (bool_decide (y < B)) eqn:Hy;
      destruct a, m; cbn; rewrite ?Hmy, ?Hy; cbn; rewrite ?Hmy, ?Hy; done.
Qed.

(** ** Renders that only read *)

Import Effects.

Lemma reads_only_ret {A : Type} (a : A) : reads_only (mret a).
Proof. by intros h. Qed.

Lemma reads_only_lift {A : Type} (r : result A) : reads_only (lift r).
Proof. by intros h. Qed.

Lemma reads_only_load (p : ref) : reads_only (load p).
Proof. intros h. unfold load. by destruct (h !! p). Qed.

Lemma reads_only_bind {A B : Type} (m : M A) (f : A → M B) :
  reads_only m → (∀ a, reads_only (f a)) → reads_only (m ≫= f).
Proof.
  intros Hm Hf h. unfold mbind, M_bind. specialize (Hm h).
  destruct (m h) as [[a|e] h1]; simpl in *; subst; [apply Hf | done].
Qed.

Lemma reads_only_getitem_col (p : ref) col : reads_only (DF.getitem_col p col).
Proof.
  apply reads_only_bind; [apply reads_only_load|].
  intros df. apply reads_only_lift.
Qed.

Lemma reads_only_empty (p : ref) : reads_only (DF.empty p).
Proof.
  apply reads_only_bind; [apply reads_only_load|].
  intros df. apply reads_only_ret.
Qed.

Ltac reads_only_step :=
  apply reads_only_bind;
  [ first [ apply reads_only_getitem_col | apply reads_only_empty
          | apply reads_only_load | apply reads_only_lift ]
  | intros ? ].

Lemma age_distribution_plot_body_reads_only get_xticks data g i :
  reads_only (age_distribution_plot_body get_xticks data g i).
Proof.
  unfold age_distribution_plot_body. destruct data as [male_data female_data].
  reads_only_step. apply reads_only_bind.
  { destruct a; [apply reads_only_ret | apply reads_only_empty]. }
  intros []; [apply reads_only_ret|].
  do 2 reads_only_step. apply reads_only_lift.
Qed.

Lemma median_age_plot_body_reads_only data i :
  reads_only (median_age_plot_body data i).
Proof.
  unfold median_age_plot_body. destruct data as [year_data is_projection].
  reads_only_step. destruct a; [apply reads_only_ret|].
  do 7 reads_only_step. apply reads_only_ret.
Qed.

Lemma bind_store_reads_only {A B : Type} (m : M A) (f : A → M B) h :
  (∀ a, reads_only (f a)) → ((m ≫= f) h).2 = (m h).2.
Proof.
  intros Hf. unfold mbind, M_bind.
  destruct (m h) as [[a|e] h1]; simpl; [apply Hf | done].
Qed.

(** X7.  The two matplotlib renders only read: the age pyramid and the
    median chart of [age_app.py] build no frame and assign to none,
    whether they end with a figure or with an exception.  Run on a cached
    value they leave the store as it is; run together with their
    calculation they leave the store as the calculation alone leaves
    it. *)
Theorem renders_only_read
        (get_xticks : list value → list value → list Q)
        (g : Globals) (i : Input) (h : gmap nat DataFrame) :
  (∀ data, (age_distribution_plot_body get_xticks data g i h).2 = h)
  ∧ (∀ data, (median_age_plot_body data i h).2 = h)
  ∧ (age_distribution_plot get_xticks g i h).2
    = (get_population_data g i h).2
  ∧ (median_age_plot g i h).2 = (get_median_data g i h).2.
Proof.
  split; [|split; [|split]].
  - intros data. apply age_distribution_plot_body_reads_only.
  - intros data. apply median_age_plot_body_reads_only.
  - apply bind_store_reads_only.
    intros data. apply age_distribution_plot_body_reads_only.
  - apply bind_store_reads_only.
    intros data. apply median_age_plot_body_reads_only.
Qed.

(** ** Missing columns *)

Lemma bind_raise {A B : Type} (m : M A) (f : A → M B) h e h1 :
  m h = (Raise e, h1) → (m ≫= f) h = (Raise e, h1).
Proof. intros H. unfold mbind, M_bind. by rewrite H. Qed.

Lemma getitem_col_run_missing h p df col :
  h !! p = Some df → col ∉ columns df →
  DF.getitem_col p col h = (Raise (KeyError col), h).
Proof.
  intros Hp Hc. unfold DF.getitem_col.
  rewrite (bind_run _ _ _ _ _ (load_run _ _ _ Hp)).
  unfold lift. by rewrite getitem_col_missing.
Qed.

(** X8.  [get_population_data] looks up [entities], then [years], first
    in the male and then in the female table, and raises KeyError for the
    first of these columns that is missing.  A column missing from the
    male table leaves the store untouched; when the female table is at
    fault the male selection has been built already.  Both pyramid renders
    pass the exception on. *)
Theorem population_data_missing_column
        (get_xticks : list value → list value → list Q)
        (g : Globals) (i : Input) (h : gmap nat DataFrame)
        (male female : DataFrame) :
  h !! male_popl_by_age_df g = Some male →
  h !! female_popl_by_age_df g = Some female →
  ("entities" ∉ columns male →
     get_population_data g i h = (Raise (KeyError "entities"), h))
  ∧ ("entities" ∈ columns male → "years" ∉ columns male →
     get_population_data g i h = (Raise (KeyError "years"), h))
  ∧ ("entities" ∈ columns male → "years" ∈ columns male →
     "entities" ∉ columns female →
     get_population_data g i h
     = (Raise (KeyError "entities"),
        <[fresh (dom h) := selection i male]> h))
  ∧ ("entities" ∈ columns male → "years" ∈ columns male →
     "entities" ∈ columns female → "years" ∉ columns female →
     get_population_data g i h
     = (Raise (KeyError "years"),
        <[fresh (dom h) := selection i male]> h))
  ∧ (∀ e h', get_population_data g i h = (Raise e, h') →
       age_distribution_plot get_xticks g i h = (Raise e, h')
       ∧ AgeAppShiny.age_distribution_render g i h = (Raise e, h')).
Proof.
  intros Hm Hf.
  split; [|split; [|split; [|split]]].
  - intros He. unfold get_population_data.
    by rewrite (bind_raise _ _ _ _ _ (getitem_col_run_missing _ _ _ _ Hm He)).
  - intros He Hy. unfold get_population_data.
    rewrite (bind_run _ _ _ _ _ (getitem_col_run _ _ _ _ Hm He)).
    by rewrite (bind_raise _ _ _ _ _ (getitem_col_run_missing _ _ _ _ Hm Hy)).
  - intros He Hy Hfe. unfold get_population_data.
    rewrite (bind_run _ _ _ _ _ (getitem_col_run _ _ _ _ Hm He)).
    rewrite (bind_run _ _ _ _ _ (getitem_col_run _ _ _ _ Hm Hy)).
    rewrite !series_eq_cells, mask_and_fmap.
    rewrite (bind_run _ _ _ _ _ (getitem_mask_run _ _ _ _ Hm)).
    assert (Hf1 : <[fresh (dom h) := selection i male]> h
                    !! female_popl_by_age_df g = Some female)
      by (by apply lookup_insert_fresh).
    by rewrite (bind_raise _ _ _ _ _
                  (getitem_col_run_missing _ _ _ _ Hf1 Hfe)).
  - intros He Hy Hfe Hfy. unfold get_population_data.
    rewrite (bind_run _ _ _ _ _ (getitem_col_run _ _ _ _ Hm He)).
    rewrite (bind_run _ _ _ _ _ (getitem_col_run _ _ _ _ Hm Hy)).
    rewrite !series_eq_cells, mask_and_fmap.
    rewrite (bind_run _ _ _ _ _ (getitem_mask_run _ _ _ _ Hm)).
    assert (Hf1 : <[fresh (dom h) := selection i male]> h
                    !! female_popl_by_age_df g = Some female)
      by (by apply lookup_insert_fresh).
    rewrite (bind_run _ _ _ _ _ (getitem_col_run _ _ _ _ Hf1 Hfe)).
    by rewrite (bind_raise _ _ _ _ _
                  (getitem_col_run_missing _ _ _ _ Hf1 Hfy)).
  - intros e h' Hrun. split.
    + unfold age_distribution_plot. by apply bind_raise.
    + unfold AgeAppShiny.age_distribution_render,
        AgeAppShiny.get_population_data. by apply bind_raise.
Qed.

Lemma population_data_missing_column_witness :
  get_population_data
    (mkGlobals 0%nat 1%nat 2%nat [] [])
    (mkInput "World" 1950 1950)
    (<[1%nat := Sample.female_table]>
       (<[0%nat := mkDataFrame ["entities"] []]> ∅))
  = (Raise (KeyError "years"),
     <[1%nat := Sample.female_table]>
       (<[0%nat := mkDataFrame ["entities"] []]> ∅)).
Proof.
  destruct (population_data_missing_column
              (λ _ _, []) (mkGlobals 0%nat 1%nat 2%nat [] [])
              (mkInput "World" 1950 1950)
              (<[1%nat := Sample.female_table]>
                 (<[0%nat := mkDataFrame ["entities"] []]> ∅))
              (mkDataFrame ["entities"] []) Sample.female_table)
    as (_ & Hyears & _); [reflexivity | reflexivity |].
  apply Hyears; [by apply list_elem_of_singleton|].
  by intros H%list_elem_of_singleton.
Defined.

(** ** The median chart *)

Lemma in_year_with_combined y r : in_year y (with_combined r) = in_year y r.
Proof. unfold in_year. by rewrite cell_with_combined_other. Qed.

Lemma entities_in_combined_frame df :
  "entities" ∈ columns df → "entities" ∈ columns (combined_frame df).
Proof.
  intros H. unfold combined_frame; simpl. case_bool_decide; [done|].
  apply elem_of_app; by left.
Qed.

Lemma combined_in_combined_frame df :
  "median_age_combined" ∈ columns (combined_frame df).
Proof.
  unfold combined_frame; simpl. case_bool_decide; [done|].
  apply elem_of_app; right. by apply list_elem_of_singleton.
Qed.

Lemma year_frame_empty y df :
  "years" ∈ columns df →
  Pandas.empty (year_frame y df) = bool_decide (rows (year_frame y df) = []).
Proof.
  intros Hc. unfold Pandas.empty.
  pose proof (years_in_combined_frame df Hc) as Hin.
  change (columns (year_frame y df)) with (columns (combined_frame df)).
  destruct (columns (combined_frame df)) as [|c cs];
    [by apply elem_of_nil in Hin|].
  by destruct (rows (year_frame y df)).
Qed.

Lemma lift_bind {A B : Type} (r : result A) (f : A → M B)
      (h : gmap nat DataFrame) :
  (lift r ≫= f) h
  = match r with
    | Ok a => f a h
    | Raise e => (Raise e, h)
    end.
Proof. unfold mbind, M_bind, lift. by destruct r. Qed.

Section MedianChart.

Variables (g : Globals) (i : Input) (h : gmap nat DataFrame) (df : DataFrame).
Hypothesis Hdf : h !! median_df g = Some df.
Hypothesis Hent : "entities" ∈ columns df.
Hypothesis Hest : estimates_column ∈ columns df.
Hypothesis Hmed : medium_column ∈ columns df.
Hypothesis Hyr : "years" ∈ columns df.

(** The figure drawn from the rows of the selected year. *)
Lemma median_age_plot_run :
  median_age_plot g i h
  = (if bool_decide (rows (year_frame (median_year i) df) = [])
     then Ok (TextFigure no_median_data)
     else
       top ← (highest ← Pandas.max
                           ((λ r, cell r "median_age_combined")
                              <$> rows (year_frame (median_year i) df));
              mul_scalar highest (12 # 10));
       set_ylim 0 top;;
       texts ← Py.traverse
                 (bar_text (bool_decide (median_year i > 2023)))
                 ((λ r, cell r "median_age_combined")
                    <$> rows (year_frame (median_year i) df));
       Ok (BarFigure
             ((λ r, cell r "entities")
                <$> rows (year_frame (median_year i) df))
             ((λ r, cell r "median_age_combined")
                <$> rows (year_frame (median_year i) df))
             (region_color
                <$> ((λ r, cell r "entities")
                       <$> rows (year_frame (median_year i) df)))
             (if bool_decide (median_year i > 2023) then (7 # 10)%Q
              else 1%Q)
             texts
             ("Medianes Alter nach Region ("
                +:+ Py.str (median_year i) +:+ ")")),
     (get_median_data g i h).2).
Proof.
  pose proof (get_median_data_run g h df Hdf Hent Hest Hmed Hyr i) as Hrun.
  cbv zeta in Hrun. unfold median_age_plot.
  rewrite (bind_run _ _ _ _ _ Hrun), Hrun. cbn [snd].
  set (p := fresh (dom _)). set (h4 := <[p := _]> _).
  assert (Hp : h4 !! p = Some (year_frame (median_year i) df))
    by apply lookup_insert_eq.
  assert (He : "entities" ∈ columns (year_frame (median_year i) df))
    by (by apply entities_in_combined_frame).
  assert (Hc : "median_age_combined"
                 ∈ columns (year_frame (median_year i) df))
    by apply combined_in_combined_frame.
  unfold median_age_plot_body.
  rewrite (bind_run _ _ _ _ _ (empty_run _ _ _ Hp)).
  rewrite year_frame_empty by done.
  destruct (decide (rows (year_frame (median_year i) df) = [])) as [Hrows|Hrows];
    [by rewrite !bool_decide_eq_true_2 by done|].
  rewrite !(bool_decide_eq_false_2 _ Hrows).
  rewrite (bind_run _ _ _ _ _ (getitem_col_run _ _ _ _ Hp He)).
  rewrite (bind_run _ _ _ _ _ (getitem_col_run _ _ _ _ Hp He)).
  rewrite (bind_run _ _ _ _ _ (getitem_col_run _ _ _ _ Hp Hc)).
  rewrite (bind_run _ _ _ _ _ (getitem_col_run _ _ _ _ Hp Hc)).
  rewrite lift_bind.
  destruct (_ ← Pandas.max _; mul_scalar _ _) as [top|e];
    cbn [mbind result_bind]; [|done].
  rewrite lift_bind.
  destruct (set_ylim 0 top); cbn [mbind result_bind]; [|done].
  rewrite lift_bind. by destruct (Py.traverse _ _).
Qed.

Lemma median_age_render_no_data :
  rows (year_frame (median_year i) df) = [] →
  AgeAppShiny.median_age_render g i h
  = (Ok (AgeAppShiny.AnnotationFigure no_median_data),
     (get_median_data g i h).2).
Proof.
  intros Hrows.
  pose proof (get_median_data_run g h df Hdf Hent Hest Hmed Hyr i) as Hrun.
  cbv zeta in Hrun. unfold AgeAppShiny.median_age_render.
  unfold AgeAppShiny.get_median_data.
  rewrite (bind_run _ _ _ _ _ Hrun), Hrun. cbn [snd].
  set (p := fresh (dom _)). set (h4 := <[p := _]> _).
  assert (Hp : h4 !! p = Some (year_frame (median_year i) df))
    by apply lookup_insert_eq.
  unfold AgeAppShiny.median_age_render_body.
  rewrite (bind_run _ _ _ _ _ (empty_run _ _ _ Hp)).
  by rewrite year_frame_empty, bool_decide_eq_true_2.
Qed.

End MedianChart.

(** X9.  When the median table has no row of the four regions for the
    selected year, both median charts return their "no data" figure
    instead of raising, and leave the store as the calculation left it. *)
Theorem median_chart_without_rows_is_placeholder
        (g : Globals) (i : Input) (h : gmap nat DataFrame) (df : DataFrame) :
  h !! median_df g = Some df →
  "entities" ∈ columns df →
  estimates_column ∈ columns df →
  medium_column ∈ columns df →
  "years" ∈ columns df →
  (∀ r, r ∈ rows df → in_median_regions r = true →
        in_year (median_year i) r = false) →
  median_age_plot g i h
  = (Ok (TextFigure no_median_data), (get_median_data g i h).2)
  ∧ AgeAppShiny.median_age_render g i h
    = (Ok (AgeAppShiny.AnnotationFigure no_median_data),
       (get_median_data g i h).2).
Proof.
  intros Hdf Hent Hest Hmed Hyr Hnone.
  assert (Hrows : rows (year_frame (median_year i) df) = []).
  { unfold year_frame, combined_frame. simpl. apply filter_none.
    intros r (r0 & -> & Hr0)%list_elem_of_fmap.
    apply elem_of_filter_bool in Hr0 as [Hin Hreg].
    rewrite in_year_with_combined. by apply Hnone. }
  split.
  - rewrite (median_age_plot_run g i h df) by done.
    by rewrite bool_decide_eq_true_2.
  - by apply (median_age_render_no_data g i h df).
Qed.

Lemma median_chart_without_rows_is_placeholder_witness :
  median_age_plot Sample.globals (mkInput "World" 1950 1999) Sample.store
  = (Ok (TextFigure no_median_data),
     (get_median_data Sample.globals (mkInput "World" 1950 1999)
                      Sample.store).2)
  ∧ AgeAppShiny.median_age_render
      Sample.globals (mkInput "World" 1950 1999) Sample.store
    = (Ok (AgeAppShiny.AnnotationFigure no_median_data),
       (get_median_data Sample.globals (mkInput "World" 1950 1999)
                        Sample.store).2).
Proof.
  destruct (median_chart_without_rows_is_placeholder
              Sample.globals (mkInput "World" 1950 1999)
              Sample.store Sample.median_table)
    as [Hplot Hrender];
    [reflexivity | set_solver | set_solver | set_solver | set_solver | |].
  - intros r Hr _. unfold Sample.median_table in Hr. cbn [rows] in Hr.
    repeat (apply elem_of_cons in Hr as [->|Hr]; [by vm_compute|]).
    by apply elem_of_nil in Hr.
  - exact (conj Hplot Hrender).
Defined.

Lemma region_color_of_median_region (r : gmap string value) :
  in_median_regions r = true →
  region_color (cell r "entities")
  ∈ ["#ff7f0e"; "#2ca02c"; "#d62728"; "#1f77b4"].
Proof.
  unfold in_median_regions.
  destruct (cell r "entities") as [n| |]; [|done..].
  intros Hn%bool_decide_eq_true. unfold median_regions in Hn.
  repeat (apply elem_of_cons in Hn as [->|Hn]; [set_solver|]).
  by apply elem_of_nil in Hn.
Qed.

Lemma bar_text_inv flag v t :
  bar_text flag v = Ok t →
  ∃ b, Pandas.format_1f v = Ok b
       ∧ t = (if flag then b +:+ String "010" "(Proj.)" else b).
Proof.
  unfold bar_text. destruct (Pandas.format_1f v) as [b|]; [|done].
  cbn. intros [= <-]. by exists b.
Qed.

(** Membership in a list that is written out. *)
Ltac in_list :=
  repeat first [ apply list_elem_of_here | apply list_elem_of_further ].

(** The median chart of the sample table for 2024. *)
Lemma sample_median_plot_run :
  ∃ x height texts title h',
    median_age_plot Sample.globals (mkInput "World" 1950 2024) Sample.store
    = (Ok (BarFigure x height ["#ff7f0e"; "#2ca02c"] (7 # 10) texts title),
       h').
Proof.
  assert (Hfig : match (median_age_plot Sample.globals
                          (mkInput "World" 1950 2024) Sample.store).1 with
                 | Ok (BarFigure x height color alpha texts title) =>
                     color = ["#ff7f0e"; "#2ca02c"] ∧ alpha = (7 # 10)%Q
                 | _ => False
                 end) by (vm_compute; by split).
  destruct (median_age_plot _ _ _)
    as [[[|?|x height color alpha texts title]|] h']; try done.
  destruct Hfig as [-> ->]. by eexists _, _, _, _, _.
Qed.

Lemma numbers_elem (s : Series) (qs : list Q) (q : Q) :
  numbers s = Ok qs → q ∈ qs → VNum q ∈ s.
Proof.
  revert qs. induction s as [|v s IH]; intros qs Hs Hq.
  - injection Hs as <-. by apply elem_of_nil in Hq.
  - destruct v as [t|p|]; simpl in Hs; [done| |].
    + destruct (numbers s) as [ps|]; [|done]. injection Hs as <-.
      apply elem_of_cons in Hq as [->|Hq]; [apply list_elem_of_here|].
      apply list_elem_of_further. by apply (IH ps).
    + apply list_elem_of_further. by apply (IH qs).
Qed.

(** A column whose largest value is a number holds a number. *)
Lemma max_number (s : Series) (q : Q) :
  Pandas.max s = Ok (VNum q) → ∃ p, VNum p ∈ s.
Proof.
  unfold Pandas.max. destruct (numbers s) as [[|p ps]|] eqn:Hs; [done| |done].
  intros _. exists p. apply (numbers_elem s (p :: ps)); [done|].
  apply list_elem_of_here.
Qed.

(** X10.  The bars of the matplotlib median chart, whenever
    [median_age_plot] returns bars.  There is then one bar for every row
    of the four regions in the selected year, named by the entity, as
    high as [median_age_combined], and coloured with the palette colour
    of its region: the fallback grey is never used.  At least one bar has
    a number for its height, since [set_ylim] refuses a year whose
    combined values are all missing.  The bars are drawn at opacity 0.7
    with "(Proj.)" under every value exactly when the selected year is
    after 2023, which is also when [projection_info] shows the note
    "Projektion"; otherwise at opacity 1 with the plain value. *)
Theorem median_bars_use_the_palette
        (g : Globals) (i : Input) (h : gmap nat DataFrame) (df : DataFrame)
        (x height : list value) (color : list string) (alpha : Q)
        (texts : list string) (title : string) (h' : gmap nat DataFrame) :
  h !! median_df g = Some df →
  "entities" ∈ columns df →
  estimates_column ∈ columns df →
  medium_column ∈ columns df →
  "years" ∈ columns df →
  median_age_plot g i h
  = (Ok (BarFigure x height color alpha texts title), h') →
  x = (λ r, cell r "entities") <$> rows (year_frame (median_year i) df)
  ∧ height = (λ r, cell r "median_age_combined")
               <$> rows (year_frame (median_year i) df)
  ∧ color = region_color <$> x
  ∧ Forall (λ c, c ∈ ["#ff7f0e"; "#2ca02c"; "#d62728"; "#1f77b4"]) color
  ∧ ("#cccccc" ∉ color)
  ∧ (∃ q, VNum q ∈ height)
  ∧ alpha = (if bool_decide (median_year i > 2023) then (7 # 10)%Q else 1%Q)
  ∧ Forall2 (λ v t, ∃ b, Pandas.format_1f v = Ok b
                         ∧ t = (if bool_decide (median_year i > 2023)
                                then b +:+ String "010" "(Proj.)"
                                else b))
            height texts
  ∧ (alpha = (7 # 10)%Q
     ↔ projection_info i = "<span class='projection-note'>Projektion</span>").
Proof.
  intros Hdf Hent Hest Hmed Hyr Hrun.
  rewrite (median_age_plot_run g i h df) in Hrun by done.
  set (rs := rows (year_frame (median_year i) df)) in *.
  apply (f_equal fst) in Hrun. cbn [fst] in Hrun.
  destruct (bool_decide (rs = [])); [done|].
  destruct (Pandas.max _) as [highest|] eqn:Hmax; [|done].
  cbn [mbind result_bind] in Hrun.
  destruct highest as [t|q|];
    cbn [mul_scalar mbind result_bind set_ylim] in Hrun; [done| |done].
  apply max_number in Hmax.
  destruct (Py.traverse _ _) as [ts|] eqn:Hts; [|done].
  cbn [mbind result_bind] in Hrun.
  injection Hrun as <- <- <- <- <- _. apply traverse_ok in Hts.
  unfold rs in *. clear rs.
  assert (Hpalette : Forall
            (λ c, c ∈ ["#ff7f0e"; "#2ca02c"; "#d62728"; "#1f77b4"])
            (region_color
               <$> ((λ r, cell r "entities")
                      <$> rows (year_frame (median_year i) df)))).
  { rewrite <- list_fmap_compose. apply Forall_fmap, Forall_forall.
    intros r Hr. unfold year_frame, combined_frame in Hr. simpl in Hr.
    apply elem_of_filter_bool in Hr as [Hr _].
    apply list_elem_of_fmap in Hr as (r0 & -> & Hr0).
    apply elem_of_filter_bool in Hr0 as [_ Hreg]. simpl.
    rewrite cell_with_combined_other by done.
    by apply region_color_of_median_region. }
  split; [done|]. split; [done|]. split; [done|]. split; [exact Hpalette|].
  split.
  { intros Hgrey. rewrite Forall_forall in Hpalette.
    specialize (Hpalette _ Hgrey).
    repeat (apply elem_of_cons in Hpalette as [?|Hpalette]; [done|]).
    by apply elem_of_nil in Hpalette. }
  split; [exact Hmax|]. split; [done|]. split.
  { eapply Forall2_impl; [exact Hts|]. intros v t Hvt.
    by apply bar_text_inv. }
  unfold projection_info. by case_bool_decide.
Qed.

Lemma median_bars_use_the_palette_witness :
  ∃ x height texts title h',
    median_age_plot Sample.globals (mkInput "World" 1950 2024) Sample.store
    = (Ok (BarFigure x height ["#ff7f0e"; "#2ca02c"] (7 # 10) texts title),
       h')
    ∧ x = (λ r, cell r "entities")
            <$> rows (year_frame 2024 Sample.median_table)
    ∧ height = (λ r, cell r "median_age_combined")
                 <$> rows (year_frame 2024 Sample.median_table).
Proof.
  assert (H1 : Sample.store !! median_df Sample.globals
               = Some Sample.median_table) by reflexivity.
  assert (H2 : "entities" ∈ columns Sample.median_table) by in_list.
  assert (H3 : estimates_column ∈ columns Sample.median_table) by in_list.
  assert (H4 : medium_column ∈ columns Sample.median_table) by in_list.
  assert (H5 : "years" ∈ columns Sample.median_table) by in_list.
  destruct sample_median_plot_run as (x & height & texts & title & h' & Hrun).
  pose proof (median_bars_use_the_palette
                Sample.globals (mkInput "World" 1950 2024) Sample.store
                Sample.median_table x height ["#ff7f0e"; "#2ca02c"]
                (7 # 10)%Q texts title h' H1 H2 H3 H4 H5 Hrun) as Hbars.
  destruct Hbars as (Hx & Hheight & _).
  exists x, height, texts, title, h'.
  exact (conj Hrun (conj Hx Hheight)).
Defined.

(** A year whose combined values are all missing: the frame is not empty,
    and [set_ylim] raises before any text is drawn. *)
Example median_age_plot_all_missing :
  (median_age_plot
     (mkGlobals 0%nat 1%nat 2%nat [] []) (mkInput "World" 1950 2030)
     (<[2%nat := mkDataFrame
                   ["entities"; "years"; estimates_column; medium_column]
                   [Sample.median_row "Asia (UN)" 2030 NaN NaN;
                    Sample.median_row "Europe (UN)" 2030 NaN NaN]]> ∅)).1
  = Raise ValueError.
Proof. vm_compute. reflexivity. Qed.

(** ** pva/app_2.py: the slider of the bar chart *)

Lemma StronglySorted_lookup {A : Type} (R : A → A → Prop) (l : list A)
      (i j : nat) (a b : A) :
  StronglySorted R l → (i < j)%nat →
  l !! i = Some a → l !! j = Some b → R a b.
Proof.
  intros Hs. revert i j. induction Hs as [|x l Hl IH Hx]; intros i j Hij Hi Hj.
  - done.
  - destruct j as [|j]; [lia|]. destruct i as [|i]; simpl in *.
    + injection Hi as ->. rewrite Forall_forall in Hx.
      apply Hx. by eapply list_elem_of_lookup_2.
    + apply (IH i j); [lia|done..].
Qed.

Lemma StronglySorted_take {A : Type} (R : A → A → Prop) (l : list A) n :
  StronglySorted R l → StronglySorted R (take n l).
Proof.
  intros Hs. rewrite <- (take_drop n l) in Hs.
  by apply StronglySorted_app_1_l in Hs.
Qed.

Lemma take_prefix_le {A : Type} (l : list A) (n m : nat) :
  (n ≤ m)%nat → take n l `prefix_of` take m l.
Proof.
  intros Hnm. rewrite <- (Nat.min_l n m) by done.
  rewrite <- take_take. apply prefix_take.
Qed.

(** The frame the chart is drawn from, for a table without text in the
    growth column. *)
Lemma population_widget_run df regions top_n :
  "REGION_NAME" ∈ columns df →
  "change_2010_2019" ∈ columns df →
  (∀ r, r ∈ rows df → is_str (cell r "change_2010_2019") = false) →
  App2.population_widget df regions top_n
  = Ok (mkDataFrame
          (columns df)
          (take (Z.to_nat top_n)
                (Py.stable_sort
                   (λ r r', ranks_before (cell r "change_2010_2019")
                                         (cell r' "change_2010_2019"))
                   (List.filter (in_regions regions) (rows df))))).
Proof.
  intros Hreg Hch Hnum.
  unfold App2.population_widget. rewrite filtered_df_ok by done.
  cbn [mbind result_bind]. unfold nlargest.
  rewrite getitem_col_ok by done. cbn [mbind result_bind rows columns].
  rewrite existsb_none; [done|].
  intros v Hv. apply list_elem_of_fmap in Hv as (r & -> & Hr).
  apply elem_of_filter_bool in Hr as [Hr _]. by apply Hnum.
Qed.

(** X11.  Moving the slider [top_n] of the bar chart from [n] up to [m]
    only adds bars: the growth values plotted for [n] are the first of
    the growth values plotted for [m], and every state plotted for [n] is
    plotted for [m].  Within the plotted frame the growth descends from
    row to row, missing values last.  A slider value of zero or less
    plots nothing, and a value that reaches the number of matching states
    plots all of them. *)
Theorem population_widget_grows_with_top_n
        (df_states : DataFrame) (regions : list string) (n m : Z) :
  "REGION_NAME" ∈ columns df_states →
  "change_2010_2019" ∈ columns df_states →
  (∀ r, r ∈ rows df_states → is_str (cell r "change_2010_2019") = false) →
  n ≤ m →
  ∃ small big,
    App2.population_widget df_states regions n = Ok small
    ∧ App2.population_widget df_states regions m = Ok big
    ∧ columns small = columns df_states
    ∧ columns big = columns df_states
    ∧ ((λ r, cell r "change_2010_2019") <$> rows small)
        `prefix_of` ((λ r, cell r "change_2010_2019") <$> rows big)
    ∧ rows small ⊆+ rows big
    ∧ (∀ i j a b, (i < j)%nat →
         rows big !! i = Some a → rows big !! j = Some b →
         (∀ x y, cell a "change_2010_2019" = VNum x →
                 cell b "change_2010_2019" = VNum y → (y <= x)%Q)
         ∧ (cell a "change_2010_2019" = NaN →
            cell b "change_2010_2019" = NaN))
    ∧ (n ≤ 0 → rows small = [])
    ∧ (Z.of_nat (length (List.filter (in_regions regions)
                                     (rows df_states))) ≤ m →
       rows big ≡ₚ List.filter (in_regions regions) (rows df_states)).
Proof.
  intros Hreg Hch Hnum Hnm.
  rewrite !population_widget_run by done.
  set (matching := List.filter (in_regions regions) (rows df_states)).
  set (before := λ r r' : gmap string value,
         ranks_before (cell r "change_2010_2019")
                      (cell r' "change_2010_2019")).
  set (ordered := Py.stable_sort before matching).
  assert (Hperm : ordered ≡ₚ matching) by apply stable_sort_perm.
  assert (Hsorted : StronglySorted (λ a b, before a b = true) ordered).
  { apply stable_sort_sorted.
    - intros a b. apply ranks_before_total.
    - intros a b c. apply ranks_before_trans. }
  assert (Hprefix : take (Z.to_nat n) ordered
                      `prefix_of` take (Z.to_nat m) ordered)
    by (apply take_prefix_le; lia).
  eexists _, _. split; [reflexivity|]. split; [reflexivity|].
  cbn [rows columns]. split; [done|]. split; [done|].
  split.
  { destruct Hprefix as [k ->]. rewrite fmap_app. by eexists. }
  split.
  { destruct Hprefix as [k ->]. by apply submseteq_inserts_r. }
  split.
  { intros i j a b Hij Ha Hb.
    pose proof (StronglySorted_lookup _ _ i j a b
                  (StronglySorted_take _ _ (Z.to_nat m) Hsorted)
                  Hij Ha Hb) as Hab.
    apply ranks_before_cells in Hab as [Hnumeric Hmissing].
    split; [done|]. intros Hnan. apply Hmissing; [done|].
    apply Hnum. apply list_elem_of_lookup_2 in Hb.
    apply subseteq_take in Hb. rewrite Hperm in Hb.
    by apply elem_of_filter_bool in Hb as [Hb _]. }
  split.
  { intros Hn. by replace (Z.to_nat n) with 0%nat by lia. }
  intros Hlen. rewrite take_ge; [done|]. rewrite Hperm. lia.
Qed.

Lemma population_widget_grows_with_top_n_witness :
  ∃ small big,
    App2.population_widget Sample.states_table ["South"; "Midwest"] 1
    = Ok small
    ∧ App2.population_widget Sample.states_table ["South"; "Midwest"] 2
      = Ok big
    ∧ rows small ⊆+ rows big.
Proof.
  destruct (population_widget_grows_with_top_n
              Sample.states_table ["South"; "Midwest"] 1 2)
    as (small & big & Hsmall & Hbig & _ & _ & _ & Hsub & _).
  - in_list.
  - in_list.
  - intros r Hr. unfold Sample.states_table in Hr. cbn [rows] in Hr.
    repeat (apply elem_of_cons in Hr as [->|Hr]; [by vm_compute|]).
    by apply elem_of_nil in Hr.
  - lia.
  - exists small, big. exact (conj Hsmall (conj Hbig Hsub)).
Defined.

(** ** pva/app_2.py: the value box *)

Lemma numbers_no_text (s : Series) :
  existsb is_str s = false → numbers s = Ok (omap sort_key s).
Proof.
  induction s as [|v s IH]; [done|].
  destruct v as [t|q|]; simpl; [done| |]; intros Hs.
  - by rewrite IH.
  - by apply IH.
Qed.

Lemma omap_sort_key_nil (s : Series) :
  existsb is_str s = false →
  omap sort_key s = [] ↔ Forall (λ v, v = NaN) s.
Proof.
  induction s as [|v s IH]; [by intros _; split; [constructor|]|].
  destruct v as [t|q|]; simpl; [done| |]; intros Hs.
  - split; [done|]. by inversion 1.
  - rewrite IH by done. split; [by constructor|]. by inversion 1.
Qed.

Lemma free_of_app_r c s t : free_of c t = false → free_of c (s +:+ t) = false.
Proof.
  intros Ht. induction s as [|d s IH]; simpl; [done|].
  rewrite IH. apply andb_false_r.
Qed.

(** The text of a number is never the text of a missing value. *)
Lemma format_1f_is_not_nan (x : Q) : Py.format_1f x ≠ "nan".
Proof.
  intros Heq. assert (Hfree : free_of "." (Py.format_1f x) = false).
  { unfold Py.format_1f. cbv zeta. apply free_of_app_r, free_of_app_r.
    apply (free_of_app "." EmptyString). }
  by rewrite Heq in Hfree.
Qed.

(** X12.  For a state table whose growth column holds numbers and
    missing values only, the value box never fails: it shows a text
    followed by "%".  The text is "nan" exactly when no selected state
    has a growth value: no region ticked, no state in the ticked regions,
    or only missing values. *)
Theorem avg_growth_is_nan_iff_no_value
        (df_states : DataFrame) (regions : list string) :
  "REGION_NAME" ∈ columns df_states →
  "change_2010_2019" ∈ columns df_states →
  (∀ r, r ∈ rows df_states → is_str (cell r "change_2010_2019") = false) →
  ∃ text,
    App2.avg_growth df_states regions = Ok (text +:+ "%")
    ∧ (text = "nan"
       ↔ ∀ r, r ∈ rows df_states → in_regions regions r = true →
              cell r "change_2010_2019" = NaN).
Proof.
  intros Hreg Hch Hnum.
  set (matching := List.filter (in_regions regions) (rows df_states)).
  set (s := (λ r, cell r "change_2010_2019") <$> matching).
  assert (Hs : existsb is_str s = false).
  { apply existsb_none. intros v Hv.
    apply list_elem_of_fmap in Hv as (r & -> & Hr).
    apply elem_of_filter_bool in Hr as [Hr _]. by apply Hnum. }
  assert (Hall : Forall (λ v, v = NaN) s
                 ↔ ∀ r, r ∈ rows df_states → in_regions regions r = true →
                        cell r "change_2010_2019" = NaN).
  { unfold s. rewrite Forall_fmap, Forall_forall. split.
    - intros H r Hr Hsel. apply (H r). by apply elem_of_filter_bool.
    - intros H r [Hr Hsel]%elem_of_filter_bool. by apply H. }
  assert (Hrun : App2.avg_growth df_states regions
                 = (avg ← mean s; text ← Pandas.format_1f avg;
                    Ok (text +:+ "%"))).
  { unfold App2.avg_growth. rewrite filtered_df_ok by done.
    cbn [mbind result_bind]. by rewrite getitem_col_ok by done. }
  rewrite Hrun. unfold mean. rewrite numbers_no_text by done.
  cbn [mbind result_bind].
  pose proof (omap_sort_key_nil s Hs) as Hnil.
  destruct (omap sort_key s) as [|q qs].
  - exists "nan". split; [done|].
    split; [|done]. intros _. by apply Hall, Hnil.
  - eexists. split; [reflexivity|].
    split.
    + intros Hnan. by apply format_1f_is_not_nan in Hnan.
    + intros H. apply Hall, Hnil in H. done.
Qed.

Lemma avg_growth_is_nan_iff_no_value_witness :
  ∃ text,
    App2.avg_growth Sample.states_table ["South"; "Midwest"]
    = Ok (text +:+ "%")
    ∧ text ≠ "nan".
Proof.
  destruct (avg_growth_is_nan_iff_no_value
              Sample.states_table ["South"; "Midwest"])
    as (text & Hrun & Hnan).
  - in_list.
  - in_list.
  - intros r Hr. unfold Sample.states_table in Hr. cbn [rows] in Hr.
    repeat (apply elem_of_cons in Hr as [->|Hr]; [by vm_compute|]).
    by apply elem_of_nil in Hr.
  - exists text. split; [exact Hrun|].
    intros ->. vm_compute in Hrun. discriminate Hrun.
Defined.

(** ** When the age pyramid is drawn *)

Lemma traverse_total {A B : Type} (f : A → result B) (l : list A) :
  (∀ x, x ∈ l → ∃ y, f x = Ok y) → ∃ ys, Py.traverse f l = Ok ys.
Proof.
  induction l as [|x l IH]; intros H; simpl; [by eexists|].
  destruct (H x) as [y ->]; [apply list_elem_of_here|].
  destruct IH as [ys ->];
    [intros z Hz; apply H; by apply list_elem_of_further|].
  by eexists.
Qed.

Lemma sorted_total {A : Type} (key : A → result Z) (l : list A) :
  (∀ x, x ∈ l → ∃ k, key x = Ok k) → ∃ s, Py.sorted key l = Ok s.
Proof.
  intros H. unfold Py.sorted.
  destruct (traverse_total key l H) as [ks ->]. by eexists.
Qed.

(** An age group as the tables name it: [100plus], or a lower bound in
    digits, an underscore and an upper bound. *)
Lemma well_formed_age_group a :
  (a = "100plus"
   ∨ ∃ lower upper k,
       a = lower +:+ "_" +:+ upper
       ∧ free_of "_" lower = true ∧ free_of "_" upper = true
       ∧ Py.int_of_str lower = Ok k) →
  (∃ k, age_group_key a = Ok k) ∧ (∃ l, age_label a = Ok l).
Proof.
  intros [->|(lower & upper & k & -> & Hl & Hu & Hk)].
  - split; by eexists.
  - rewrite age_group_key_range, age_label_range by done.
    split; by eexists.
Qed.

Lemma pyramid_bar_total md fd r_m r_f a :
  head (rows md) = Some r_m → head (rows fd) = Some r_f →
  (∃ l, age_label a = Ok l) →
  col_male a ∈ columns md → col_female a ∈ columns fd →
  is_str (cell r_m (col_male a)) = false →
  is_str (cell r_f (col_female a)) = false →
  ∃ bar, pyramid_bar md fd a = Ok bar.
Proof.
  intros Hm Hf [l Hl] Hcm Hcf Hnm Hnf. unfold pyramid_bar.
  rewrite Hl. cbn [mbind result_bind].
  rewrite !getitem_col_ok by done. cbn [mbind result_bind].
  rewrite (head_rows_cells _ _ _ Hm). cbn [mbind result_bind].
  destruct (cell r_m (col_male a)) as [s|q|]; [done|..];
    cbn [mbind result_bind div_scalar];
    rewrite (head_rows_cells _ _ _ Hf); cbn [mbind result_bind];
    (destruct (cell r_f (col_female a)) as [s'|q'|]; [done|..]);
    by eexists.
Qed.

(** X13.  Enough for the matplotlib pyramid to be drawn: both tables have
    a row for the selected entity and year, every age group is [100plus]
    or a lower bound in digits, an underscore and an upper bound, its two
    columns exist, and the two cells of the first selected rows are not
    text.  Then [age_distribution_plot] returns bars without raising:
    one label per age group, for the age groups rearranged so that their
    sort keys ascend, with the tick labels made from the tick positions
    of the drawn bars. *)
Theorem pyramid_drawn_for_well_formed_groups
        (get_xticks : list value → list value → list Q)
        (g : Globals) (i : Input) (h : gmap nat DataFrame)
        (male female : DataFrame) (r_m r_f : gmap string value) :
  h !! male_popl_by_age_df g = Some male →
  h !! female_popl_by_age_df g = Some female →
  "entities" ∈ columns male → "years" ∈ columns male →
  "entities" ∈ columns female → "years" ∈ columns female →
  head (rows (selection i male)) = Some r_m →
  head (rows (selection i female)) = Some r_f →
  (∀ a, a ∈ male_age_groups g →
     (a = "100plus"
      ∨ ∃ lower upper k,
          a = lower +:+ "_" +:+ upper
          ∧ free_of "_" lower = true ∧ free_of "_" upper = true
          ∧ Py.int_of_str lower = Ok k)
     ∧ col_male a ∈ columns male ∧ col_female a ∈ columns female
     ∧ is_str (cell r_m (col_male a)) = false
     ∧ is_str (cell r_f (col_female a)) = false) →
  ∃ sorted_age_groups keys labels m f title h',
    age_distribution_plot get_xticks g i h
    = (Ok (BarhFigure labels m f title (xticklabel <$> get_xticks m f)), h')
    ∧ sorted_age_groups ≡ₚ male_age_groups g
    ∧ Forall2 (λ a k, age_group_key a = Ok k) sorted_age_groups keys
    ∧ StronglySorted Z.le keys
    ∧ Forall2 (λ a l, age_label a = Ok l) sorted_age_groups labels
    ∧ length labels = length (male_age_groups g)
    ∧ length m = length labels ∧ length f = length labels.
Proof.
  intros Hm Hf Hme Hmy Hfe Hfy Hrm Hrf Hgroups.
  rewrite (age_distribution_plot_data g i h male female) by
    (try done; intros Hnil; by rewrite Hnil in *).
  set (h2 := <[_ := selection i female]> _).
  destruct (sorted_total age_group_key (male_age_groups g)) as [s Hs].
  { intros a Ha. by apply well_formed_age_group, Hgroups. }
  destruct (sorted_ok _ _ _ Hs) as (Hperm & keys & Hkeys & Hsorted).
  destruct (traverse_total
              (pyramid_bar (selection i male) (selection i female)) s)
    as [bars Hbars].
  { intros a Ha. rewrite Hperm in Ha.
    destruct (Hgroups a Ha) as (Hwf & Hcm & Hcf & Hnm & Hnf).
    apply (pyramid_bar_total _ _ r_m r_f); try done.
    by apply well_formed_age_group. }
  assert (Hfig : pyramid_figure get_xticks (selection i male)
                   (selection i female) (male_age_groups g) i
                 = Ok (BarhFigure
                         bars.*1.*1 bars.*1.*2 bars.*2
                         ("Altersverteilung - " +:+ entity i
                            +:+ " (" +:+ Py.str (year i) +:+ ")")
                         (xticklabel
                            <$> get_xticks bars.*1.*2 bars.*2))).
  { unfold pyramid_figure. rewrite Hs. cbn [mbind result_bind].
    by rewrite Hbars. }
  rewrite Hfig.
  destruct (pyramid_figure_inv _ _ _ _ Hrm Hrf _ _ _ _ _ _ _ _ Hfig)
    as (s' & Hs' & Hlabels & _).
  assert (s' = s) as -> by congruence.
  exists s, keys, bars.*1.*1, bars.*1.*2, bars.*2. eexists _, h2.
  split; [reflexivity|]. split; [done|]. split; [done|]. split; [done|].
  split; [done|].
  split; [by rewrite <- (Forall2_length _ _ _ Hlabels), Hperm|].
  by rewrite !length_fmap.
Qed.

(** The age groups of the sample tables and the rows for World, 1950. *)
Lemma sample_age_groups_well_formed :
  ∃ r_m r_f,
    head (rows (selection (mkInput "World" 1950 1950) Sample.male_table))
    = Some r_m
    ∧ head (rows (selection (mkInput "World" 1950 1950)
                            Sample.female_table))
      = Some r_f
    ∧ ∀ a, a ∈ male_age_groups Sample.globals →
        (a = "100plus"
         ∨ ∃ lower upper k,
             a = lower +:+ "_" +:+ upper
             ∧ free_of "_" lower = true ∧ free_of "_" upper = true
             ∧ Py.int_of_str lower = Ok k)
        ∧ col_male a ∈ columns Sample.male_table
        ∧ col_female a ∈ columns Sample.female_table
        ∧ is_str (cell r_m (col_male a)) = false
        ∧ is_str (cell r_f (col_female a)) = false.
Proof.
  eexists _, _. split; [reflexivity|]. split; [reflexivity|].
  intros a Ha. change (male_age_groups Sample.globals)
    with ["100plus"; "0_4"; "5_9"] in Ha.
  apply elem_of_cons in Ha as [->|Ha].
  { split; [by left|]. split; [in_list|]. split; [in_list|].
    by vm_compute. }
  apply elem_of_cons in Ha as [->|Ha].
  { split; [right; by exists "0", "4", 0|].
    split; [in_list|]. split; [in_list|]. by vm_compute. }
  apply elem_of_cons in Ha as [->|Ha]; [|by apply elem_of_nil in Ha].
  split; [right; by exists "5", "9", 5|].
  split; [in_list|]. split; [in_list|]. by vm_compute.
Qed.

Lemma pyramid_drawn_for_well_formed_groups_witness :
  ∃ sorted_age_groups keys labels m f title h',
    age_distribution_plot (λ _ _, []) Sample.globals
                          (mkInput "World" 1950 1950) Sample.store
    = (Ok (BarhFigure labels m f title []), h')
    ∧ sorted_age_groups ≡ₚ ["100plus"; "0_4"; "5_9"]
    ∧ Forall2 (λ a k, age_group_key a = Ok k) sorted_age_groups keys
    ∧ StronglySorted Z.le keys.
Proof.
  destruct sample_age_groups_well_formed as (r_m & r_f & Hrm & Hrf & Hwf).
  destruct (pyramid_drawn_for_well_formed_groups
              (λ _ _, []) Sample.globals (mkInput "World" 1950 1950)
              Sample.store Sample.male_table Sample.female_table r_m r_f)
    as (s & keys & labels & m & f & title & h' & Hrun & Hperm & Hkeys
        & Hsorted & _);
    [reflexivity | reflexivity | in_list | in_list | in_list | in_list
    | exact Hrm | exact Hrf | exact Hwf |].
  exists s, keys, labels, m, f, title, h'.
  exact (conj Hrun (conj Hperm (conj Hkeys Hsorted))).
Defined.

(** ** The plotly pyramid and missing values *)

Lemma traverse_raise {A B : Type} (f : A → result B) (l : list A) e :
  (∀ x, x ∈ l → f x = Raise e ∨ ∃ y, f x = Ok y) →
  (∃ x, x ∈ l ∧ f x = Raise e) →
  Py.traverse f l = Raise e.
Proof.
  induction l as [|x l IH]; intros Hall (z & Hz & Hfz).
  - by apply elem_of_nil in Hz.
  - simpl. destruct (Hall x) as [Hx|[y Hx]];
      [apply list_elem_of_here|by rewrite Hx|].
    rewrite Hx. cbn [mbind result_bind]. rewrite IH; [done| |].
    + intros w Hw. apply Hall. by apply list_elem_of_further.
    + apply elem_of_cons in Hz as [->|Hz]; [congruence|by exists z].
Qed.

Lemma age_record_total md fd r_m r_f a :
  head (rows md) = Some r_m → head (rows fd) = Some r_f →
  (∃ l, age_label a = Ok l) →
  col_male a ∈ columns md → col_female a ∈ columns fd →
  is_str (cell r_m (col_male a)) = false →
  is_str (cell r_f (col_female a)) = false →
  ∃ record, AgeAppShiny.age_record md fd a = Ok record.
Proof.
  intros Hm Hf [l Hl] Hcm Hcf Hnm Hnf. unfold AgeAppShiny.age_record.
  rewrite Hl. cbn [mbind result_bind].
  rewrite !getitem_col_ok by done. cbn [mbind result_bind].
  rewrite (head_rows_cells _ _ _ Hm). cbn [mbind result_bind].
  destruct (cell r_m (col_male a)) as [s|q|]; [done|..];
    cbn [mbind result_bind div_scalar neg];
    rewrite (head_rows_cells _ _ _ Hf); cbn [mbind result_bind];
    (destruct (cell r_f (col_female a)) as [s'|q'|]; [done|..]);
    by eexists.
Qed.

Lemma ticktext_of_millions (v : value) :
  is_str v = false →
  (v = NaN
   ∧ AgeAppShiny.ticktext_of (millions_of_negated v) = Raise ValueError)
  ∨ (v ≠ NaN
     ∧ ∃ t, AgeAppShiny.ticktext_of (millions_of_negated v) = Ok t).
Proof.
  destruct v as [s|q|]; [done| |]; intros _.
  - right. split; [done|]. by eexists.
  - left. by split.
Qed.

(** X14.  The plotly pyramid needs every male value.  With both tables
    holding a row for the selected entity and year, at least one age
    group, every age group well formed with its two columns present and
    no text in the cells of the first selected rows:
    [age_distribution_render] returns the pyramid, with the labels in the
    order of the columns, when no male cell is missing; and it raises
    ValueError, from [int(x)] in the tick texts, as soon as one male cell
    is missing. *)
Theorem plotly_pyramid_needs_every_male_value
        (g : Globals) (i : Input) (h : gmap nat DataFrame)
        (male female : DataFrame) (r_m r_f : gmap string value) :
  h !! male_popl_by_age_df g = Some male →
  h !! female_popl_by_age_df g = Some female →
  "entities" ∈ columns male → "years" ∈ columns male →
  "entities" ∈ columns female → "years" ∈ columns female →
  head (rows (selection i male)) = Some r_m →
  head (rows (selection i female)) = Some r_f →
  male_age_groups g ≠ [] →
  (∀ a, a ∈ male_age_groups g →
     (a = "100plus"
      ∨ ∃ lower upper k,
          a = lower +:+ "_" +:+ upper
          ∧ free_of "_" lower = true ∧ free_of "_" upper = true
          ∧ Py.int_of_str lower = Ok k)
     ∧ col_male a ∈ columns male ∧ col_female a ∈ columns female
     ∧ is_str (cell r_m (col_male a)) = false
     ∧ is_str (cell r_f (col_female a)) = false) →
  ((∀ a, a ∈ male_age_groups g → cell r_m (col_male a) ≠ NaN) →
   ∃ age m f title ticktext,
     (AgeAppShiny.age_distribution_render g i h).1
     = Ok (AgeAppShiny.PyramidFigure age m f title ticktext)
     ∧ Forall2 (λ a l, age_label a = Ok l) (male_age_groups g) age
     ∧ length m = length (male_age_groups g))
  ∧ ((∃ a, a ∈ male_age_groups g ∧ cell r_m (col_male a) = NaN) →
     (AgeAppShiny.age_distribution_render g i h).1 = Raise ValueError).
Proof.
  intros Hm Hf Hme Hmy Hfe Hfy Hrm Hrf Hne Hgroups.
  rewrite (age_distribution_render_data g i h male female) by
    (try done; intros Hnil; by rewrite Hnil in *).
  cbn [fst].
  destruct (traverse_total
              (AgeAppShiny.age_record (selection i male)
                                      (selection i female))
              (male_age_groups g))
    as [age_data Hdata].
  { intros a Ha.
    destruct (Hgroups a Ha) as (Hwf & Hcm & Hcf & Hnm & Hnf).
    apply (age_record_total _ _ r_m r_f); try done.
    by apply well_formed_age_group. }
  pose proof (traverse_ok _ _ _ Hdata) as Hrecords.
  assert (Hinv : ∀ a y,
            AgeAppShiny.age_record (selection i male)
                                   (selection i female) a = Ok y →
            age_label a = Ok y.1.1
            ∧ y.1.2 = millions_of_negated (cell r_m (col_male a))).
  { intros a [[l m0] f0] Hy.
    by destruct (age_record_inv _ _ _ _ _ _ _ _ Hrm Hrf Hy)
      as (? & _ & _ & ? & _). }
  assert (Hmale : age_data.*1.*2
            = (λ a, millions_of_negated (cell r_m (col_male a)))
                <$> male_age_groups g).
  { rewrite <- list_fmap_compose.
    eapply Forall2_fmap_eq; [|exact Hrecords].
    intros a y Hy. by apply Hinv. }
  assert (Hsome : age_data ≠ []).
  { intros ->. apply Forall2_nil_inv_r in Hrecords. done. }
  unfold AgeAppShiny.pyramid_figure. rewrite Hdata.
  cbn [mbind result_bind]. rewrite bool_decide_eq_false_2 by done.
  cbn [mbind result_bind]. rewrite Hmale.
  split.
  - intros Hall.
    destruct (traverse_total AgeAppShiny.ticktext_of
                ((λ a, millions_of_negated (cell r_m (col_male a)))
                   <$> male_age_groups g)) as [tt Htt].
    { intros v Hv. apply list_elem_of_fmap in Hv as (a & -> & Ha).
      destruct (Hgroups a Ha) as (_ & _ & _ & Hnm & _).
      destruct (ticktext_of_millions _ Hnm) as [[Hnan _]|[_ Ht]];
        [by apply Hall in Hnan|done]. }
    rewrite Htt. cbn [mbind result_bind].
    eexists _, _, _, _, _. split; [reflexivity|]. split.
    + rewrite <- list_fmap_compose. apply Forall2_fmap_r.
      eapply Forall2_impl; [exact Hrecords|]. intros a y Hy.
      by apply Hinv.
    + by rewrite length_fmap.
  - intros (a & Ha & Hnan).
    rewrite (traverse_raise _ _ ValueError); [done| |].
    + intros v Hv. apply list_elem_of_fmap in Hv as (b & -> & Hb).
      destruct (Hgroups b Hb) as (_ & _ & _ & Hnm & _).
      destruct (ticktext_of_millions _ Hnm) as [[_ Hr]|[_ Ht]];
        [by left|by right].
    + exists (millions_of_negated (cell r_m (col_male a))).
      split; [apply list_elem_of_fmap; by exists a|].
      by rewrite Hnan.
Qed.

Lemma plotly_pyramid_needs_every_male_value_witness :
  ∃ age m f title ticktext,
    (AgeAppShiny.age_distribution_render
       Sample.globals (mkInput "World" 1950 1950) Sample.store).1
    = Ok (AgeAppShiny.PyramidFigure age m f title ticktext)
    ∧ length m = 3%nat.
Proof.
  destruct sample_age_groups_well_formed as (r_m & r_f & Hrm & Hrf & Hwf).
  assert (Hnum : ∀ a, a ∈ male_age_groups Sample.globals →
                      cell r_m (col_male a) ≠ NaN).
  { assert (r_m = default ∅ (head (rows (selection
                (mkInput "World" 1950 1950) Sample.male_table)))) as ->
      by (by rewrite Hrm).
    clear. intros a Ha. change (male_age_groups Sample.globals)
      with ["100plus"; "0_4"; "5_9"] in Ha.
    repeat (apply elem_of_cons in Ha as [->|Ha]; [by vm_compute|]).
    by apply elem_of_nil in Ha. }
  destruct (plotly_pyramid_needs_every_male_value
              Sample.globals (mkInput "World" 1950 1950)
              Sample.store Sample.male_table Sample.female_table r_m r_f)
    as [Hdraw _];
    [reflexivity | reflexivity | in_list | in_list | in_list | in_list
    | exact Hrm | exact Hrf | done | exact Hwf |].
  destruct (Hdraw Hnum) as (age & m & f & title & tt & Hrun & _ & Hlen).
  exists age, m, f, title, tt. exact (conj Hrun Hlen).
Defined.

(** ** The plotly median chart and the cached frame *)

Lemma lift_run {A : Type} (r : result A) (h : gmap nat DataFrame) :
  lift r h = (r, h).
Proof. done. Qed.

Lemma setitem_data_run h p df col (data : list value) :
  h !! p = Some df → length data = length (rows df) →
  DF.setitem p col data h
  = (Ok tt,
     <[p := mkDataFrame
              (if bool_decide (col ∈ columns df) then columns df
               else columns df ++ [col])
              (zip_with (λ r v, <[col := v]> r) (rows df) data)]> h).
Proof.
  intros Hp Hlen. unfold DF.setitem.
  rewrite (bind_run _ _ _ _ _ (load_run _ _ _ Hp)).
  erewrite bind_run; [done|].
  unfold lift, Pandas.setitem. by rewrite bool_decide_eq_true_2.
Qed.

Lemma zip_with_insert_other (col c : string)
      (l : list (gmap string value)) (data : list value) :
  col ≠ c → length data = length l →
  (λ r, cell r c) <$> zip_with (λ r v, <[col := v]> r) l data
  = (λ r, cell r c) <$> l.
Proof.
  intros Hne. revert data. induction l as [|r l IH]; intros [|v data] Hlen;
    simplify_eq/=; [done|].
  rewrite IH by done. unfold cell at 1. by rewrite lookup_insert_ne.
Qed.

Lemma zip_with_insert_same (col : string)
      (l : list (gmap string value)) (data : list value) :
  length data = length l →
  (λ r, cell r col) <$> zip_with (λ r v, <[col := v]> r) l data = data.
Proof.
  revert data. induction l as [|r l IH]; intros [|v data] Hlen;
    simplify_eq/=; [done|].
  rewrite IH by done. unfold cell. by rewrite lookup_insert_eq.
Qed.

Lemma zip_with_insert_twice (col : string)
      (l : list (gmap string value)) (data : list value) :
  zip_with (λ r v, <[col := v]> r)
           (zip_with (λ r v, <[col := v]> r) l data) data
  = zip_with (λ r v, <[col := v]> r) l data.
Proof.
  revert data. induction l as [|r l IH]; intros [|v data]; simpl; [done..|].
  by rewrite IH, insert_insert_eq.
Qed.

Lemma custom_text_insert flag (r : gmap string value) (v : value) :
  AgeAppShiny.custom_text flag (<["custom_text" := v]> r)
  = AgeAppShiny.custom_text flag r.
Proof. unfold AgeAppShiny.custom_text. by rewrite lookup_insert_ne. Qed.

Lemma traverse_custom_text_insert flag
      (l : list (gmap string value)) (data : list value) :
  length data = length l →
  Py.traverse (AgeAppShiny.custom_text flag)
              (zip_with (λ r v, <["custom_text" := v]> r) l data)
  = Py.traverse (AgeAppShiny.custom_text flag) l.
Proof.
  revert data. induction l as [|r l IH]; intros [|v data] Hlen; try done.
  injection Hlen as Hlen. cbn [zip_with Py.traverse].
  by rewrite custom_text_insert, IH.
Qed.

Lemma traverse_length {A B : Type} (f : A → result B) l ys :
  Py.traverse f l = Ok ys → length ys = length l.
Proof. intros H%traverse_ok. symmetry. by eapply Forall2_length. Qed.

Section RenderBody.

Variables (p : ref) (flag : bool) (i : Input).
Variables (h : gmap nat DataFrame) (fr : DataFrame).
Hypothesis Hp : h !! p = Some fr.
Hypothesis Hent : "entities" ∈ columns fr.
Hypothesis Hcomb : "median_age_combined" ∈ columns fr.

Lemma median_age_render_body_empty :
  rows fr = [] →
  AgeAppShiny.median_age_render_body (p, flag) i h
  = (Ok (AgeAppShiny.AnnotationFigure no_median_data), h).
Proof.
  intros Hrows. unfold AgeAppShiny.median_age_render_body.
  rewrite (bind_run _ _ _ _ _ (empty_run _ _ _ Hp)).
  unfold Pandas.empty. rewrite Hrows. by destruct (columns fr).
Qed.

Lemma median_age_render_body_raise e :
  rows fr ≠ [] →
  Py.traverse (AgeAppShiny.custom_text flag) (rows fr) = Raise e →
  AgeAppShiny.median_age_render_body (p, flag) i h = (Raise e, h).
Proof.
  intros Hrows Htexts. unfold AgeAppShiny.median_age_render_body.
  rewrite (bind_run _ _ _ _ _ (empty_run _ _ _ Hp)).
  assert (Pandas.empty fr = false) as ->.
  { unfold Pandas.empty. destruct (columns fr); [by apply elem_of_nil in Hent|].
    by destruct (rows fr). }
  rewrite (bind_run _ _ _ _ _ (load_run _ _ _ Hp)).
  apply bind_raise. by rewrite lift_run, Htexts.
Qed.

Lemma median_age_render_body_run texts :
  rows fr ≠ [] →
  Py.traverse (AgeAppShiny.custom_text flag) (rows fr) = Ok texts →
  AgeAppShiny.median_age_render_body (p, flag) i h
  = (Ok (AgeAppShiny.PxBarFigure
           ((λ r, cell r "entities") <$> rows fr)
           ((λ r, cell r "median_age_combined") <$> rows fr)
           texts
           ("Medianes Alter nach Region ("
              +:+ Py.str (median_year i) +:+ ")")
           (if flag then (7 # 10)%Q else 1%Q)),
     <[p := mkDataFrame
              (if bool_decide ("custom_text" ∈ columns fr) then columns fr
               else columns fr ++ ["custom_text"])
              (zip_with (λ r v, <["custom_text" := v]> r) (rows fr) texts)]>
       h).
Proof.
  intros Hrows Htexts. pose proof (traverse_length _ _ _ Htexts) as Hlen.
  unfold AgeAppShiny.median_age_render_body.
  rewrite (bind_run _ _ _ _ _ (empty_run _ _ _ Hp)).
  assert (Pandas.empty fr = false) as ->.
  { unfold Pandas.empty. destruct (columns fr); [by apply elem_of_nil in Hent|].
    by destruct (rows fr). }
  rewrite (bind_run _ _ _ _ _ (load_run _ _ _ Hp)).
  erewrite bind_run; [|by rewrite lift_run, Htexts].
  rewrite (bind_run _ _ _ _ _ (setitem_data_run _ _ _ _ _ Hp Hlen)).
  set (fr' := mkDataFrame _ _). set (h' := <[p := fr']> h).
  assert (Hp' : h' !! p = Some fr') by apply lookup_insert_eq.
  assert (Hcols : ∀ c, c ∈ columns fr → c ∈ columns fr').
  { intros c Hc. unfold fr'; simpl. case_bool_decide; [done|].
    apply elem_of_app. by left. }
  assert (Hct : "custom_text" ∈ columns fr').
  { unfold fr'; simpl. case_bool_decide; [done|].
    apply elem_of_app. right. by apply list_elem_of_singleton. }
  rewrite (bind_run _ _ _ _ _ (getitem_col_run _ _ _ _ Hp' (Hcols _ Hent))).
  rewrite (bind_run _ _ _ _ _ (getitem_col_run _ _ _ _ Hp' (Hcols _ Hcomb))).
  rewrite (bind_run _ _ _ _ _ (getitem_col_run _ _ _ _ Hp' Hct)).
  unfold fr'. cbn [rows].
  rewrite !zip_with_insert_other, zip_with_insert_same by done.
  done.
Qed.

End RenderBody.

(** X15.  The plotly median chart writes its bar texts into the frame the
    calculation returned, and into nothing else.  For a frame with the
    columns [entities] and [median_age_combined]: a second run of the
    handler on the same frame gives the same outcome as the first and
    leaves the store as the first left it, so the column [custom_text]
    is replaced and never added twice; every other frame of the store is
    untouched; in the frame itself every column but [custom_text] keeps
    its cells; and a run that raises leaves the store as it was. *)
Theorem median_age_render_is_idempotent
        (year_data : ref) (is_projection : bool) (i : Input)
        (h : gmap nat DataFrame) (frame : DataFrame) :
  h !! year_data = Some frame →
  "entities" ∈ columns frame →
  "median_age_combined" ∈ columns frame →
  let first := AgeAppShiny.median_age_render_body
                 (year_data, is_projection) i h in
  AgeAppShiny.median_age_render_body (year_data, is_projection) i first.2
  = first
  ∧ (∀ q, q ≠ year_data → first.2 !! q = h !! q)
  ∧ (∃ frame',
       first.2 !! year_data = Some frame'
       ∧ (∀ c, c ≠ "custom_text" →
            (c ∈ columns frame' ↔ c ∈ columns frame)
            ∧ (λ r, cell r c) <$> rows frame'
              = (λ r, cell r c) <$> rows frame)
       ∧ ∀ x y text title opacity,
           first.1 = Ok (AgeAppShiny.PxBarFigure x y text title opacity) →
           "custom_text" ∈ columns frame'
           ∧ (λ r, cell r "custom_text") <$> rows frame' = text
           ∧ x = (λ r, cell r "entities") <$> rows frame
           ∧ y = (λ r, cell r "median_age_combined") <$> rows frame)
  ∧ (∀ e, first.1 = Raise e → first.2 = h).
Proof.
  intros Hp Hent Hcomb first.
  destruct (decide (rows frame = [])) as [Hrows|Hrows].
  { assert (Hfirst : first = (Ok (AgeAppShiny.AnnotationFigure
                                    no_median_data), h))
      by (by apply (median_age_render_body_empty _ _ _ _ frame)).
    rewrite Hfirst. cbn [fst snd].
    split; [by rewrite <- Hfirst|]. split; [done|].
    split; [|done]. exists frame. split; [done|]. by split. }
  destruct (Py.traverse (AgeAppShiny.custom_text is_projection)
                        (rows frame)) as [texts|e] eqn:Htexts.
  2:{ assert (Hfirst : first = (Raise e, h))
        by (by apply (median_age_render_body_raise _ _ _ _ frame)).
      rewrite Hfirst. cbn [fst snd].
      split; [by rewrite <- Hfirst|]. split; [done|].
      split; [|done]. exists frame. split; [done|]. by split. }
  pose proof (traverse_length _ _ _ Htexts) as Hlen.
  pose proof (median_age_render_body_run
                year_data is_projection i h frame Hp Hent Hcomb texts
                Hrows Htexts) as Hfirst.
  fold first in Hfirst.
  set (frame' := mkDataFrame _ _) in Hfirst.
  set (h' := <[year_data := frame']> h) in Hfirst.
  assert (Hp' : h' !! year_data = Some frame') by apply lookup_insert_eq.
  assert (Hcols : ∀ c, c ∈ columns frame → c ∈ columns frame').
  { intros c Hc. unfold frame'; simpl. case_bool_decide; [done|].
    apply elem_of_app. by left. }
  assert (Hct : "custom_text" ∈ columns frame').
  { unfold frame'; simpl. case_bool_decide; [done|].
    apply elem_of_app. right. by apply list_elem_of_singleton. }
  assert (Hrows' : rows frame' ≠ []).
  { unfold frame'; simpl. destruct (rows frame), texts; done. }
  assert (Htexts' : Py.traverse (AgeAppShiny.custom_text is_projection)
                                (rows frame') = Ok texts).
  { unfold frame'; simpl. by rewrite traverse_custom_text_insert. }
  rewrite Hfirst. cbn [fst snd].
  split.
  { rewrite (median_age_render_body_run
               year_data is_projection i h' frame' Hp' (Hcols _ Hent)
               (Hcols _ Hcomb) texts Hrows' Htexts').
    rewrite bool_decide_eq_true_2 by done.
    unfold h'. rewrite insert_insert_eq.
    unfold frame' at 1 2 3 4. cbn [rows columns].
    rewrite zip_with_insert_twice.
    by rewrite !zip_with_insert_other by done. }
  split.
  { intros q Hq. unfold h'. by rewrite lookup_insert_ne. }
  split; [|done].
  exists frame'. split; [done|]. split.
  - intros c Hc. split.
    + unfold frame'; simpl. case_bool_decide; [done|].
      rewrite elem_of_app, list_elem_of_singleton.
      split; [by intros [?|?]|by left].
    + unfold frame'; simpl. by rewrite zip_with_insert_other.
  - intros x y text title opacity [= <- <- <- _ _].
    split; [done|]. split; [|done].
    unfold frame'; simpl. by rewrite zip_with_insert_same.
Qed.

Lemma median_age_render_is_idempotent_witness :
  ∃ year_data h1,
    get_median_data Sample.globals (mkInput "World" 1950 2024) Sample.store
    = (Ok (year_data, true), h1)
    ∧ AgeAppShiny.median_age_render_body
        (year_data, true) (mkInput "World" 1950 2024)
        (AgeAppShiny.median_age_render_body
           (year_data, true) (mkInput "World" 1950 2024) h1).2
      = AgeAppShiny.median_age_render_body
          (year_data, true) (mkInput "World" 1950 2024) h1.
Proof.
  assert (H1 : Sample.store !! median_df Sample.globals
               = Some Sample.median_table) by reflexivity.
  assert (H2 : "entities" ∈ columns Sample.median_table) by in_list.
  assert (H3 : estimates_column ∈ columns Sample.median_table) by in_list.
  assert (H4 : medium_column ∈ columns Sample.median_table) by in_list.
  assert (H5 : "years" ∈ columns Sample.median_table) by in_list.
  pose proof (get_median_data_run
                Sample.globals Sample.store Sample.median_table
                H1 H2 H3 H4 H5 (mkInput "World" 1950 2024)) as Hrun.
  cbv zeta in Hrun.
  change (bool_decide (median_year (mkInput "World" 1950 2024) > 2023))
    with true in Hrun.
  eexists _, _. split; [exact Hrun|].
  refine (proj1 (median_age_render_is_idempotent
                   _ true (mkInput "World" 1950 2024) _
                   (year_frame 2024 Sample.median_table) _ _ _)).
  - apply lookup_insert_eq.
  - by apply entities_in_combined_frame.
  - apply combined_in_combined_frame.
Defined.

(** ** The median calculation on a table that lacks a column *)

Lemma insert_fresh_subseteq (h : gmap nat DataFrame) (df : DataFrame) :
  h ⊆ <[fresh (dom h) := df]> h.
Proof. apply insert_subseteq, not_elem_of_dom, is_fresh. Qed.

Section MedianMissing.

Variables (g : Globals) (i : Input) (h : gmap nat DataFrame) (df : DataFrame).
Hypothesis Hdf : h !! median_df g = Some df.

Let p1 : ref := fresh (dom h).
Let h1 : gmap nat DataFrame := <[p1 := regions_frame df]> h.
Let p2 : ref := fresh (dom h1).
Let h2 : gmap nat DataFrame := <[p2 := regions_frame df]> h1.

Lemma h_subseteq_h2 : h ⊆ h2.
Proof.
  transitivity h1; apply insert_fresh_subseteq.
Qed.

Lemma median_filtered_df_copy (k : ref → M ref) :
  "entities" ∈ columns df →
  ((ents ← getitem_col (median_df g) "entities";
    selected ← getitem_mask (median_df g) (isin ents median_regions);
    filtered_df ← copy selected;
    k filtered_df) : M ref) h
  = k p2 h2.
Proof.
  intros Hent.
  rewrite (bind_run _ _ _ _ _ (getitem_col_run _ _ _ _ Hdf Hent)).
  rewrite isin_cells.
  rewrite (bind_run _ _ _ _ _ (getitem_mask_run _ _ _ _ Hdf)).
  fold p1. change (mkDataFrame _ _) with (regions_frame df). fold h1.
  assert (H1 : h1 !! p1 = Some (regions_frame df))
    by apply lookup_insert_eq.
  by rewrite (bind_run _ _ _ _ _ (copy_run _ _ _ H1)).
Qed.

Lemma median_filtered_df_no_entities :
  "entities" ∉ columns df →
  median_filtered_df g h = (Raise (KeyError "entities"), h).
Proof.
  intros He. unfold median_filtered_df.
  by rewrite (bind_raise _ _ _ _ _ (getitem_col_run_missing _ _ _ _ Hdf He)).
Qed.

Lemma median_filtered_df_no_estimates :
  "entities" ∈ columns df → estimates_column ∉ columns df →
  median_filtered_df g h = (Raise (KeyError estimates_column), h2).
Proof.
  intros He Hest. unfold median_filtered_df.
  rewrite median_filtered_df_copy by done.
  assert (H2 : h2 !! p2 = Some (regions_frame df))
    by apply lookup_insert_eq.
  by rewrite (bind_raise _ _ _ _ _
                (getitem_col_run_missing _ _ _ _ H2 Hest)).
Qed.

Lemma median_filtered_df_no_medium :
  "entities" ∈ columns df → estimates_column ∈ columns df →
  medium_column ∉ columns df →
  median_filtered_df g h = (Raise (KeyError medium_column), h2).
Proof.
  intros He Hest Hmed. unfold median_filtered_df.
  rewrite median_filtered_df_copy by done.
  assert (H2 : h2 !! p2 = Some (regions_frame df))
    by apply lookup_insert_eq.
  rewrite (bind_run _ _ _ _ _ (getitem_col_run _ _ _ _ H2 Hest)).
  rewrite (bind_run _ _ _ _ _ (getitem_col_run _ _ _ _ H2 Hest)).
  by rewrite (bind_raise _ _ _ _ _
                (getitem_col_run_missing _ _ _ _ H2 Hmed)).
Qed.

Lemma get_median_data_no_years :
  "entities" ∈ columns df → estimates_column ∈ columns df →
  medium_column ∈ columns df → "years" ∉ columns df →
  get_median_data g i h
  = (Raise (KeyError "years"), <[p2 := combined_frame df]> h1).
Proof.
  intros He Hest Hmed Hyr. unfold get_median_data.
  rewrite (bind_run _ _ _ _ _
             (median_filtered_df_run g h df Hdf He Hest Hmed)).
  fold p1 h1 p2.
  assert (H3 : <[p2 := combined_frame df]> h1 !! p2
               = Some (combined_frame df)) by apply lookup_insert_eq.
  assert (Hny : "years" ∉ columns (combined_frame df)).
  { unfold combined_frame; simpl. case_bool_decide; [done|].
    rewrite elem_of_app, list_elem_of_singleton. by intros [?|?]. }
  by rewrite (bind_raise _ _ _ _ _
                (getitem_col_run_missing _ _ _ _ H3 Hny)).
Qed.

Lemma h_subseteq_h3 : h ⊆ <[p2 := combined_frame df]> h1.
Proof.
  transitivity h1; apply insert_fresh_subseteq.
Qed.

End MedianMissing.

(** X16.  [get_median_data] looks up [entities], the estimates column,
    the medium column and [years], in this order, and raises KeyError
    for the first of them that the median table lacks.  Without
    [entities] the store is left untouched; in the other cases the frames
    built so far stay behind, and every frame that was there before is
    unchanged.  Both median charts pass the exception on. *)
Theorem median_data_missing_column
        (g : Globals) (i : Input) (h : gmap nat DataFrame) (df : DataFrame)
        (c : string) :
  h !! median_df g = Some df →
  head (List.filter (λ c, bool_decide (c ∉ columns df))
                    ["entities"; estimates_column; medium_column; "years"])
  = Some c →
  ∃ h',
    get_median_data g i h = (Raise (KeyError c), h')
    ∧ h ⊆ h'
    ∧ (c = "entities" → h' = h)
    ∧ median_age_plot g i h = (Raise (KeyError c), h')
    ∧ AgeAppShiny.median_age_render g i h = (Raise (KeyError c), h').
Proof.
  intros Hdf Hc.
  assert (Hpass : ∀ h',
            get_median_data g i h = (Raise (KeyError c), h') →
            median_age_plot g i h = (Raise (KeyError c), h')
            ∧ AgeAppShiny.median_age_render g i h
              = (Raise (KeyError c), h')).
  { intros h' Hrun. split.
    - unfold median_age_plot. by apply bind_raise.
    - unfold AgeAppShiny.median_age_render, AgeAppShiny.get_median_data.
      by apply bind_raise. }
  assert (Hcalc : ∀ e h',
            median_filtered_df g h = (Raise e, h') →
            get_median_data g i h = (Raise e, h')).
  { intros e h' Hrun. unfold get_median_data. by apply bind_raise. }
  cbn [List.filter] in Hc.
  destruct (decide ("entities" ∈ columns df)) as [He|He].
  2:{ rewrite (bool_decide_eq_true_2 _ He) in Hc. injection Hc as <-.
      exists h.
      pose proof (Hcalc _ _ (median_filtered_df_no_entities g h df Hdf He))
        as Hrun.
      destruct (Hpass _ Hrun). done. }
  rewrite bool_decide_eq_false_2 in Hc by (by intros HH).
  destruct (decide (estimates_column ∈ columns df)) as [Hest|Hest].
  2:{ rewrite (bool_decide_eq_true_2 _ Hest) in Hc. injection Hc as <-.
      eexists.
      pose proof (Hcalc _ _ (median_filtered_df_no_estimates
                               g h df Hdf He Hest)) as Hrun.
      destruct (Hpass _ Hrun).
      split; [exact Hrun|]. split; [apply h_subseteq_h2|done]. }
  rewrite bool_decide_eq_false_2 in Hc by (by intros HH).
  destruct (decide (medium_column ∈ columns df)) as [Hmed|Hmed].
  2:{ rewrite (bool_decide_eq_true_2 _ Hmed) in Hc. injection Hc as <-.
      eexists.
      pose proof (Hcalc _ _ (median_filtered_df_no_medium
                               g h df Hdf He Hest Hmed)) as Hrun.
      destruct (Hpass _ Hrun).
      split; [exact Hrun|]. split; [apply h_subseteq_h2|done]. }
  rewrite bool_decide_eq_false_2 in Hc by (by intros HH).
  destruct (decide ("years" ∈ columns df)) as [Hyr|Hyr].
  { rewrite bool_decide_eq_false_2 in Hc by (by intros HH). done. }
  rewrite (bool_decide_eq_true_2 _ Hyr) in Hc. injection Hc as <-.
  eexists.
  pose proof (get_median_data_no_years g i h df Hdf He Hest Hmed Hyr)
    as Hrun.
  destruct (Hpass _ Hrun).
  split; [exact Hrun|]. split; [apply h_subseteq_h3|done].
Qed.

Lemma median_data_missing_column_witness :
  ∃ h',
    get_median_data
      (mkGlobals 0%nat 1%nat 2%nat [] []) (mkInput "World" 1950 1950)
      (<[2%nat := mkDataFrame ["entities"; "years"] []]> ∅)
    = (Raise (KeyError estimates_column), h')
    ∧ h' !! 2%nat = Some (mkDataFrame ["entities"; "years"] []).
Proof.
  destruct (median_data_missing_column
              (mkGlobals 0%nat 1%nat 2%nat [] []) (mkInput "World" 1950 1950)
              (<[2%nat := mkDataFrame ["entities"; "years"] []]> ∅)
              (mkDataFrame ["entities"; "years"] []) estimates_column)
    as (h' & Hrun & Hsub & _); [reflexivity | reflexivity |].
  exists h'. split; [exact Hrun|].
  exact (lookup_weaken _ _ _ _ (lookup_insert_eq _ _ _) Hsub).
Defined.

(** ** The age groups of a table *)

Import PyStr.

Example split_str_1 :
  split_str "__age_" "a__age_b__age_c" = ["a"; "b"; "c"].
Proof. reflexivity. Qed.
Example split_str_2 : split_str "__age_" "__age_" = [""; ""].
Proof. reflexivity. Qed.
Example split_str_3 : split_str "aa" "aaa" = [""; "a"].
Proof. reflexivity. Qed.
Example split_str_4 : split_str "__variant" "0_4" = ["0_4"].
Proof. reflexivity. Qed.

Lemma split_skip_nonempty sep s k : split_skip sep k s ≠ [].
Proof.
  revert k. induction s as [|c s IH]; intros k; simpl; [done|].
  destruct k; [|apply IH].
  destruct (startswith sep (String c s)); [done|].
  by destruct (split_skip sep 0 s).
Qed.

(** On a separator of one character the two splits agree. *)
Lemma split_str_single c s : split_str (String c "") s = Py.split c s.
Proof.
  unfold split_str. induction s as [|d s IH]; simpl; [done|].
  rewrite Ascii.eqb_sym, andb_true_r.
  destruct (Ascii.eqb d c); by rewrite IH.
Qed.

Lemma append_empty_r (s : string) : s +:+ "" = s.
Proof.
  induction s as [|c s IH]; [done|].
  change (String c s +:+ "") with (String c (s +:+ "")). by rewrite IH.
Qed.

Lemma append_assoc (a b c : string) : (a +:+ b) +:+ c = a +:+ (b +:+ c).
Proof.
  induction a as [|x a IH]; [done|].
  change ((String x a +:+ b) +:+ c) with (String x ((a +:+ b) +:+ c)).
  change (String x a +:+ (b +:+ c)) with (String x (a +:+ (b +:+ c))).
  by rewrite IH.
Qed.

Lemma startswith_self sep r : startswith sep (sep +:+ r) = true.
Proof.
  induction sep as [|c sep IH]; simpl; [done|].
  by rewrite Ascii.eqb_refl, IH.
Qed.

Lemma split_skip_skip sep x r :
  split_skip sep (String.length x) (x +:+ r) = split_skip sep 0 r.
Proof. induction x as [|c x IH]; simpl; [done|]. apply IH. Qed.

Lemma split_skip_cons sep c s :
  split_skip sep 0 (String c s)
  = if startswith sep (String c s)
    then "" :: split_skip sep (String.length sep - 1) s
    else match split_skip sep 0 s with
         | [] => [String c ""]
         | w :: ws => String c w :: ws
         end.
Proof. reflexivity. Qed.

Lemma split_str_at_start c sep r :
  split_str (String c sep) (String c sep +:+ r)
  = "" :: split_str (String c sep) r.
Proof.
  unfold split_str.
  change (String c sep +:+ r) with (String c (sep +:+ r)) at 1.
  rewrite split_skip_cons.
  change (String c (sep +:+ r)) with (String c sep +:+ r).
  rewrite startswith_self.
  replace (String.length (String c sep) - 1)%nat with (String.length sep)
    by (cbn [String.length]; lia).
  by rewrite split_skip_skip.
Qed.

(** No separator starts inside [x]: the first piece of [x +:+ y] is [x]
    followed by the first piece of [y]. *)
Lemma split_str_no_start sep x y :
  (∀ x1 c x2, x = x1 +:+ String c x2 →
              startswith sep (String c x2 +:+ y) = false) →
  split_str sep (x +:+ y)
  = match split_str sep y with
    | [] => [x]
    | w :: ws => (x +:+ w) :: ws
    end.
Proof.
  unfold split_str. induction x as [|c x IH]; intros Hno.
  - change ("" +:+ y) with y.
    pose proof (split_skip_nonempty sep y 0).
    by destruct (split_skip sep 0 y).
  - change (String c x +:+ y) with (String c (x +:+ y)).
    rewrite split_skip_cons.
    change (String c (x +:+ y)) with (String c x +:+ y).
    rewrite (Hno "" c x) by done.
    rewrite IH.
    + by destruct (split_skip sep 0 y).
    + intros x1 d x2 ->. by apply (Hno (String c x1) d x2).
Qed.

Lemma contains_nil sub : contains sub "" = startswith sub "".
Proof. apply orb_false_r. Qed.

Lemma contains_cons sub c s :
  contains sub (String c s) = startswith sub (String c s) || contains sub s.
Proof. reflexivity. Qed.

Lemma contains_tail sub x s :
  contains sub (x +:+ s) = false → contains sub s = false.
Proof.
  induction x as [|c x IH]; [done|].
  change (String c x +:+ s) with (String c (x +:+ s)).
  rewrite contains_cons. intros [_ H]%orb_false_iff. by apply IH.
Qed.

(** An age group without a doubled underscore and without an underscore
    at its end: no separator that begins with two underscores starts
    inside it, whatever follows. *)
Lemma plain_no_start t a y :
  contains "__" (a +:+ "_") = false →
  ∀ x1 c x2, a = x1 +:+ String c x2 →
             startswith (String "_" (String "_" t)) (String c x2 +:+ y)
             = false.
Proof.
  intros Hplain x1 c x2 ->.
  assert (Hsuffix : contains "__" (String c x2 +:+ "_") = false).
  { apply (contains_tail _ x1). by rewrite <- append_assoc. }
  cbn [String.append contains] in Hsuffix.
  apply orb_false_iff in Hsuffix as [Hstart _].
  change (String c x2 +:+ y) with (String c (x2 +:+ y)).
  cbn [startswith] in Hstart |- *.
  destruct (Ascii.eqb "_" c); cbn [andb] in Hstart |- *; [|done].
  destruct x2 as [|d x2]; [by vm_compute in Hstart|].
  change (String d x2 +:+ y) with (String d (x2 +:+ y)).
  change (String d x2 +:+ "_") with (String d (x2 +:+ "_")) in Hstart.
  cbn [startswith] in Hstart |- *.
  destruct (Ascii.eqb "_" d); cbn [andb] in Hstart |- *; done.
Qed.

Lemma startswith_contains sub s :
  startswith sub s = true → contains sub s = true.
Proof.
  intros H. destruct s; [by rewrite contains_nil|].
  by rewrite contains_cons, H.
Qed.

Lemma contains_suffix p q s :
  contains (p +:+ q) s = true → contains q s = true.
Proof.
  assert (Hstart : ∀ p s, startswith (p +:+ q) s = true →
                          contains q s = true).
  { clear. induction p as [|a p IH]; intros s Hs.
    - by apply startswith_contains.
    - destruct s as [|b s]; [done|].
      change (String a p +:+ q) with (String a (p +:+ q)) in Hs.
      cbn [startswith] in Hs.
      apply andb_true_iff in Hs as [_ Hs].
      rewrite contains_cons, (IH _ Hs). apply orb_true_r. }
  induction s as [|b s IH].
  - rewrite contains_nil. apply (Hstart p).
  - rewrite (contains_cons (p +:+ q)).
    intros [H|H]%orb_true_iff; [by apply (Hstart p)|].
    rewrite contains_cons, (IH H). apply orb_true_r.
Qed.

Lemma split_str_two_pieces c sep s :
  contains (String c sep) s = true →
  ∃ w1 w2 ws, split_str (String c sep) s = w1 :: w2 :: ws.
Proof.
  unfold split_str. induction s as [|b s IH]; [done|].
  rewrite contains_cons, split_skip_cons.
  destruct (startswith (String c sep) (String b s)).
  - intros _.
    destruct (split_skip (String c sep)
                         (String.length (String c sep) - 1) s)
      as [|w ws] eqn:Hrest; [by apply split_skip_nonempty in Hrest|].
    by eexists _, _, _.
  - intros H. destruct (IH H) as (w1 & w2 & ws & ->). by eexists _, _, _.
Qed.

(** A column that names a sex and an age always yields an age group. *)
Lemma age_group_of_total sex col :
  contains ("__sex_" +:+ sex +:+ "__age_") col = true →
  ∃ a, AgeAppLoad.age_group_of col = Ok a.
Proof.
  intros H. apply contains_suffix, contains_suffix in H.
  destruct (split_str_two_pieces _ _ _ H) as (w1 & w2 & ws & Hsplit).
  unfold AgeAppLoad.age_group_of. rewrite Hsplit.
  cbn [Py.getitem lookup list_lookup mbind result_bind].
  pose proof (split_skip_nonempty "__variant" w2 0) as Hne.
  unfold split_str. destruct (split_skip _ _ w2) as [|a l]; [done|].
  by exists a.
Qed.

(** No separator starts inside a text that is written out. *)
Ltac no_start_in_literal :=
  let x1 := fresh "x1" in
  let Heq := fresh "Heq" in
  intros x1 ? ? Heq;
  repeat (destruct x1 as [|? x1];
          [ cbn [String.append] in Heq; injection Heq as <- <-; reflexivity
          | cbn [String.append] in Heq; injection Heq as <- Heq ]);
  destruct x1; discriminate Heq.

(** The age group read off a column label, whatever its variant. *)
Lemma age_group_of_column_name sex a v :
  sex ∈ ["male"; "female"] →
  contains "__" (a +:+ "_") = false →
  AgeAppLoad.age_group_of
    ("population__sex_" +:+ sex +:+ "__age_" +:+ a +:+ "__variant" +:+ v)
  = Ok a.
Proof.
  intros Hsex Hplain.
  assert (Hafter : ∃ w ws,
             split_str "__age_" (a +:+ "__variant" +:+ v)
             = (a +:+ "__variant" +:+ w) :: ws).
  { rewrite (split_str_no_start "__age_" a)
      by (by apply (plain_no_start "age_")).
    rewrite (split_str_no_start "__age_" "__variant" v)
      by no_start_in_literal.
    pose proof (split_skip_nonempty "__age_" v 0) as Hne.
    unfold split_str. destruct (split_skip "__age_" 0 v) as [|w ws];
      [done|]. by exists w, ws. }
  destruct Hafter as (w & ws & Hafter).
  assert (Hcol : split_str "__age_"
                   ("population__sex_" +:+ sex +:+ "__age_" +:+ a
                      +:+ "__variant" +:+ v)
                 = ("population__sex_" +:+ sex)
                     :: (a +:+ "__variant" +:+ w) :: ws).
  { apply elem_of_cons in Hsex as [->|Hsex].
    - change ("population__sex_" +:+ "male" +:+ "__age_" +:+ a
                +:+ "__variant" +:+ v)
        with ("population__sex_male"
                +:+ ("__age_" +:+ (a +:+ "__variant" +:+ v))).
      rewrite (split_str_no_start "__age_" "population__sex_male")
        by no_start_in_literal.
      rewrite (split_str_at_start "_" "_age_"), Hafter. done.
    - apply list_elem_of_singleton in Hsex as ->.
      change ("population__sex_" +:+ "female" +:+ "__age_" +:+ a
                +:+ "__variant" +:+ v)
        with ("population__sex_female"
                +:+ ("__age_" +:+ (a +:+ "__variant" +:+ v))).
      rewrite (split_str_no_start "__age_" "population__sex_female")
        by no_start_in_literal.
      rewrite (split_str_at_start "_" "_age_"), Hafter. done. }
  unfold AgeAppLoad.age_group_of. rewrite Hcol.
  cbn [Py.getitem lookup list_lookup mbind result_bind].
  rewrite (split_str_no_start "__variant" a)
    by (by apply (plain_no_start "variant")).
  rewrite (split_str_at_start "_" "_variant").
  cbn [Py.getitem lookup list_lookup]. by rewrite append_empty_r.
Qed.

Lemma filter_all {A : Type} (P : A → bool) (l : list A) :
  (∀ x, x ∈ l → P x = true) → List.filter P l = l.
Proof.
  induction l as [|x l IH]; intros H; simpl; [done|].
  rewrite (H x) by apply list_elem_of_here.
  rewrite IH; [done|]. intros y Hy. apply H. by apply list_elem_of_further.
Qed.

(** X17.  [extract_age_groups] always returns: a column label that
    contains ['__sex_<sex>__age_'] has a second piece when split at
    ['__age_'], so the index 1 never fails.  It inverts the column labels
    the pyramids look up: for a table whose age columns are
    [population__sex_male__age_<group>__variant_estimates], beside
    columns that name no sex and age, the result is the list of groups
    in column order, and so for the female labels; the groups may not
    hold a doubled underscore nor end in one.  The variant is cut off:
    a column of any other variant gives the same group again. *)
Theorem extract_age_groups_inverts_column_names
        (ids groups : list string) (table_rows : list (gmap string value)) :
  Forall (λ c, contains "__sex_male__age_" c = false
               ∧ contains "__sex_female__age_" c = false) ids →
  Forall (λ a, contains "__" (a +:+ "_") = false) groups →
  AgeAppLoad.extract_age_groups
    (mkDataFrame (ids ++ (col_male <$> groups)) table_rows) "male"
  = Ok groups
  ∧ AgeAppLoad.extract_age_groups
      (mkDataFrame (ids ++ (col_female <$> groups)) table_rows) "female"
    = Ok groups
  ∧ (∀ a v, a ∈ groups →
       AgeAppLoad.age_group_of
         ("population__sex_male__age_" +:+ a +:+ "__variant" +:+ v)
       = Ok a)
  ∧ (∀ df sex, ∃ found,
       AgeAppLoad.extract_age_groups df sex = Ok found
       ∧ length found
         = length (List.filter (contains ("__sex_" +:+ sex +:+ "__age_"))
                               (columns df))).
Proof.
  intros Hids Hgroups. rewrite Forall_forall in Hids, Hgroups.
  assert (Hextract : ∀ sex (col : string → string),
            sex ∈ ["male"; "female"] →
            (∀ a, col a = "population__sex_" +:+ sex +:+ "__age_" +:+ a
                            +:+ "__variant" +:+ "_estimates") →
            (∀ a, contains ("__sex_" +:+ sex +:+ "__age_") (col a) = true) →
            (∀ c, c ∈ ids →
                  contains ("__sex_" +:+ sex +:+ "__age_") c = false) →
            AgeAppLoad.extract_age_groups
              (mkDataFrame (ids ++ (col <$> groups)) table_rows) sex
            = Ok groups).
  { intros sex col Hsex Hcol Hin Hout. unfold AgeAppLoad.extract_age_groups.
    cbn [columns]. rewrite List.filter_app, (filter_none _ ids) by done.
    rewrite filter_all
      by (intros c (a & -> & _)%list_elem_of_fmap; apply Hin).
    cbn [app]. clear Hids Hout.
    induction groups as [|a l IH]; [done|]. csimpl.
    rewrite Hcol, age_group_of_column_name;
      [|done|apply Hgroups, list_elem_of_here].
    cbn [mbind result_bind]. rewrite IH; [done|].
    intros b Hb. by apply Hgroups, list_elem_of_further. }
  split; [|split; [|split]].
  - apply Hextract; [in_list|done|by intros a|].
    intros c Hc. by apply Hids.
  - apply Hextract; [in_list|done|by intros a|].
    intros c Hc. by apply Hids.
  - intros a v Ha.
    apply (age_group_of_column_name "male"); [in_list|by apply Hgroups].
  - intros df sex. unfold AgeAppLoad.extract_age_groups. cbv zeta.
    destruct (traverse_total AgeAppLoad.age_group_of
                (List.filter (contains ("__sex_" +:+ sex +:+ "__age_"))
                             (columns df)))
      as [found Hfound].
    { intros c [_ Hc]%elem_of_filter_bool.
      by apply (age_group_of_total sex). }
    exists found. split; [done|]. by apply traverse_length in Hfound.
Qed.

Lemma extract_age_groups_inverts_column_names_witness :
  AgeAppLoad.extract_age_groups Sample.male_table "male"
  = Ok (male_age_groups Sample.globals)
  ∧ AgeAppLoad.extract_age_groups Sample.female_table "female"
    = Ok (male_age_groups Sample.globals).
Proof.
  assert (Hids : Forall (λ c, contains "__sex_male__age_" c = false
                              ∧ contains "__sex_female__age_" c = false)
                        ["entities"; "years"])
    by (repeat constructor).
  assert (Hgroups : Forall (λ a, contains "__" (a +:+ "_") = false)
                           ["100plus"; "0_4"; "5_9"])
    by (repeat constructor).
  split.
  - exact (proj1 (extract_age_groups_inverts_column_names
                    ["entities"; "years"] ["100plus"; "0_4"; "5_9"]
                    (rows Sample.male_table) Hids Hgroups)).
  - exact (proj1 (proj2 (extract_age_groups_inverts_column_names
                           ["entities"; "years"] ["100plus"; "0_4"; "5_9"]
                           (rows Sample.female_table) Hids Hgroups))).
Defined.
